(** * PyFR interface layer ([pyfr/interfaces.py]): a shallow embedding

    The module builds, for a list of element-face sides, the flat operand
    arrays of a view (by concatenating per-side fragments), the arrays of
    normal magnitudes and unit normals, and the classes that allocate them
    on a backend and hand out kernel descriptors.

    The embedding follows the Python 2 source: exceptions are an explicit
    result type, objects live in a store addressed by locations, an
    instance is a class tag with an attribute dictionary, and a method is a
    state-and-exception computation on the store. *)

From Stdlib Require Import ZArith Floats.
From stdpp Require Import gmap strings list.

Set Default Proof Using "Type".
#[local] Set Warnings "-clear-no-such-hyp".

(** ** Exceptions and results *)

Inductive exn :=
  | StopIteration
  | AttributeError
  | KeyError
  | ValueError
  | TypeError
  | NoSectionError
  | NoOptionError.

Inductive result (A : Type) :=
  | Ok (a : A)
  | Raise (e : exn).
Arguments Ok {A} a.
Arguments Raise {A} e.

#[global] Instance result_ret : MRet result := fun A a => Ok a.
#[global] Instance result_bind : MBind result := fun A B f m =>
  match m with
  | Ok a => f a
  | Raise e => Raise e
  end.

Definition is_ok {A} (r : result A) : bool :=
  match r with Ok _ => true | Raise _ => false end.

(** [[f(x) for x in xs]]: evaluated left to right, the first exception
    ends the comprehension. *)
Fixpoint list_comp {A B} (f : A -> result B) (xs : list A) : result (list B) :=
  match xs with
  | [] => Ok []
  | x :: xs' =>
      match f x with
      | Ok b =>
          match list_comp f xs' with
          | Ok bs => Ok (b :: bs)
          | Raise e => Raise e
          end
      | Raise e => Raise e
      end
  end.

(** ** numpy arrays

    An array of shape [(n, d1, ..., dk)] is kept as its [n] entries along
    the first axis, each flattened, together with the trailing shape
    [[d1; ...; dk]] that [np.concatenate] compares.  The entries of an
    array are all of one dtype; the two dtypes kept are [int64] (indices
    and strides) and [float64] (normals). *)

Inductive scalar :=
  | SInt (z : Z)
  | SFloat (x : float).

Inductive dtype :=
  | Int64
  | Float64.

#[global] Instance dtype_eq_dec : EqDecision dtype.
Proof. solve_decision. Defined.

Inductive entries :=
  | Ints (rows : list (list Z))
  | Floats (rows : list (list float)).

Record ndarray := NDArray {
  nd_tail : list nat;
  nd_entries : entries
}.

(** [a.dtype] *)
Definition nd_dtype (a : ndarray) : dtype :=
  match nd_entries a with
  | Ints _ => Int64
  | Floats _ => Float64
  end.

(** The entries of an array as scalars. *)
Definition nd_items (a : ndarray) : list (list scalar) :=
  match nd_entries a with
  | Ints rows => map (map SInt) rows
  | Floats rows => map (map SFloat) rows
  end.

(** Number of entries along the first axis. *)
Definition nd_len (a : ndarray) : nat := length (nd_items a).

(** Conversion of a 64-bit integer to a double: the nearest double, ties
    to even. *)
Definition float_of_int (z : Z) : float :=
  SF2Prim (binary_normalize prec emax z 0 false).

(** The rows of [a.astype(np.float64)]. *)
Definition float_rows (a : ndarray) : list (list float) :=
  match nd_entries a with
  | Ints rows => map (map float_of_int) rows
  | Floats rows => rows
  end.

(** The rows of an integer array. *)
Definition int_rows (a : ndarray) : option (list (list Z)) :=
  match nd_entries a with
  | Ints rows => Some rows
  | Floats _ => None
  end.

(** Entries of the concatenation of some arrays: integers when every
    array is of integers; otherwise every array is converted to doubles
    first (numpy's type promotion). *)
Definition join_entries (arrs : list ndarray) : entries :=
  match mapM int_rows arrs with
  | Some rows => Ints (concat rows)
  | None => Floats (concat (map float_rows arrs))
  end.

(** [np.concatenate(arrs)] along axis 0: [ValueError] on an empty
    sequence and on arrays whose trailing shapes differ. *)
Definition np_concatenate (arrs : list ndarray) : result ndarray :=
  match arrs with
  | [] => Raise ValueError
  | a :: rest =>
      if bool_decide (Forall (fun b => nd_tail b = nd_tail a) rest)
      then Ok (NDArray (nd_tail a) (join_entries arrs))
      else Raise ValueError
  end.

(** [a[np.newaxis, ...]]: a new leading axis of extent one. *)
Definition newaxis (a : ndarray) : list ndarray := [a].

(** Points exposed by an operand of shape [(1, n, ...)]: the extents of
    the second axis, one per entry of the leading axis. *)
Definition points (m : list ndarray) : list nat := map nd_len m.

(** [l[start::step]] for [step >= 1]; [skip] counts the entries still to
    pass over before the next one is taken. *)
Fixpoint slice_step_aux {A} (skip step : nat) (l : list A) : list A :=
  match l with
  | [] => []
  | x :: l' =>
      match skip with
      | O => x :: slice_step_aux (pred step) step l'
      | S k => slice_step_aux k step l'
      end
  end.

Definition slice_step {A} (start step : nat) (l : list A) : list A :=
  slice_step_aux start step l.

(** ** Sides, elements and the element map *)

(** One side of an interface: [(type, eidx, face, rtag)]. *)
Record side := Side {
  s_type : string;
  s_eidx : Z;
  s_face : Z;
  s_rtag : Z
}.

(** The element classes are outside this module.  An element object is
    taken with the attributes the module reads: [ndims], [nvars], the view
    getters that [getattr] looks up by name (absent names give [None]) and
    the two normal getters that are called by attribute. *)
Record element := Element {
  ndims : Z;
  nvars : Z;
  view_getters : string -> option (Z -> Z -> Z -> list ndarray);
  get_mag_pnorms_for_inter : Z -> Z -> Z -> ndarray;
  get_norm_pnorms_for_inter : Z -> Z -> Z -> ndarray
}.

(** [getattr(ele, mat)] *)
Definition getattr_ele (ele : element) (mat : string)
    : result (Z -> Z -> Z -> list ndarray) :=
  match view_getters ele mat with
  | Some g => Ok g
  | None => Raise AttributeError
  end.

(** A Python dict as the list of its items in iteration order. *)
Fixpoint dict_get {V} (d : list (string * V)) (k : string) : result V :=
  match d with
  | [] => Raise KeyError
  | (k', v) :: d' => if decide (k' = k) then Ok v else dict_get d' k
  end.

Fixpoint dict_set {V} (k : string) (v : V) (d : list (string * V))
    : list (string * V) :=
  match d with
  | [] => [(k, v)]
  | (k', v') :: d' =>
      if decide (k' = k) then (k, v) :: d' else (k', v') :: dict_set k v d'
  end.

(** [next(iter(d.viewvalues()))] *)
Definition next_viewvalues {V} (d : list (string * V)) : result V :=
  match d with
  | [] => Raise StopIteration
  | (_, v) :: _ => Ok v
  end.

(** ** The three assemblers *)

(** [{type: getattr(ele, mat) for type, ele in elemap.items()}] *)
Fixpoint viewmatmap_from (mat : string) (items : list (string * element))
    (acc : list (string * (Z -> Z -> Z -> list ndarray)))
    : result (list (string * (Z -> Z -> Z -> list ndarray))) :=
  match items with
  | [] => Ok acc
  | (type, ele) :: items' =>
      match getattr_ele ele mat with
      | Ok g => viewmatmap_from mat items' (dict_set type g acc)
      | Raise e => Raise e
      end
  end.

(** The loop [for type, eidx, face, rtag in interside: scal += ...] *)
Fixpoint scal_loop (viewmatmap : list (string * (Z -> Z -> Z -> list ndarray)))
    (interside : list side) (scal : list ndarray) : result (list ndarray) :=
  match interside with
  | [] => Ok scal
  | s :: interside' =>
      match dict_get viewmatmap (s_type s) with
      | Ok g =>
          scal_loop viewmatmap interside'
            (scal ++ g (s_eidx s) (s_face s) (s_rtag s))
      | Raise e => Raise e
      end
  end.

Definition get_view_mats (interside : list side) (mat : string)
    (elemap : list (string * element)) : result (list (list ndarray)) :=
  viewmatmap ← viewmatmap_from mat elemap [];
  scal ← scal_loop viewmatmap interside [];
  list_comp (fun i => a ← np_concatenate (slice_step i 3 scal);
                      Ok (newaxis a))
            [0; 1; 2]%nat.

Definition get_mag_pnorm_mat (interside : list side)
    (elemap : list (string * element)) : result (list ndarray) :=
  mag_pnorms ← list_comp (fun s =>
      ele ← dict_get elemap (s_type s);
      Ok (get_mag_pnorms_for_inter ele (s_eidx s) (s_face s) (s_rtag s)))
    interside;
  a ← np_concatenate mag_pnorms;
  Ok (newaxis a).

Definition get_norm_pnorm_mat (interside : list side)
    (elemap : list (string * element)) : result (list ndarray) :=
  norm_pnorms ← list_comp (fun s =>
      ele ← dict_get elemap (s_type s);
      Ok (get_norm_pnorms_for_inter ele (s_eidx s) (s_face s) (s_rtag s)))
    interside;
  a ← np_concatenate norm_pnorms;
  Ok (newaxis a).

(** ** Classes

    The class hierarchy of the module, with what each class body defines.
    [BaseInterfaces] has metaclass [ABCMeta] and declares
    [get_rsolve_kern] abstract. *)

Inductive cls :=
  | BaseInterfaces
  | BaseInternalInterfaces
  | BaseMPIInterfaces
  | EulerInternalInterfaces
  | EulerMPIInterfaces
  | NavierStokesInternalInterfaces
  | NavierStokesMPIInterfaces.

#[global] Instance cls_eq_dec : EqDecision cls.
Proof. solve_decision. Defined.

(** Method resolution order, the class itself first ([object] left out). *)
Definition mro (c : cls) : list cls :=
  match c with
  | BaseInterfaces => [BaseInterfaces]
  | BaseInternalInterfaces => [BaseInternalInterfaces; BaseInterfaces]
  | BaseMPIInterfaces => [BaseMPIInterfaces; BaseInterfaces]
  | EulerInternalInterfaces =>
      [EulerInternalInterfaces; BaseInternalInterfaces; BaseInterfaces]
  | EulerMPIInterfaces =>
      [EulerMPIInterfaces; BaseMPIInterfaces; BaseInterfaces]
  | NavierStokesInternalInterfaces =>
      [NavierStokesInternalInterfaces; BaseInternalInterfaces; BaseInterfaces]
  | NavierStokesMPIInterfaces =>
      [NavierStokesMPIInterfaces; BaseMPIInterfaces; BaseInterfaces]
  end.

(** Method names of the module. *)
Inductive method :=
  | __init__
  | get_rsolve_kern
  | get_scal_fpts0_pack_kern
  | get_scal_fpts0_send_pack_kern
  | get_scal_fpts0_recv_pack_kern
  | get_scal_fpts0_unpack_kern
  | get_conu_fpts_kern.

#[global] Instance method_eq_dec : EqDecision method.
Proof. solve_decision. Defined.

(** Methods defined in each class body. *)
Definition class_methods (c : cls) : list method :=
  match c with
  | BaseInterfaces => [__init__; get_rsolve_kern]
  | BaseInternalInterfaces => [__init__]
  | BaseMPIInterfaces =>
      [__init__; get_scal_fpts0_pack_kern; get_scal_fpts0_send_pack_kern;
       get_scal_fpts0_recv_pack_kern; get_scal_fpts0_unpack_kern]
  | EulerInternalInterfaces => [get_rsolve_kern]
  | EulerMPIInterfaces => [get_rsolve_kern]
  | NavierStokesInternalInterfaces => [__init__; get_conu_fpts_kern]
  | NavierStokesMPIInterfaces => [__init__; get_conu_fpts_kern]
  end.

(** Methods a class body declares with [@abstractmethod]. *)
Definition class_abstract (c : cls) : list method :=
  match c with
  | BaseInterfaces => [get_rsolve_kern]
  | _ => []
  end.

(** [cls.__abstractmethods__] as [ABCMeta] computes it: the abstract
    methods of the bases that the class body does not define, and the ones
    it declares itself.  The fold runs from the root of the hierarchy. *)
Definition abstractmethods (c : cls) : list method :=
  foldr (fun k inherited =>
           class_abstract k ++
           filter (fun n => n ∉ class_methods k) inherited)
        [] (mro c).

(** The class whose body provides method [m] for instances of [c]. *)
Definition resolve (c : cls) (m : method) : option cls :=
  head (filter (fun k => m ∈ class_methods k) (mro c)).

(** ** Values, objects and the store *)

(** Locations are positions in the store. *)
Abbreviation loc := nat (only parsing).

Inductive value :=
  | VNone
  | VInt (z : Z)
  | VFloat (x : float)
  | VRef (l : loc)
  | VSides (sides : list side).

(** The tag used for MPI. *)
Definition MPI_TAG : Z := 2314.

(** Data attributes of the class bodies. *)
Definition class_dict (c : cls) : gmap string value :=
  match c with
  | BaseMPIInterfaces => {[ "MPI_TAG" := VInt MPI_TAG ]}
  | _ => ∅
  end.

(** Lookup of a data attribute along the method resolution order. *)
Fixpoint class_lookup_in (cs : list cls) (name : string) : option value :=
  match cs with
  | [] => None
  | c :: cs' =>
      match class_dict c !! name with
      | Some v => Some v
      | None => class_lookup_in cs' name
      end
  end.

Definition class_lookup (c : cls) (name : string) : option value :=
  class_lookup_in (mro c) name.

(** Objects of the store.  Instances of the module's classes carry their
    attribute dictionary; the configuration object carries the two
    methods the module calls on it; the remaining objects are what the
    backend hands out. *)
Inductive obj :=
  | OInstance (c : cls) (attrs : gmap string value)
  | OConfig (get : string -> string -> result string)
            (getfloat : string -> string -> result float)
  | OBackend
  | OView (mpi : bool) (mats : list (list ndarray)) (vlen : value)
          (tags : gset string)
  | OConstMatrix (data : list ndarray) (tags : gset string)
  | OMPIMatrix (nrow ncol : nat) (vlen : value)
  | OKernel (name : string) (args : list value).

(** Computations on the store that may raise. *)
Definition M (A : Type) : Type := list obj -> result A * list obj.

#[global] Instance M_ret : MRet M := fun A a h => (Ok a, h).
#[global] Instance M_bind : MBind M := fun A B f m h =>
  match m h with
  | (Ok a, h') => f a h'
  | (Raise e, h') => (Raise e, h')
  end.

Definition raise {A} (e : exn) : M A := fun h => (Raise e, h).

Definition lift {A} (r : result A) : M A := fun h => (r, h).

(** A new object gets the next free location. *)
Definition alloc (o : obj) : M loc := fun h => (Ok (length h), h ++ [o]).

(** [self.name]: the instance dictionary first, then the classes. *)
Definition getattr (self : loc) (name : string) : M value := fun h =>
  match h !! self with
  | Some (OInstance c attrs) =>
      match attrs !! name with
      | Some v => (Ok v, h)
      | None =>
          match class_lookup c name with
          | Some v => (Ok v, h)
          | None => (Raise AttributeError, h)
          end
      end
  | _ => (Raise AttributeError, h)
  end.

(** [self.name = v] *)
Definition setattr (self : loc) (name : string) (v : value) : M unit :=
  fun h =>
  match h !! self with
  | Some (OInstance c attrs) =>
      (Ok (), <[self := OInstance c (<[name := v]> attrs)]> h)
  | _ => (Raise AttributeError, h)
  end.

(** ** The backend

    The backend class is outside this module.  The spec lists what is
    consumed of it: allocate an indirect view or a distributed view,
    allocate an immutable dense array, allocate a dense receive buffer
    shaped to match a given view, materialize a named, parameterized
    kernel descriptor.  Each call is modelled as the allocation of one new
    object that records its arguments. *)

(** Modelled from the spec: the backend object itself is missing; a
    method call on anything else raises. *)
Definition check_backend (be : value) : M unit := fun h =>
  match be with
  | VRef l =>
      match h !! l with
      | Some OBackend => (Ok (), h)
      | _ => (Raise AttributeError, h)
      end
  | _ => (Raise AttributeError, h)
  end.

(** Modelled from the spec: [be.view] is missing (allocate an indirect
    view); here on the unpacked matrices, with [vlen] and [tags]. *)
Definition be_view (be : value) (mats : list (list ndarray)) (vlen : value)
    (tags : gset string) : M value :=
  check_backend be;;
  l ← alloc (OView false mats vlen tags);
  mret (VRef l).

(** Modelled from the spec: [be.mpi_view] is missing (allocate a
    distributed view); here on the unpacked matrices, with [vlen] and
    [tags]. *)
Definition be_mpi_view (be : value) (mats : list (list ndarray))
    (vlen : value) (tags : gset string) : M value :=
  check_backend be;;
  l ← alloc (OView true mats vlen tags);
  mret (VRef l).

(** Extents [(nrow, ncol)] of a view: the shape of its first matrix. *)
Definition view_extents (mats : list (list ndarray)) : nat * nat :=
  match mats with
  | [] => (O, O)
  | m :: _ => (length m, match m with [] => O | a :: _ => nd_len a end)
  end.

(** The matrices and vector length of a view object. *)
Definition read_view (view : value) : M (list (list ndarray) * value) :=
  fun h =>
  match view with
  | VRef v =>
      match h !! v with
      | Some (OView _ mats vlen _) => (Ok (mats, vlen), h)
      | _ => (Raise TypeError, h)
      end
  | _ => (Raise TypeError, h)
  end.

(** Modelled from the spec: [be.mpi_matrix_for_view] is missing
    (allocate a dense receive buffer shaped to match a given view): a new
    dense buffer with the extents and vector length of the view. *)
Definition be_mpi_matrix_for_view (be : value) (view : value) : M value :=
  check_backend be;;
  mv ← read_view view;
  l ← alloc (OMPIMatrix (view_extents mv.1).1 (view_extents mv.1).2 mv.2);
  mret (VRef l).

(** Modelled from the spec: [be.const_matrix] is missing (allocate an
    immutable dense array). *)
Definition be_const_matrix (be : value) (data : list ndarray)
    (tags : gset string) : M value :=
  check_backend be;;
  l ← alloc (OConstMatrix data tags);
  mret (VRef l).

(** Modelled from the spec: [be.kernel] is missing (materialize a named,
    parameterized kernel descriptor); here on a kernel name and its
    operands. *)
Definition be_kernel (be : value) (name : string) (args : list value)
    : M value :=
  check_backend be;;
  l ← alloc (OKernel name args);
  mret (VRef l).

(** ** The configuration object

    The configuration class is outside this module, and the spec leaves
    configuration parsing to an external collaborator.  A configuration
    object is therefore taken with the two methods the module calls on
    it, [get(section, option)] and [getfloat(section, option)], each the
    function of its arguments that it is on that object, with the
    exceptions it raises.  Nothing relates the two. *)

(** [cfg.get(section, option)] *)
Definition cfg_get (cfg : value) (section option : string) : M string :=
  fun h =>
  match cfg with
  | VRef l =>
      match h !! l with
      | Some (OConfig get _) => (get section option, h)
      | _ => (Raise AttributeError, h)
      end
  | _ => (Raise AttributeError, h)
  end.

(** [cfg.getfloat(section, option)] *)
Definition cfg_getfloat (cfg : value) (section option : string) : M float :=
  fun h =>
  match cfg with
  | VRef l =>
      match h !! l with
      | Some (OConfig _ getfloat) => (getfloat section option, h)
      | _ => (Raise AttributeError, h)
      end
  | _ => (Raise AttributeError, h)
  end.

(** ** Constructors *)

Definition nopad : gset string := {[ "nopad" ]}.

Definition BaseInterfaces_init (self : loc) (be : value)
    (elemap : list (string * element)) (cfg : value) : M unit :=
  setattr self "_be" be;;
  setattr self "_cfg" cfg;;
  (* Get the number of dimensions and variables *)
  e ← lift (next_viewvalues elemap);
  setattr self "ndims" (VInt (ndims e));;
  e ← lift (next_viewvalues elemap);
  setattr self "nvars" (VInt (nvars e)).

Definition BaseInternalInterfaces_init (self : loc) (be : value)
    (lhs rhs : list side) (elemap : list (string * element)) (cfg : value)
    : M unit :=
  BaseInterfaces_init self be elemap cfg;;
  (* Generate the left and right hand side view matrices *)
  scal0_lhs ← lift (get_view_mats lhs "get_scal_fpts0_for_inter" elemap);
  scal0_rhs ← lift (get_view_mats rhs "get_scal_fpts0_for_inter" elemap);
  (* Allocate these on the backend as views *)
  vlen ← getattr self "nvars";
  v ← be_view be scal0_lhs vlen nopad;
  setattr self "_scal0_lhs" v;;
  vlen ← getattr self "nvars";
  v ← be_view be scal0_rhs vlen nopad;
  setattr self "_scal0_rhs" v;;
  (* Get the left and right hand side physical normal magnitudes *)
  mag_pnorm_lhs ← lift (get_mag_pnorm_mat lhs elemap);
  mag_pnorm_rhs ← lift (get_mag_pnorm_mat rhs elemap);
  (* Allocate as a const matrix *)
  m ← be_const_matrix be mag_pnorm_lhs nopad;
  setattr self "_mag_pnorm_lhs" m;;
  m ← be_const_matrix be mag_pnorm_rhs nopad;
  setattr self "_mag_pnorm_rhs" m;;
  (* Get the left hand side normalized physical normals *)
  norm_pnorm_lhs ← lift (get_norm_pnorm_mat lhs elemap);
  (* Allocate as a const matrix *)
  m ← be_const_matrix be norm_pnorm_lhs nopad;
  setattr self "_norm_pnorm_lhs" m.

Definition BaseMPIInterfaces_init (self : loc) (be : value)
    (lhs : list side) (rhsrank : value) (elemap : list (string * element))
    (cfg : value) : M unit :=
  BaseInterfaces_init self be elemap cfg;;
  setattr self "_rhsrank" rhsrank;;
  (* Generate the left hand view matrices *)
  scal0_lhs ← lift (get_view_mats lhs "get_scal_fpts0_for_inter" elemap);
  (* Allocate on the backend *)
  vlen ← getattr self "nvars";
  v ← be_mpi_view be scal0_lhs vlen nopad;
  setattr self "_scal0_lhs" v;;
  v ← getattr self "_scal0_lhs";
  b ← be_mpi_matrix_for_view be v;
  setattr self "_scal0_rhs" b;;
  (* Get the left hand side physical normal data *)
  mag_pnorm_lhs ← lift (get_mag_pnorm_mat lhs elemap);
  norm_pnorm_lhs ← lift (get_norm_pnorm_mat lhs elemap);
  (* Allocate *)
  m ← be_const_matrix be mag_pnorm_lhs nopad;
  setattr self "_mag_pnorm_lhs" m;;
  m ← be_const_matrix be norm_pnorm_lhs nopad;
  setattr self "_norm_pnorm_lhs" m.

Definition NavierStokesInternalInterfaces_init (self : loc) (be : value)
    (lhs rhs : list side) (elemap : list (string * element)) (cfg : value)
    : M unit :=
  BaseInternalInterfaces_init self be lhs rhs elemap cfg;;
  (* Generate the second set of scalar view matrices *)
  scal1_lhs ← lift (get_view_mats lhs "get_scal_fpts1_for_inter" elemap);
  scal1_rhs ← lift (get_view_mats rhs "get_scal_fpts1_for_inter" elemap);
  (* Allocate these on the backend as views *)
  vlen ← getattr self "nvars";
  v ← be_view be scal1_lhs vlen nopad;
  setattr self "_scal1_lhs" v;;
  vlen ← getattr self "nvars";
  v ← be_view be scal1_rhs vlen nopad;
  setattr self "_scal1_rhs" v.

Definition NavierStokesMPIInterfaces_init (self : loc) (be : value)
    (lhs : list side) (rhsrank : value) (elemap : list (string * element))
    (cfg : value) : M unit :=
  BaseMPIInterfaces_init self be lhs rhsrank elemap cfg;;
  (* Generate the second scalar left hand view matrix *)
  scal1_lhs ← lift (get_view_mats lhs "get_scal_fpts1_for_inter" elemap);
  vlen ← getattr self "nvars";
  v ← be_mpi_view be scal1_lhs vlen nopad;
  setattr self "_scal1_lhs" v.

(** ** Kernel getters *)

Section Getters.

(** The builtin [float] on a string: the parsed value, or [ValueError]. *)
Variable py_float : string -> result float.

(** The abstract method: its body is [pass]. *)
Definition BaseInterfaces_get_rsolve_kern (self : loc) : M value :=
  mret VNone.

Definition BaseMPIInterfaces_get_scal_fpts0_pack_kern (self : loc)
    : M value :=
  be ← getattr self "_be";
  a1 ← getattr self "_scal0_lhs";
  be_kernel be "pack" [a1].

Definition BaseMPIInterfaces_get_scal_fpts0_send_pack_kern (self : loc)
    : M value :=
  be ← getattr self "_be";
  a1 ← getattr self "_scal0_lhs";
  a2 ← getattr self "_rhsrank";
  a3 ← getattr self "MPI_TAG";
  be_kernel be "send_pack" [a1; a2; a3].

Definition BaseMPIInterfaces_get_scal_fpts0_recv_pack_kern (self : loc)
    : M value :=
  be ← getattr self "_be";
  a1 ← getattr self "_scal0_rhs";
  a2 ← getattr self "_rhsrank";
  a3 ← getattr self "MPI_TAG";
  be_kernel be "recv_pack" [a1; a2; a3].

Definition BaseMPIInterfaces_get_scal_fpts0_unpack_kern (self : loc)
    : M value :=
  be ← getattr self "_be";
  a1 ← getattr self "_scal0_rhs";
  be_kernel be "unpack" [a1].

Definition EulerInternalInterfaces_get_rsolve_kern (self : loc) : M value :=
  cfg ← getattr self "_cfg";
  gamma ← cfg_getfloat cfg "constants" "gamma";
  be ← getattr self "_be";
  a1 ← getattr self "ndims";
  a2 ← getattr self "nvars";
  a3 ← getattr self "_scal0_lhs";
  a4 ← getattr self "_scal0_rhs";
  a5 ← getattr self "_mag_pnorm_lhs";
  a6 ← getattr self "_mag_pnorm_rhs";
  a7 ← getattr self "_norm_pnorm_lhs";
  be_kernel be "rsolve_rus_inv_int" [a1; a2; a3; a4; a5; a6; a7; VFloat gamma].

Definition EulerMPIInterfaces_get_rsolve_kern (self : loc) : M value :=
  cfg ← getattr self "_cfg";
  s ← cfg_get cfg "constants" "gamma";
  gamma ← lift (py_float s);
  be ← getattr self "_be";
  a1 ← getattr self "ndims";
  a2 ← getattr self "nvars";
  a3 ← getattr self "_scal0_lhs";
  a4 ← getattr self "_scal0_rhs";
  a5 ← getattr self "_mag_pnorm_lhs";
  a6 ← getattr self "_norm_pnorm_lhs";
  be_kernel be "rsolve_rus_inv_mpi" [a1; a2; a3; a4; a5; a6; VFloat gamma].

Definition NavierStokesInternalInterfaces_get_conu_fpts_kern (self : loc)
    : M value :=
  be ← getattr self "_be";
  a1 ← getattr self "ndims";
  a2 ← getattr self "nvars";
  a3 ← getattr self "_scal0_lhs";
  a4 ← getattr self "_scal0_rhs";
  a5 ← getattr self "_scal1_lhs";
  a6 ← getattr self "_scal1_rhs";
  a7 ← getattr self "_beta";
  be_kernel be "conu_int" [a1; a2; a3; a4; a5; a6; a7].

Definition NavierStokesMPIInterfaces_get_conu_fpts_kern (self : loc)
    : M value :=
  be ← getattr self "_be";
  a1 ← getattr self "ndims";
  a2 ← getattr self "nvars";
  a3 ← getattr self "_scal0_lhs";
  a4 ← getattr self "_scal0_rhs";
  a5 ← getattr self "_scal1_lhs";
  be_kernel be "conu_mpi" [a1; a2; a3; a4; a5].

(** The body that class [k] gives to method [m], called without further
    arguments ([__init__] then lacks its positional arguments). *)
Definition method_body (k : cls) (m : method) (self : loc) : M value :=
  match k, m with
  | BaseInterfaces, get_rsolve_kern => BaseInterfaces_get_rsolve_kern self
  | BaseMPIInterfaces, get_scal_fpts0_pack_kern =>
      BaseMPIInterfaces_get_scal_fpts0_pack_kern self
  | BaseMPIInterfaces, get_scal_fpts0_send_pack_kern =>
      BaseMPIInterfaces_get_scal_fpts0_send_pack_kern self
  | BaseMPIInterfaces, get_scal_fpts0_recv_pack_kern =>
      BaseMPIInterfaces_get_scal_fpts0_recv_pack_kern self
  | BaseMPIInterfaces, get_scal_fpts0_unpack_kern =>
      BaseMPIInterfaces_get_scal_fpts0_unpack_kern self
  | EulerInternalInterfaces, get_rsolve_kern =>
      EulerInternalInterfaces_get_rsolve_kern self
  | EulerMPIInterfaces, get_rsolve_kern =>
      EulerMPIInterfaces_get_rsolve_kern self
  | NavierStokesInternalInterfaces, get_conu_fpts_kern =>
      NavierStokesInternalInterfaces_get_conu_fpts_kern self
  | NavierStokesMPIInterfaces, get_conu_fpts_kern =>
      NavierStokesMPIInterfaces_get_conu_fpts_kern self
  | _, __init__ => raise TypeError
  | _, _ => raise AttributeError
  end.

(** [self.m()]: the method is looked up in the class of [self]. *)
Definition call (self : loc) (m : method) : M value := fun h =>
  match h !! self with
  | Some (OInstance c _) =>
      match resolve c m with
      | Some k => method_body k m self h
      | None => (Raise AttributeError, h)
      end
  | _ => (Raise AttributeError, h)
  end.

End Getters.

(** ** Instantiation *)

(** Positional arguments of a constructor call: three, or five with a
    list of sides or with any other value in the third place. *)
Inductive ctor_args :=
  | ArgsBase (be : value) (elemap : list (string * element)) (cfg : value)
  | ArgsInternal (be : value) (lhs rhs : list side)
                 (elemap : list (string * element)) (cfg : value)
  | ArgsMPI (be : value) (lhs : list side) (rhsrank : value)
            (elemap : list (string * element)) (cfg : value).

(** An internal constructor whose [rhs] is not a list: the constructor of
    the base runs, the lhs view matrices are assembled, and the loop of
    [get_view_mats] over [rhs] raises [TypeError]. *)
Definition internal_init_not_iterable (self : loc) (be : value)
    (lhs : list side) (elemap : list (string * element)) (cfg : value)
    : M unit :=
  BaseInterfaces_init self be elemap cfg;;
  lift (get_view_mats lhs "get_scal_fpts0_for_inter" elemap);;
  raise TypeError.

(** The [__init__] that the class of the new instance resolves to, on the
    arguments bound by position: a constructor of five parameters takes
    whatever stands third as its [rhs] or its [rhsrank]; the number of
    arguments has to fit ([TypeError]). *)
Definition init_of (c : cls) (self : loc) (a : ctor_args) : M unit :=
  match resolve c __init__, a with
  | Some BaseInterfaces, ArgsBase be elemap cfg =>
      BaseInterfaces_init self be elemap cfg
  | Some BaseInternalInterfaces, ArgsInternal be lhs rhs elemap cfg
  | Some BaseInternalInterfaces, ArgsMPI be lhs (VSides rhs) elemap cfg =>
      BaseInternalInterfaces_init self be lhs rhs elemap cfg
  | Some NavierStokesInternalInterfaces, ArgsInternal be lhs rhs elemap cfg
  | Some NavierStokesInternalInterfaces,
    ArgsMPI be lhs (VSides rhs) elemap cfg =>
      NavierStokesInternalInterfaces_init self be lhs rhs elemap cfg
  | Some BaseInternalInterfaces, ArgsMPI be lhs _ elemap cfg
  | Some NavierStokesInternalInterfaces, ArgsMPI be lhs _ elemap cfg =>
      internal_init_not_iterable self be lhs elemap cfg
  | Some BaseMPIInterfaces, ArgsMPI be lhs rhsrank elemap cfg =>
      BaseMPIInterfaces_init self be lhs rhsrank elemap cfg
  | Some BaseMPIInterfaces, ArgsInternal be lhs rhs elemap cfg =>
      BaseMPIInterfaces_init self be lhs (VSides rhs) elemap cfg
  | Some NavierStokesMPIInterfaces, ArgsMPI be lhs rhsrank elemap cfg =>
      NavierStokesMPIInterfaces_init self be lhs rhsrank elemap cfg
  | Some NavierStokesMPIInterfaces, ArgsInternal be lhs rhs elemap cfg =>
      NavierStokesMPIInterfaces_init self be lhs (VSides rhs) elemap cfg
  | _, _ => raise TypeError
  end.

(** [c(args)]: a class with abstract methods left cannot be instantiated
    ([TypeError], before anything is allocated); otherwise the instance is
    created empty and initialised. *)
Definition instantiate (c : cls) (a : ctor_args) : M loc :=
  match abstractmethods c with
  | [] =>
      self ← alloc (OInstance c ∅);
      init_of c self a;;
      mret self
  | _ :: _ => raise TypeError
  end.

(** ** Vocabulary of the statements *)

(** The fragments the view getter [mat] of the element map returns for a
    side (none when the type or the getter is missing). *)
Definition side_frags (elemap : list (string * element)) (mat : string)
    (s : side) : list ndarray :=
  match dict_get elemap (s_type s) with
  | Ok e =>
      match view_getters e mat with
      | Some g => g (s_eidx s) (s_face s) (s_rtag s)
      | None => []
      end
  | Raise _ => []
  end.

(** The [k]-th fragment the view getter [mat] returns for a side. *)
Definition view_frag (elemap : list (string * element)) (mat : string)
    (k : nat) (s : side) : option ndarray :=
  side_frags elemap mat s !! k.

(** The common dtype of some arrays: [float64] as soon as one of them is
    of doubles. *)
Definition common_dtype (arrs : list ndarray) : dtype :=
  if bool_decide (Forall (fun a => nd_dtype a = Int64) arrs) then Int64
  else Float64.

(** A scalar promoted to a dtype: an integer promoted to [float64] is
    converted, nothing else changes. *)
Definition promote (dt : dtype) (s : scalar) : scalar :=
  match dt, s with
  | Float64, SInt z => SFloat (float_of_int z)
  | _, _ => s
  end.

(** The entries of an array promoted to a dtype. *)
Definition promoted (dt : dtype) (a : ndarray) : list (list scalar) :=
  map (map (promote dt)) (nd_items a).

(** The number of points of the fragment of a side (none when there is
    no fragment). *)
Definition frag_points (frag : side -> option ndarray) (s : side) : nat :=
  from_option nd_len 0 (frag s).

(** An operand of shape [(1, n, ...)] laid out side by side: its dtype is
    the common dtype of the fragments [frag s] of the sides, and its
    points are those of the fragments, promoted to that dtype, in the
    order of the side list. *)
Definition laid_out (frag : side -> option ndarray) (sides : list side)
    (m : list ndarray) : Prop :=
  exists a, m = [a] /\
    nd_dtype a = common_dtype (omap frag sides) /\
    nd_items a
    = concat (map (fun s => from_option (promoted (nd_dtype a)) [] (frag s))
                  sides).

(** Flat position at which the points of the [j]-th side start. *)
Definition offset (frag : side -> option ndarray) (sides : list side)
    (j : nat) : nat :=
  sum_list (map (frag_points frag) (take j sides)).

(** The trailing shapes of the fragments agree from side to side. *)
Definition same_tails (frag : side -> option ndarray) (sides : list side)
    : Prop :=
  forall s s' a a', s ∈ sides -> s' ∈ sides ->
    frag s = Some a -> frag s' = Some a' -> nd_tail a = nd_tail a'.

(** The store reached from [base] when the instance at [self] has class
    [c] and attributes [attrs] and the objects [news] have been allocated
    since. *)
Definition store (base : list obj) (self : loc) (c : cls)
    (attrs : gmap string value) (news : list obj) : list obj :=
  <[self := OInstance c attrs]> base ++ news.

(** Attributes after [BaseInterfaces.__init__]. *)
Definition base_attrs (be cfg : value) (e : element)
    (attrs : gmap string value) : gmap string value :=
  <["nvars" := VInt (nvars e)]>
    (<["ndims" := VInt (ndims e)]>
       (<["_cfg" := cfg]> (<["_be" := be]> attrs))).

(** Attributes after [BaseInternalInterfaces.__init__], the five backend
    objects being allocated from location [n] on. *)
Definition internal_attrs (be cfg : value) (e : element) (n : nat)
    (attrs : gmap string value) : gmap string value :=
  <["_norm_pnorm_lhs" := VRef (n + 4)]>
    (<["_mag_pnorm_rhs" := VRef (n + 3)]>
       (<["_mag_pnorm_lhs" := VRef (n + 2)]>
          (<["_scal0_rhs" := VRef (n + 1)]>
             (<["_scal0_lhs" := VRef n]> (base_attrs be cfg e attrs))))).

(** Attributes after [BaseMPIInterfaces.__init__], the four backend
    objects being allocated from location [n] on. *)
Definition mpi_attrs (be cfg rhsrank : value) (e : element) (n : nat)
    (attrs : gmap string value) : gmap string value :=
  <["_norm_pnorm_lhs" := VRef (n + 3)]>
    (<["_mag_pnorm_lhs" := VRef (n + 2)]>
       (<["_scal0_rhs" := VRef (n + 1)]>
          (<["_scal0_lhs" := VRef n]>
             (<["_rhsrank" := rhsrank]> (base_attrs be cfg e attrs))))).

(** The normal assemblers, over the getter they call. *)
Definition assemble_normals (getter : element -> Z -> Z -> Z -> ndarray)
    (interside : list side) (elemap : list (string * element))
    : result (list ndarray) :=
  arrs ← list_comp (fun s =>
      ele ← dict_get elemap (s_type s);
      Ok (getter ele (s_eidx s) (s_face s) (s_rtag s)))
    interside;
  a ← np_concatenate arrs;
  Ok (newaxis a).

(** What a normal getter returns for a side, when its type is known. *)
Definition normal_of (getter : element -> Z -> Z -> Z -> ndarray)
    (elemap : list (string * element)) (s : side) : option ndarray :=
  match dict_get elemap (s_type s) with
  | Ok e => Some (getter e (s_eidx s) (s_face s) (s_rtag s))
  | Raise _ => None
  end.

(** The fragment a side contributes to the normal-magnitude array and to
    the unit-normal array. *)
Definition mag_frag (elemap : list (string * element)) (s : side)
    : option ndarray :=
  normal_of get_mag_pnorms_for_inter elemap s.

Definition norm_frag (elemap : list (string * element)) (s : side)
    : option ndarray :=
  normal_of get_norm_pnorms_for_inter elemap s.

(** The value bound to [name] in the dictionary of the instance at
    [self]. *)
Definition attr_val (h : list obj) (self : loc) (name : string)
    : option value :=
  match h !! self with
  | Some (OInstance _ attrs) => attrs !! name
  | _ => None
  end.

(** The object that attribute [name] of the instance at [self] refers
    to. *)
Definition attr_obj (h : list obj) (self : loc) (name : string)
    : option obj :=
  match attr_val h self name with
  | Some (VRef l) => h !! l
  | _ => None
  end.

(** The names bound in the dictionary of the instance at [self]. *)
Definition attr_names (h : list obj) (self : loc) : gset string :=
  match h !! self with
  | Some (OInstance _ attrs) => dom attrs
  | _ => ∅
  end.

(** The arrays of the constant matrices among some objects, in order of
    allocation. *)
Definition const_matrices (objs : list obj) : list (list ndarray) :=
  omap (fun o => match o with
                 | OConstMatrix data _ => Some data
                 | _ => None
                 end) objs.

(** Side lists every assembler accepts: not empty, over element types of
    the map, each view getter returning three fragments, and fragments
    whose trailing shapes agree from side to side. *)
Definition assemblable (elemap : list (string * element)) (mat : string)
    (sides : list side) : Prop :=
  sides ≠ [] /\
  Forall (fun s => s_type s ∈ elemap.*1) sides /\
  Forall (fun s => length (side_frags elemap mat s) = 3) sides /\
  (forall k, k < 3 ->
     same_tails (fun s => side_frags elemap mat s !! k) sides) /\
  same_tails (normal_of get_mag_pnorms_for_inter elemap) sides /\
  same_tails (normal_of get_norm_pnorms_for_inter elemap) sides.

(** The element map among the arguments of a constructor call. *)
Definition args_elemap (a : ctor_args) : list (string * element) :=
  match a with
  | ArgsBase _ elemap _ => elemap
  | ArgsInternal _ _ _ elemap _ => elemap
  | ArgsMPI _ _ _ elemap _ => elemap
  end.

(** Instances, as opposed to what the backend allocates. *)
Definition is_instance (o : obj) : Prop :=
  match o with
  | OInstance _ _ => True
  | _ => False
  end.

(** Kernel descriptors among the objects of the store. *)
Definition is_kernel (o : obj) : Prop :=
  match o with
  | OKernel _ _ => True
  | _ => False
  end.


(** Computations that only read the store, and read the same once kernel
    descriptors have been added to it. *)
Definition reads {A} (m : M A) : Prop :=
  forall h, exists r,
    m h = (r, h) /\
    forall ext, Forall is_kernel ext -> m (h ++ ext) = (r, h ++ ext).




(** Computations that leave attribute [name] of the object at [self] as
    it was. *)
Definition keeps (self : loc) (name : string) {A} (m : M A) : Prop :=
  forall h, attr_val (m h).2 self name = attr_val h self name.

(** ** Sample inputs *)

(** A view fragment of [n] points, each a pair of integers. *)
Definition sample_frag (n : nat) (a b : Z) : ndarray :=
  NDArray [2] (Ints (replicate n [a; b])).

(** A normal fragment of [n] points. *)
Definition sample_normal (n : nat) (x : float) : ndarray :=
  NDArray [] (Floats (replicate n [x])).

(** An element type with two points on every face and both view
    getters. *)
Definition sample_quad : element :=
  {| ndims := 2;
     nvars := 4;
     view_getters := fun name =>
       if decide (name = "get_scal_fpts0_for_inter") then
         Some (fun e f r => [sample_frag 2 e f; sample_frag 2 f r;
                             sample_frag 2 r e])
       else if decide (name = "get_scal_fpts1_for_inter") then
         Some (fun e f r => [sample_frag 2 e e; sample_frag 2 f f;
                             sample_frag 2 r r])
       else None;
     get_mag_pnorms_for_inter := fun _ _ _ => sample_normal 2 1;
     get_norm_pnorms_for_inter := fun _ _ _ => sample_normal 2 0.5 |}.

(** An element type without view getters. *)
Definition sample_tri : element :=
  {| ndims := 2;
     nvars := 4;
     view_getters := fun _ => None;
     get_mag_pnorms_for_inter := fun _ _ _ => sample_normal 2 1;
     get_norm_pnorms_for_inter := fun _ _ _ => sample_normal 2 0.5 |}.

Definition sample_elemap : list (string * element) :=
  [("quad", sample_quad)].

(** An element type whose faces differ in their number of points: face
    [f] has [f] of them. *)
Definition sample_prism : element :=
  {| ndims := 3;
     nvars := 5;
     view_getters := fun name =>
       if decide (name = "get_scal_fpts0_for_inter") then
         Some (fun e f r => [sample_frag (Z.to_nat f) e f;
                             sample_frag (Z.to_nat f) f r;
                             sample_frag (Z.to_nat f) r e])
       else None;
     get_mag_pnorms_for_inter := fun _ f _ => sample_normal (Z.to_nat f) 1;
     get_norm_pnorms_for_inter := fun _ f _ =>
       sample_normal (Z.to_nat f) 0.5 |}.

Definition sample_prism_elemap : list (string * element) :=
  [("prism", sample_prism)].

Definition sample_lhs : list side :=
  [Side "quad" 0 1 0; Side "quad" 1 3 0].

Definition sample_rhs : list side :=
  [Side "quad" 1 1 0; Side "quad" 2 3 0].

(** A parser that knows one text. *)
Definition sample_float (s : string) : result float :=
  if decide (s = "1.5") then Ok 1.5%float else Raise ValueError.

(** A configuration with one section, [constants], and one option,
    [gamma]; its [getfloat] parses what its [get] returns. *)
Definition sample_get (text section option : string) : result string :=
  if decide (section = "constants") then
    if decide (option = "gamma") then Ok text else Raise NoOptionError
  else Raise NoSectionError.

Definition sample_getfloat (parse : string -> result float)
    (text section option : string) : result float :=
  s ← sample_get text section option;
  parse s.

Definition sample_cfg (parse : string -> result float) (text : string)
    : obj :=
  OConfig (sample_get text) (sample_getfloat parse text).

(** A store with a backend at 0, a configuration at 1 and four instances
    not yet initialised at 2 to 5. *)
Definition sample_store : list obj :=
  [OBackend;
   sample_cfg sample_float "1.5";
   OInstance EulerInternalInterfaces ∅;
   OInstance EulerMPIInterfaces ∅;
   OInstance NavierStokesInternalInterfaces ∅;
   OInstance NavierStokesMPIInterfaces ∅].

(** The sample store after the internal constructor on the instance at
    2. *)
Definition sample_internal : list obj :=
  (BaseInternalInterfaces_init 2 (VRef 0) sample_lhs sample_rhs sample_elemap
     (VRef 1) sample_store).2.

(** The same after the distributed constructor on the instance at 3, for
    rank 7. *)
Definition sample_mpi : list obj :=
  (BaseMPIInterfaces_init 3 (VRef 0) sample_lhs (VInt 7) sample_elemap
     (VRef 1) sample_internal).2.

(** A second distributed set, on the instance at 5, for rank 8. *)
Definition sample_mpi_second : list obj :=
  (BaseMPIInterfaces_init 5 (VRef 0) sample_rhs (VInt 8) sample_elemap
     (VRef 1) (sample_mpi ++ [])).2.

(** The sample store after the Navier-Stokes internal constructor on the
    instance at 4. *)
Definition sample_ns : list obj :=
  (NavierStokesInternalInterfaces_init 4 (VRef 0) sample_lhs sample_rhs
     sample_elemap (VRef 1) sample_store).2.

(** The attributes of the instance at [self]. *)
Definition attrs_of (h : list obj) (self : loc) : gmap string value :=
  match h !! self with
  | Some (OInstance _ attrs) => attrs
  | _ => ∅
  end.

(** ** Further vocabulary *)

(** The four getters of the exchange protocol. *)
Definition exchange_getters : list method :=
  [get_scal_fpts0_pack_kern; get_scal_fpts0_send_pack_kern;
   get_scal_fpts0_recv_pack_kern; get_scal_fpts0_unpack_kern].

(** Attributes after [NavierStokesInternalInterfaces.__init__], the seven
    backend objects being allocated from location [n] on. *)
Definition ns_internal_attrs (be cfg : value) (e : element) (n : nat)
    (attrs : gmap string value) : gmap string value :=
  <["_scal1_rhs" := VRef (n + 6)]>
    (<["_scal1_lhs" := VRef (n + 5)]> (internal_attrs be cfg e n attrs)).

(** Attributes after [NavierStokesMPIInterfaces.__init__], the five
    backend objects being allocated from location [n] on. *)
Definition ns_mpi_attrs (be cfg rhsrank : value) (e : element) (n : nat)
    (attrs : gmap string value) : gmap string value :=
  <["_scal1_lhs" := VRef (n + 4)]> (mpi_attrs be cfg rhsrank e n attrs).

(** The receive buffers among some objects. *)
Definition receive_buffers (objs : list obj) : list (nat * nat) :=
  omap (fun o => match o with
                 | OMPIMatrix nrow ncol _ => Some (nrow, ncol)
                 | _ => None
                 end) objs.

(** The array [np.concatenate] makes of two arrays whose trailing shapes
    agree. *)
Definition nd_append (a b : ndarray) : ndarray :=
  NDArray (nd_tail a) (join_entries [a; b]).

(** The kernel [get_rsolve_kern] of an Euler class names, and the
    attributes it passes as operands before the constant. *)
Definition rsolve_name (c : cls) : string :=
  match c with
  | EulerInternalInterfaces => "rsolve_rus_inv_int"
  | EulerMPIInterfaces => "rsolve_rus_inv_mpi"
  | _ => EmptyString
  end.

Definition rsolve_operands (c : cls) : list string :=
  match c with
  | EulerInternalInterfaces =>
      ["ndims"; "nvars"; "_scal0_lhs"; "_scal0_rhs"; "_mag_pnorm_lhs";
       "_mag_pnorm_rhs"; "_norm_pnorm_lhs"]
  | EulerMPIInterfaces =>
      ["ndims"; "nvars"; "_scal0_lhs"; "_scal0_rhs"; "_mag_pnorm_lhs";
       "_norm_pnorm_lhs"]
  | _ => []
  end.

(** The classes of the module that define [get_rsolve_kern]. *)
Definition is_euler (c : cls) : Prop :=
  c = EulerInternalInterfaces \/ c = EulerMPIInterfaces.

(** How [get_rsolve_kern] of an Euler class reads [gamma] from a
    configuration object: the internal one calls [getfloat], the
    distributed one applies [float] to what [get] returns. *)
Definition gamma_route (py_float : string -> result float) (c : cls)
    (get : string -> string -> result string)
    (getfloat : string -> string -> result float) : result float :=
  match c with
  | EulerInternalInterfaces => getfloat "constants" "gamma"
  | _ => s ← get "constants" "gamma"; py_float s
  end.

(** The assembler calls of [BaseInternalInterfaces.__init__] and of
    [BaseMPIInterfaces.__init__], in the order of the source, without the
    backend. *)
Definition internal_steps (lhs rhs : list side)
    (elemap : list (string * element)) : result unit :=
  next_viewvalues elemap;;
  get_view_mats lhs "get_scal_fpts0_for_inter" elemap;;
  get_view_mats rhs "get_scal_fpts0_for_inter" elemap;;
  get_mag_pnorm_mat lhs elemap;;
  get_mag_pnorm_mat rhs elemap;;
  get_norm_pnorm_mat lhs elemap;;
  Ok ().

Definition mpi_steps (lhs : list side) (elemap : list (string * element))
    : result unit :=
  next_viewvalues elemap;;
  get_view_mats lhs "get_scal_fpts0_for_inter" elemap;;
  get_mag_pnorm_mat lhs elemap;;
  get_norm_pnorm_mat lhs elemap;;
  Ok ().

(** ** Further sample inputs *)

(** An element type with the primary view getter only. *)
Definition sample_inviscid : element :=
  {| ndims := 2;
     nvars := 4;
     view_getters := fun name =>
       if decide (name = "get_scal_fpts0_for_inter") then
         Some (fun e f r => [sample_frag 2 e f; sample_frag 2 f r;
                             sample_frag 2 r e])
       else None;
     get_mag_pnorms_for_inter := fun _ _ _ => sample_normal 2 1;
     get_norm_pnorms_for_inter := fun _ _ _ => sample_normal 2 0.5 |}.

Definition sample_inviscid_elemap : list (string * element) :=
  [("quad", sample_inviscid)].

(** The sample store after the base internal constructor on the instance
    at 4, over the element map without auxiliary getter. *)
Definition sample_inviscid_base : list obj :=
  (BaseInternalInterfaces_init 4 (VRef 0) sample_lhs sample_rhs
     sample_inviscid_elemap (VRef 1) sample_store).2.

(** The sample store after the Navier-Stokes distributed constructor on
    the instance at 5, for rank 7. *)
Definition sample_ns_mpi : list obj :=
  (NavierStokesMPIInterfaces_init 5 (VRef 0) sample_lhs (VInt 7)
     sample_elemap (VRef 1) sample_store).2.

(** The sample store after calling each Euler class. *)
Definition sample_euler_internal : list obj :=
  (instantiate EulerInternalInterfaces
     (ArgsInternal (VRef 0) sample_lhs sample_rhs sample_elemap (VRef 1))
     sample_store).2.

Definition sample_euler_mpi : list obj :=
  (instantiate EulerMPIInterfaces
     (ArgsMPI (VRef 0) sample_lhs (VInt 7) sample_elemap (VRef 1))
     sample_store).2.

(** A store whose configuration holds a text that does not parse. *)
Definition sample_unparsed : list obj :=
  [OBackend;
   sample_cfg sample_float "abc";
   OInstance EulerInternalInterfaces {[ "_cfg" := VRef 1 ]}].

(** A parser that knows two texts. *)
Definition sample_float2 (s : string) : result float :=
  if decide (s = "1.5") then Ok 1.5%float
  else if decide (s = "1.25") then Ok 1.25%float
  else Raise ValueError.

(** * Properties *)

(** ** Lists, dicts and arrays *)

Lemma list_comp_ok {A B} (f : A -> result B) (g : A -> B) (xs : list A) :
  (forall x, x ∈ xs -> f x = Ok (g x)) ->
  list_comp f xs = Ok (map g xs).
Proof.
  induction xs as [|x xs IH]; intros Hf; simpl; [done|].
  rewrite Hf by left. rewrite IH; [done|].
  intros y Hy. apply Hf. by right.
Qed.

Lemma list_comp_inv {A B} (f : A -> result B) (xs : list A) (ys : list B) :
  list_comp f xs = Ok ys ->
  Forall2 (fun x y => f x = Ok y) xs ys.
Proof.
  revert ys. induction xs as [|x xs IH]; intros ys; simpl.
  - intros [= <-]. constructor.
  - destruct (f x) as [b|] eqn:Hb; [|done].
    destruct (list_comp f xs) as [bs|] eqn:Hbs; [|done].
    intros [= <-]. constructor; [done|]. by apply IH.
Qed.

Lemma dict_get_ok_elem {V} (d : list (string * V)) (k : string) (v : V) :
  dict_get d k = Ok v -> (k, v) ∈ d.
Proof.
  induction d as [|[k' v'] d IH]; simpl; [done|].
  case_decide as Hk.
  - intros [= <-]. subst. left.
  - intros H. right. by apply IH.
Qed.

Lemma dict_get_is_ok {V} (d : list (string * V)) (k : string) :
  k ∈ d.*1 -> exists v, dict_get d k = Ok v.
Proof.
  induction d as [|[k' v'] d IH]; simpl.
  - intros H. by apply elem_of_nil in H.
  - intros H. case_decide as Hk; [by eexists|].
    apply elem_of_cons in H as [->|H]; [done|]. by apply IH.
Qed.

Lemma dict_get_raise {V} (d : list (string * V)) (k : string) :
  k ∉ d.*1 -> dict_get d k = Raise KeyError.
Proof.
  induction d as [|[k' v'] d IH]; simpl; [done|].
  intros H. apply not_elem_of_cons in H as [Hk H].
  case_decide; [congruence|]. by apply IH.
Qed.

Lemma dict_get_set_eq {V} (d : list (string * V)) (k : string) (v : V) :
  dict_get (dict_set k v d) k = Ok v.
Proof.
  induction d as [|[k' v'] d IH]; simpl.
  - by case_decide.
  - case_decide as Hk; simpl; by case_decide.
Qed.

Lemma dict_get_set_ne {V} (d : list (string * V)) (k k' : string) (v : V) :
  k ≠ k' -> dict_get (dict_set k v d) k' = dict_get d k'.
Proof.
  intros Hne. induction d as [|[k0 v0] d IH]; simpl.
  - by case_decide.
  - case_decide as Hk; simpl.
    + subst. by repeat case_decide.
    + case_decide; [done|]. apply IH.
Qed.

(** The strided slices of a list of triples are its three columns. *)
Lemma slice_step_triples {A} (fs : list (list A)) (i : nat) :
  Forall (fun f => length f = 3) fs -> i < 3 ->
  slice_step i 3 (concat fs) = omap (fun f => f !! i) fs.
Proof.
  unfold slice_step. intros Hfs Hi. induction Hfs as [|f fs Hf _ IH]; [done|].
  destruct f as [|a [|b [|c [|]]]]; try done. simpl in *.
  destruct i as [|[|[|]]]; simpl; try lia; by rewrite IH.
Qed.

(** Promotion, on the rows of an array. *)
Lemma promoted_to_float (a : ndarray) :
  promoted Float64 a = map (map SFloat) (float_rows a).
Proof.
  unfold promoted, nd_items, float_rows.
  destruct (nd_entries a) as [rows|rows]; rewrite !map_map;
    apply map_ext; intros row; rewrite ?map_map; by apply map_ext.
Qed.

Lemma promoted_to_own (a : ndarray) : promoted (nd_dtype a) a = nd_items a.
Proof.
  unfold promoted, nd_dtype, nd_items.
  destruct (nd_entries a) as [rows|rows]; rewrite !map_map;
    apply map_ext; intros row; rewrite ?map_map; by apply map_ext.
Qed.

Lemma promoted_length dt (a : ndarray) : length (promoted dt a) = nd_len a.
Proof. unfold promoted, nd_len. by rewrite length_map. Qed.

Lemma int_rows_dtype (a : ndarray) :
  is_Some (int_rows a) <-> nd_dtype a = Int64.
Proof.
  unfold int_rows, nd_dtype. destruct (nd_entries a); split; try done.
Qed.

Lemma int_rows_items (a : ndarray) rows :
  int_rows a = Some rows -> nd_items a = map (map SInt) rows.
Proof.
  unfold int_rows, nd_items. destruct (nd_entries a); [|done].
  by intros [= ->].
Qed.

Lemma concat_map_map {A B} (f : A -> B) (ls : list (list A)) :
  map f (concat ls) = concat (map (map f) ls).
Proof.
  induction ls as [|l ls IH]; [done|]. simpl. by rewrite map_app, IH.
Qed.

(** The joined entries have the common dtype, and hold the entries of the
    arrays, promoted to it, in order. *)
Lemma join_entries_spec (t : list nat) (arrs : list ndarray) :
  nd_dtype (NDArray t (join_entries arrs)) = common_dtype arrs /\
  nd_items (NDArray t (join_entries arrs))
  = concat (map (promoted (common_dtype arrs)) arrs).
Proof.
  unfold join_entries, common_dtype, nd_dtype at 1, nd_items at 1. simpl.
  destruct (mapM int_rows arrs) as [rows|] eqn:Hm.
  - apply mapM_Some in Hm.
    rewrite bool_decide_eq_true_2.
    2:{ apply Forall_forall. intros a Ha.
        apply list_elem_of_lookup in Ha as [i Hi].
        destruct (Forall2_lookup_l _ _ _ _ _ Hm Hi) as (r & _ & Hr).
        apply int_rows_dtype. by eexists. }
    split; [done|].
    induction Hm as [|a r arrs rows Har _ IH]; [done|]. simpl.
    rewrite map_app, IH. f_equal.
    rewrite <- (int_rows_items _ _ Har).
    assert (nd_dtype a = Int64) as <- by (apply int_rows_dtype; by eexists).
    by rewrite promoted_to_own.
  - rewrite bool_decide_eq_false_2.
    2:{ intros Hall.
        assert (is_Some (mapM int_rows arrs)) as [? ?]; [|congruence].
        apply mapM_is_Some. eapply Forall_impl; [exact Hall|].
        intros a Ha. by apply int_rows_dtype. }
    split; [done|].
    rewrite concat_map_map, map_map. f_equal. apply map_ext.
    intros a. by rewrite promoted_to_float.
Qed.

Lemma np_concatenate_ok (arrs : list ndarray) (a : ndarray) :
  np_concatenate arrs = Ok a ->
  arrs ≠ [] /\
  nd_dtype a = common_dtype arrs /\
  nd_items a = concat (map (promoted (nd_dtype a)) arrs).
Proof.
  destruct arrs as [|b rest]; simpl; [done|].
  case_bool_decide; [|done]. intros [= <-].
  destruct (join_entries_spec (nd_tail b) (b :: rest)) as [Hd Hi].
  split; [done|]. split; [done|]. by rewrite Hd.
Qed.

(** An integer fragment joined with a float fragment is converted:
    [2**53 + 1] is not a double and becomes [2**53]. *)
Example np_concatenate_promotes :
  np_concatenate [NDArray [] (Ints [[9007199254740993%Z]]);
                  NDArray [] (Floats [[0.5%float]])]
  = Ok (NDArray [] (Floats [[9007199254740992%float]; [0.5%float]])).
Proof. vm_compute. reflexivity. Qed.

Lemma np_concatenate_is_ok (arrs : list ndarray) :
  arrs ≠ [] ->
  (forall a a', a ∈ arrs -> a' ∈ arrs -> nd_tail a = nd_tail a') ->
  is_ok (np_concatenate arrs) = true.
Proof.
  destruct arrs as [|b rest]; [done|]. intros _ Ht. simpl.
  rewrite bool_decide_eq_true_2; [done|].
  apply Forall_forall. intros x Hx. apply Ht; [by right|by left].
Qed.

(** Where the points of the [j]-th side sit in a concatenation. *)
Lemma concat_map_fragment {A B} (f : A -> list B) (l : list A) (j : nat)
    (x : A) :
  l !! j = Some x ->
  take (length (f x))
       (drop (sum_list (map (fun y => length (f y)) (take j l)))
             (concat (map f l))) = f x.
Proof.
  revert j. induction l as [|y l IH]; intros j Hj; [done|].
  destruct j as [|j]; simpl in *.
  - injection Hj as ->. by rewrite drop_0, take_app_length.
  - rewrite drop_app_add'; [|done]. by apply IH.
Qed.

Lemma length_concat_map {A B} (f : A -> list B) (l : list A) :
  length (concat (map f l)) = sum_list (map (fun y => length (f y)) l).
Proof.
  induction l as [|y l IH]; simpl; [done|].
  by rewrite length_app, IH.
Qed.

(** ** The assemblers *)

Lemma viewmatmap_from_raise mat items acc e :
  viewmatmap_from mat items acc = Raise e ->
  e = AttributeError /\ Exists (fun te => view_getters te.2 mat = None) items.
Proof.
  revert acc. induction items as [|[t ele] items IH]; intros acc; simpl; [done|].
  unfold getattr_ele. destruct (view_getters ele mat) as [g|] eqn:Hg.
  - intros H. destruct (IH _ H) as [-> Hex]. split; [done|]. by right.
  - intros [= <-]. split; [done|]. by left.
Qed.

Lemma viewmatmap_from_exists_none mat items acc :
  Exists (fun te => view_getters te.2 mat = None) items ->
  viewmatmap_from mat items acc = Raise AttributeError.
Proof.
  intros Hex. revert acc.
  induction Hex as [[t ele] items Hn|[t ele] items _ IH]; intros acc; simpl in *.
  - unfold getattr_ele. by rewrite Hn.
  - unfold getattr_ele. destruct (view_getters ele mat); [apply IH|done].
Qed.

Lemma viewmatmap_from_lookup mat items acc vmm :
  NoDup items.*1 ->
  viewmatmap_from mat items acc = Ok vmm ->
  forall t, dict_get vmm t =
            match dict_get items t with
            | Ok e => getattr_ele e mat
            | Raise _ => dict_get acc t
            end.
Proof.
  revert acc. induction items as [|[k ele] items IH]; intros acc Hnd; simpl.
  - by intros [= <-].
  - apply NoDup_cons in Hnd as [Hk Hnd].
    destruct (getattr_ele ele mat) as [g|] eqn:Hg; [|done].
    intros Hv t. rewrite (IH _ Hnd Hv t). case_decide as Hkt.
    + subst t. rewrite (dict_get_raise items k Hk).
      by rewrite dict_get_set_eq.
    + destruct (dict_get items t); [done|]. by apply dict_get_set_ne.
Qed.

Lemma viewmatmap_from_is_ok mat items acc :
  Forall (fun te => is_Some (view_getters te.2 mat)) items ->
  exists vmm, viewmatmap_from mat items acc = Ok vmm.
Proof.
  intros Hall. destruct (viewmatmap_from mat items acc) as [vmm|e] eqn:Hv;
    [by eexists|].
  apply viewmatmap_from_raise in Hv as [_ Hex].
  apply Exists_exists in Hex as (te & Hin & Hn).
  rewrite Forall_forall in Hall. specialize (Hall te Hin).
  rewrite Hn in Hall. by destruct Hall.
Qed.

(** The loop appends the fragments of each side, in order. *)
Lemma scal_loop_eq vmm interside scal :
  scal_loop vmm interside scal =
  (fs ← list_comp (fun s => g ← dict_get vmm (s_type s);
                            Ok (g (s_eidx s) (s_face s) (s_rtag s)))
                  interside;
   Ok (scal ++ concat fs)).
Proof.
  revert scal. induction interside as [|s interside IH]; intros scal; simpl.
  - by rewrite app_nil_r.
  - destruct (dict_get vmm (s_type s)) as [g|e]; simpl; [|done].
    rewrite IH.
    destruct (list_comp _ interside) as [fs|e]; simpl; [|done].
    by rewrite <- app_assoc.
Qed.

Lemma scal_loop_raise vmm interside scal e :
  scal_loop vmm interside scal = Raise e -> e = KeyError.
Proof.
  revert scal. induction interside as [|s interside IH]; intros scal; simpl;
    [done|].
  destruct (dict_get vmm (s_type s)) as [g|e'] eqn:Hg; [by apply IH|].
  intros [= <-]. clear -Hg. induction vmm as [|[k v] vmm IHv]; simpl in Hg.
  - by injection Hg.
  - case_decide; [done|]. by apply IHv.
Qed.

Lemma np_concatenate_raise arrs e :
  np_concatenate arrs = Raise e -> e = ValueError.
Proof.
  destruct arrs as [|a rest]; simpl; [by intros [= <-]|].
  case_bool_decide; [done|]. by intros [= <-].
Qed.

Lemma concat_comp_raise (scal : list ndarray) (idxs : list nat) e :
  list_comp (fun i => a ← np_concatenate (slice_step i 3 scal);
                      Ok (newaxis a)) idxs = Raise e ->
  e = ValueError.
Proof.
  induction idxs as [|i idxs IH]; simpl; [done|].
  destruct (np_concatenate (slice_step i 3 scal)) as [a|e'] eqn:Ha; simpl.
  - destruct (list_comp _ idxs); [done|]. intros [= <-]. by apply IH.
  - intros [= <-]. by apply np_concatenate_raise in Ha.
Qed.

(** With unique keys, the getter map answers like the element map. *)
Lemma side_frags_comp mat elemap vmm interside :
  NoDup elemap.*1 ->
  viewmatmap_from mat elemap [] = Ok vmm ->
  Forall (fun s => s_type s ∈ elemap.*1) interside ->
  list_comp (fun s => g ← dict_get vmm (s_type s);
                      Ok (g (s_eidx s) (s_face s) (s_rtag s))) interside
  = Ok (map (side_frags elemap mat) interside).
Proof.
  intros Hnd Hv Hin. apply list_comp_ok. intros s Hs.
  rewrite Forall_forall in Hin. specialize (Hin s Hs).
  rewrite (viewmatmap_from_lookup _ _ _ _ Hnd Hv). unfold side_frags.
  destruct (dict_get_is_ok _ _ Hin) as [ele Hele]. rewrite Hele.
  unfold getattr_ele.
  destruct (view_getters ele mat) as [g|] eqn:Hg; [done|].
  apply dict_get_ok_elem in Hele.
  exfalso.
  assert (Exists (fun te => view_getters te.2 mat = None) elemap) as Hex.
  { apply Exists_exists. by exists (s_type s, ele). }
  apply (viewmatmap_from_exists_none mat elemap []) in Hex. congruence.
Qed.

Lemma side_frags_comp_inv mat elemap vmm interside fs :
  NoDup elemap.*1 ->
  viewmatmap_from mat elemap [] = Ok vmm ->
  list_comp (fun s => g ← dict_get vmm (s_type s);
                      Ok (g (s_eidx s) (s_face s) (s_rtag s))) interside
  = Ok fs ->
  fs = map (side_frags elemap mat) interside /\
  Forall (fun s => s_type s ∈ elemap.*1) interside.
Proof.
  intros Hnd Hv Hc. apply list_comp_inv in Hc.
  induction Hc as [|s f interside fs Hs _ [IH1 IH2]]; [done|].
  rewrite (viewmatmap_from_lookup _ _ _ _ Hnd Hv) in Hs.
  destruct (dict_get elemap (s_type s)) as [ele|] eqn:Hele; [|done].
  unfold getattr_ele in Hs.
  destruct (view_getters ele mat) as [g|] eqn:Hg; [|done].
  simpl in Hs. injection Hs as <-. split.
  - simpl. f_equal; [|done]. unfold side_frags. by rewrite Hele, Hg.
  - constructor; [|done]. apply dict_get_ok_elem in Hele.
    apply list_elem_of_fmap. by exists (s_type s, ele).
Qed.

(** The [k]-th column of the fragments of a side list. *)
Lemma column_frags (elemap : list (string * element)) mat k interside :
  omap (fun f : list ndarray => f !! k)
       (map (side_frags elemap mat) interside)
  = omap (view_frag elemap mat k) interside.
Proof.
  induction interside as [|s interside IH]; [done|].
  simpl. unfold view_frag at 1.
  destruct (side_frags elemap mat s !! k); simpl; by f_equal.
Qed.

(** The arrays that are concatenated, when every side has a fragment. *)
Lemma concat_promoted dt (frag : side -> option ndarray) sides :
  Forall (fun s => is_Some (frag s)) sides ->
  concat (map (promoted dt) (omap frag sides))
  = concat (map (fun s => from_option (promoted dt) [] (frag s)) sides).
Proof.
  induction 1 as [|s sides [a Ha] _ IH]; [done|].
  simpl. rewrite Ha. simpl. f_equal. exact IH.
Qed.

Lemma np_concatenate_laid_out (frag : side -> option ndarray) sides a :
  Forall (fun s => is_Some (frag s)) sides ->
  np_concatenate (omap frag sides) = Ok a ->
  laid_out frag sides [a].
Proof.
  intros Hall Ha. apply np_concatenate_ok in Ha as (_ & Hd & Hi).
  exists a. split; [done|]. split; [done|].
  by rewrite Hi, concat_promoted.
Qed.

(** What a successful view assembly returns: three operands, the [k]-th
    one made of the [k]-th fragment of every side, in order. *)
Lemma get_view_mats_inv interside mat elemap mats :
  NoDup elemap.*1 ->
  Forall (fun s => length (side_frags elemap mat s) = 3) interside ->
  get_view_mats interside mat elemap = Ok mats ->
  exists m0 m1 m2, mats = [m0; m1; m2] /\
    laid_out (view_frag elemap mat 0) interside m0 /\
    laid_out (view_frag elemap mat 1) interside m1 /\
    laid_out (view_frag elemap mat 2) interside m2.
Proof.
  intros Hnd H3. unfold get_view_mats.
  destruct (viewmatmap_from mat elemap []) as [vmm|] eqn:Hv; simpl; [|done].
  rewrite scal_loop_eq.
  destruct (list_comp _ interside) as [fs|] eqn:Hfs; simpl; [|done].
  destruct (side_frags_comp_inv _ _ _ _ _ Hnd Hv Hfs) as [-> _].
  rewrite !slice_step_triples by (by apply Forall_fmap || lia).
  rewrite !column_frags.
  destruct (np_concatenate (omap (view_frag elemap mat 0) interside))
    as [a0|] eqn:H0; simpl; [|done].
  destruct (np_concatenate (omap (view_frag elemap mat 1) interside))
    as [a1|] eqn:H1; simpl; [|done].
  destruct (np_concatenate (omap (view_frag elemap mat 2) interside))
    as [a2|] eqn:H2; simpl; [|done].
  intros [= <-]. exists [a0], [a1], [a2]. split; [done|].
  assert (forall k, k < 3 ->
            Forall (fun s => is_Some (view_frag elemap mat k s)) interside)
    as Hsome.
  { intros k Hk. eapply Forall_impl; [exact H3|]. simpl. intros s Hs.
    apply lookup_lt_is_Some_2. lia. }
  repeat split; apply np_concatenate_laid_out; auto.
Qed.

Lemma get_view_mats_is_ok interside mat elemap :
  NoDup elemap.*1 ->
  Forall (fun te => is_Some (view_getters te.2 mat)) elemap ->
  interside ≠ [] ->
  Forall (fun s => s_type s ∈ elemap.*1) interside ->
  Forall (fun s => length (side_frags elemap mat s) = 3) interside ->
  (forall k, k < 3 ->
     same_tails (fun s => side_frags elemap mat s !! k) interside) ->
  is_ok (get_view_mats interside mat elemap) = true.
Proof.
  intros Hnd Hget Hne Hin H3 Ht. unfold get_view_mats.
  destruct (viewmatmap_from_is_ok mat elemap [] Hget) as [vmm Hv].
  rewrite Hv. simpl. rewrite scal_loop_eq.
  rewrite (side_frags_comp _ _ _ _ Hnd Hv Hin). simpl.
  rewrite !slice_step_triples by (by apply Forall_fmap || lia).
  assert (forall k, k < 3 ->
    is_ok (np_concatenate (omap (fun f : list ndarray => f !! k)
             (map (side_frags elemap mat) interside))) = true) as Hok.
  { intros k Hk. apply np_concatenate_is_ok.
    - destruct interside as [|s rest]; [done|]. simpl.
      apply Forall_cons in H3 as [Hs _].
      destruct (lookup_lt_is_Some_2 (side_frags elemap mat s) k) as [a ->];
        [lia|done].
    - intros a a' Ha Ha'.
      apply list_elem_of_omap in Ha as (f & Hf & Ha).
      apply list_elem_of_omap in Ha' as (f' & Hf' & Ha').
      apply list_elem_of_fmap in Hf as (s & -> & Hs).
      apply list_elem_of_fmap in Hf' as (s' & -> & Hs').
      by apply (Ht k Hk s s'). }
  pose proof (Hok 0 ltac:(lia)) as H0.
  pose proof (Hok 1 ltac:(lia)) as H1.
  pose proof (Hok 2 ltac:(lia)) as H2.
  destruct (np_concatenate (omap (fun f : list ndarray => f !! 0) _));
    [|done]. simpl.
  destruct (np_concatenate (omap (fun f : list ndarray => f !! 1) _));
    [|done]. simpl.
  destruct (np_concatenate (omap (fun f : list ndarray => f !! 2) _));
    [|done]. done.
Qed.

(** The two normal assemblers differ only in the getter they call. *)
Lemma get_mag_pnorm_mat_eq interside elemap :
  get_mag_pnorm_mat interside elemap
  = assemble_normals get_mag_pnorms_for_inter interside elemap.
Proof. reflexivity. Qed.

Lemma get_norm_pnorm_mat_eq interside elemap :
  get_norm_pnorm_mat interside elemap
  = assemble_normals get_norm_pnorms_for_inter interside elemap.
Proof. reflexivity. Qed.

Lemma assemble_normals_inv getter interside elemap m :
  assemble_normals getter interside elemap = Ok m ->
  laid_out (normal_of getter elemap) interside m /\ interside ≠ [] /\
  Forall (fun s => s_type s ∈ elemap.*1) interside.
Proof.
  unfold assemble_normals.
  destruct (list_comp _ interside) as [arrs|] eqn:Hc; simpl; [|done].
  destruct (np_concatenate arrs) as [a|] eqn:Ha; simpl; [|done].
  intros [= <-]. apply list_comp_inv in Hc.
  assert (arrs = omap (normal_of getter elemap) interside
          /\ Forall (fun s => is_Some (normal_of getter elemap s)) interside
          /\ Forall (fun s => s_type s ∈ elemap.*1) interside)
    as (-> & Hsome & Hin).
  { clear Ha. induction Hc as [|s b interside arrs Hs _ (IH1 & IH2 & IH3)];
      [done|].
    destruct (dict_get elemap (s_type s)) as [ele|] eqn:Hele; [|done].
    simpl in Hs. injection Hs as <-.
    assert (normal_of getter elemap s
            = Some (getter ele (s_eidx s) (s_face s) (s_rtag s))) as Hn
      by (unfold normal_of; by rewrite Hele).
    split; [|split].
    - simpl. rewrite Hn. by f_equal.
    - constructor; [by rewrite Hn|done].
    - constructor; [|done]. apply dict_get_ok_elem in Hele.
      apply list_elem_of_fmap. by exists (s_type s, ele). }
  split; [by apply np_concatenate_laid_out|]. split; [|done].
  intros ->. by apply np_concatenate_ok in Ha as [? _].
Qed.


(** ** The store *)

Lemma bind_ok {A B} (m : M A) (f : A -> M B) h a h' :
  m h = (Ok a, h') -> (m ≫= f) h = f a h'.
Proof. unfold mbind, M_bind. by intros ->. Qed.

Lemma bind_raise {A B} (m : M A) (f : A -> M B) h e h' :
  m h = (Raise e, h') -> (m ≫= f) h = (Raise e, h').
Proof. unfold mbind, M_bind. by intros ->. Qed.

Lemma store_start base self c attrs :
  base !! self = Some (OInstance c attrs) ->
  base = store base self c attrs [].
Proof.
  intros H. unfold store. by rewrite app_nil_r, list_insert_id.
Qed.

Lemma store_length base self c attrs news :
  length (store base self c attrs news) = length base + length news.
Proof. unfold store. by rewrite length_app, length_insert. Qed.

Lemma store_lookup_self base self c attrs news :
  self < length base ->
  store base self c attrs news !! self = Some (OInstance c attrs).
Proof.
  intros H. unfold store.
  rewrite lookup_app_l by (by rewrite length_insert).
  by apply list_lookup_insert_eq.
Qed.

Lemma store_lookup_base base self c attrs news l :
  l ≠ self -> l < length base ->
  store base self c attrs news !! l = base !! l.
Proof.
  intros Hne H. unfold store.
  rewrite lookup_app_l by (by rewrite length_insert).
  by apply list_lookup_insert_ne.
Qed.

Lemma store_lookup_new base self c attrs news k :
  store base self c attrs news !! (length base + k) = news !! k.
Proof.
  unfold store. rewrite lookup_app_r by (rewrite length_insert; lia).
  rewrite length_insert. f_equal. lia.
Qed.

Lemma setattr_store base self c attrs news name v :
  self < length base ->
  setattr self name v (store base self c attrs news)
  = (Ok (), store base self c (<[name := v]> attrs) news).
Proof.
  intros H. unfold setattr. rewrite store_lookup_self by done.
  f_equal. unfold store.
  rewrite insert_app_l by (by rewrite length_insert).
  by rewrite list_insert_insert_eq.
Qed.

Lemma getattr_store base self c attrs news name v :
  self < length base -> attrs !! name = Some v ->
  getattr self name (store base self c attrs news)
  = (Ok v, store base self c attrs news).
Proof.
  intros H Hv. unfold getattr. rewrite store_lookup_self by done.
  by rewrite Hv.
Qed.

Lemma alloc_store base self c attrs news o :
  alloc o (store base self c attrs news)
  = (Ok (length base + length news), store base self c attrs (news ++ [o])).
Proof.
  unfold alloc. rewrite store_length. f_equal. unfold store.
  by rewrite app_assoc.
Qed.

Lemma check_backend_store base self c attrs news b :
  b ≠ self -> base !! b = Some OBackend ->
  check_backend (VRef b) (store base self c attrs news)
  = (Ok (), store base self c attrs news).
Proof.
  intros Hne Hb. unfold check_backend.
  rewrite store_lookup_base; [by rewrite Hb|done|by eapply lookup_lt_Some].
Qed.

Lemma be_view_store base self c attrs news b mats vlen tags :
  b ≠ self -> base !! b = Some OBackend ->
  be_view (VRef b) mats vlen tags (store base self c attrs news)
  = (Ok (VRef (length base + length news)),
     store base self c attrs (news ++ [OView false mats vlen tags])).
Proof.
  intros Hne Hb. unfold be_view.
  erewrite bind_ok by (by apply check_backend_store).
  erewrite bind_ok by apply alloc_store. done.
Qed.

Lemma be_mpi_view_store base self c attrs news b mats vlen tags :
  b ≠ self -> base !! b = Some OBackend ->
  be_mpi_view (VRef b) mats vlen tags (store base self c attrs news)
  = (Ok (VRef (length base + length news)),
     store base self c attrs (news ++ [OView true mats vlen tags])).
Proof.
  intros Hne Hb. unfold be_mpi_view.
  erewrite bind_ok by (by apply check_backend_store).
  erewrite bind_ok by apply alloc_store. done.
Qed.

Lemma be_const_matrix_store base self c attrs news b data tags :
  b ≠ self -> base !! b = Some OBackend ->
  be_const_matrix (VRef b) data tags (store base self c attrs news)
  = (Ok (VRef (length base + length news)),
     store base self c attrs (news ++ [OConstMatrix data tags])).
Proof.
  intros Hne Hb. unfold be_const_matrix.
  erewrite bind_ok by (by apply check_backend_store).
  erewrite bind_ok by apply alloc_store. done.
Qed.

Lemma be_mpi_matrix_for_view_store base self c attrs news b k mpi mats vlen
    tags :
  b ≠ self -> base !! b = Some OBackend ->
  news !! k = Some (OView mpi mats vlen tags) ->
  be_mpi_matrix_for_view (VRef b) (VRef (length base + k))
    (store base self c attrs news)
  = (Ok (VRef (length base + length news)),
     store base self c attrs
       (news ++ [OMPIMatrix (view_extents mats).1 (view_extents mats).2
                            vlen])).
Proof.
  intros Hne Hb Hk. unfold be_mpi_matrix_for_view.
  erewrite bind_ok by (by apply check_backend_store).
  erewrite bind_ok; [|unfold read_view; by rewrite store_lookup_new, Hk].
  erewrite bind_ok by apply alloc_store. done.
Qed.

Lemma be_kernel_store base self c attrs news b name args :
  b ≠ self -> base !! b = Some OBackend ->
  be_kernel (VRef b) name args (store base self c attrs news)
  = (Ok (VRef (length base + length news)),
     store base self c attrs (news ++ [OKernel name args])).
Proof.
  intros Hne Hb. unfold be_kernel.
  erewrite bind_ok by (by apply check_backend_store).
  erewrite bind_ok by apply alloc_store. done.
Qed.

Lemma lift_ok {A B} (r : result A) (f : A -> M B) h a :
  r = Ok a -> (lift r ≫= f) h = f a h.
Proof. by intros ->. Qed.

Lemma lift_raise {A B} (r : result A) (f : A -> M B) h e :
  r = Raise e -> (lift r ≫= f) h = (Raise e, h).
Proof. by intros ->. Qed.

Lemma BaseInterfaces_init_run base self c attrs news be elemap cfg :
  self < length base ->
  BaseInterfaces_init self be elemap cfg (store base self c attrs news)
  = match next_viewvalues elemap with
    | Ok e => (Ok (), store base self c (base_attrs be cfg e attrs) news)
    | Raise ex =>
        (Raise ex,
         store base self c (<["_cfg" := cfg]> (<["_be" := be]> attrs)) news)
    end.
Proof.
  intros H. unfold BaseInterfaces_init.
  erewrite bind_ok by (by apply setattr_store).
  erewrite bind_ok by (by apply setattr_store).
  destruct (next_viewvalues elemap) as [e|ex].
  - erewrite lift_ok by done.
    erewrite bind_ok by (by apply setattr_store).
    erewrite lift_ok by done.
    by rewrite setattr_store.
  - by erewrite lift_raise.
Qed.

Lemma lookup_attr_eq (attrs : gmap string value) name v :
  <[name := v]> attrs !! name = Some v.
Proof. apply lookup_insert_eq. Qed.

Ltac solve_attr :=
  unfold internal_attrs, mpi_attrs, base_attrs;
  repeat (rewrite lookup_insert_ne by done);
  first [apply lookup_attr_eq | eassumption].

Ltac run_step :=
  first
    [ erewrite bind_ok by (by apply setattr_store)
    | erewrite bind_ok by (apply getattr_store; [done|solve_attr])
    | erewrite bind_ok by (by apply be_view_store)
    | erewrite bind_ok by (by apply be_mpi_view_store)
    | erewrite bind_ok by (by apply be_const_matrix_store)
    | erewrite lift_ok by (reflexivity || eassumption) ].

Ltac run_end :=
  rewrite ?setattr_store by done;
  rewrite <- ?app_assoc, ?length_app; simpl;
  unfold internal_attrs, mpi_attrs;
  rewrite ?Nat.add_assoc; reflexivity.

(** The outcome of [BaseInternalInterfaces.__init__] when every assembler
    call succeeds. *)
Lemma BaseInternalInterfaces_init_ok base self c attrs news b lhs rhs elemap
    cfg e L R ML MR NL :
  self < length base -> b ≠ self -> base !! b = Some OBackend ->
  next_viewvalues elemap = Ok e ->
  get_view_mats lhs "get_scal_fpts0_for_inter" elemap = Ok L ->
  get_view_mats rhs "get_scal_fpts0_for_inter" elemap = Ok R ->
  get_mag_pnorm_mat lhs elemap = Ok ML ->
  get_mag_pnorm_mat rhs elemap = Ok MR ->
  get_norm_pnorm_mat lhs elemap = Ok NL ->
  BaseInternalInterfaces_init self (VRef b) lhs rhs elemap cfg
    (store base self c attrs news)
  = (Ok (),
     store base self c
       (internal_attrs (VRef b) cfg e (length base + length news) attrs)
       (news ++ [OView false L (VInt (nvars e)) nopad;
                 OView false R (VInt (nvars e)) nopad;
                 OConstMatrix ML nopad;
                 OConstMatrix MR nopad;
                 OConstMatrix NL nopad])).
Proof.
  intros Hs Hb Hbe He HL HR HML HMR HNL. unfold BaseInternalInterfaces_init.
  erewrite bind_ok by (rewrite BaseInterfaces_init_run, He; done).
  repeat run_step. run_end.
Qed.

(** When one of them raises, so does the constructor; the store then
    holds the half-built instance and the views allocated so far. *)
Lemma BaseInternalInterfaces_init_raise base self c attrs news b lhs rhs
    elemap cfg :
  self < length base -> b ≠ self -> base !! b = Some OBackend ->
  is_ok (next_viewvalues elemap)
  && is_ok (get_view_mats lhs "get_scal_fpts0_for_inter" elemap)
  && is_ok (get_view_mats rhs "get_scal_fpts0_for_inter" elemap)
  && is_ok (get_mag_pnorm_mat lhs elemap)
  && is_ok (get_mag_pnorm_mat rhs elemap)
  && is_ok (get_norm_pnorm_mat lhs elemap) = false ->
  exists ex attrs' news',
    BaseInternalInterfaces_init self (VRef b) lhs rhs elemap cfg
      (store base self c attrs news)
    = (Raise ex, store base self c attrs' (news ++ news')).
Proof.
  intros Hs Hb Hbe Hno. unfold BaseInternalInterfaces_init.
  destruct (next_viewvalues elemap) as [e|ex] eqn:He.
  2:{ erewrite bind_raise by (rewrite BaseInterfaces_init_run, He; done).
      eexists _, _, []. by rewrite app_nil_r. }
  erewrite bind_ok by (rewrite BaseInterfaces_init_run, He; done).
  destruct (get_view_mats lhs _ elemap) as [L|ex] eqn:HL.
  2:{ erewrite lift_raise by done. eexists _, _, []. by rewrite app_nil_r. }
  run_step.
  destruct (get_view_mats rhs _ elemap) as [R|ex] eqn:HR.
  2:{ erewrite lift_raise by done. eexists _, _, []. by rewrite app_nil_r. }
  repeat run_step.
  destruct (get_mag_pnorm_mat lhs elemap) as [ML|ex] eqn:HML.
  2:{ erewrite lift_raise by done. eexists _, _, _.
      by rewrite <- !app_assoc. }
  run_step.
  destruct (get_mag_pnorm_mat rhs elemap) as [MR|ex] eqn:HMR.
  2:{ erewrite lift_raise by done. eexists _, _, _.
      by rewrite <- !app_assoc. }
  repeat run_step.
  destruct (get_norm_pnorm_mat lhs elemap) as [NL|ex] eqn:HNL; [done|].
  erewrite lift_raise by done. eexists _, _, _. by rewrite <- !app_assoc.
Qed.

(** The outcome of [BaseMPIInterfaces.__init__] when every assembler call
    succeeds. *)
Lemma BaseMPIInterfaces_init_ok base self c attrs news b lhs rhsrank elemap
    cfg e L ML NL :
  self < length base -> b ≠ self -> base !! b = Some OBackend ->
  next_viewvalues elemap = Ok e ->
  get_view_mats lhs "get_scal_fpts0_for_inter" elemap = Ok L ->
  get_mag_pnorm_mat lhs elemap = Ok ML ->
  get_norm_pnorm_mat lhs elemap = Ok NL ->
  BaseMPIInterfaces_init self (VRef b) lhs rhsrank elemap cfg
    (store base self c attrs news)
  = (Ok (),
     store base self c
       (mpi_attrs (VRef b) cfg rhsrank e (length base + length news) attrs)
       (news ++ [OView true L (VInt (nvars e)) nopad;
                 OMPIMatrix (view_extents L).1 (view_extents L).2
                            (VInt (nvars e));
                 OConstMatrix ML nopad;
                 OConstMatrix NL nopad])).
Proof.
  intros Hs Hb Hbe He HL HML HNL. unfold BaseMPIInterfaces_init.
  erewrite bind_ok by (rewrite BaseInterfaces_init_run, He; done).
  repeat run_step.
  erewrite bind_ok
    by (eapply be_mpi_matrix_for_view_store;
        [done|done|by apply list_lookup_middle]).
  repeat run_step. run_end.
Qed.

Lemma BaseMPIInterfaces_init_raise base self c attrs news b lhs rhsrank
    elemap cfg :
  self < length base -> b ≠ self -> base !! b = Some OBackend ->
  is_ok (next_viewvalues elemap)
  && is_ok (get_view_mats lhs "get_scal_fpts0_for_inter" elemap)
  && is_ok (get_mag_pnorm_mat lhs elemap)
  && is_ok (get_norm_pnorm_mat lhs elemap) = false ->
  exists ex attrs' news',
    BaseMPIInterfaces_init self (VRef b) lhs rhsrank elemap cfg
      (store base self c attrs news)
    = (Raise ex, store base self c attrs' (news ++ news')).
Proof.
  intros Hs Hb Hbe Hno. unfold BaseMPIInterfaces_init.
  destruct (next_viewvalues elemap) as [e|ex] eqn:He.
  2:{ erewrite bind_raise by (rewrite BaseInterfaces_init_run, He; done).
      eexists _, _, []. by rewrite app_nil_r. }
  erewrite bind_ok by (rewrite BaseInterfaces_init_run, He; done).
  run_step.
  destruct (get_view_mats lhs _ elemap) as [L|ex] eqn:HL.
  2:{ erewrite lift_raise by done. eexists _, _, []. by rewrite app_nil_r. }
  repeat run_step.
  erewrite bind_ok
    by (eapply be_mpi_matrix_for_view_store;
        [done|done|by apply list_lookup_middle]).
  run_step.
  destruct (get_mag_pnorm_mat lhs elemap) as [ML|ex] eqn:HML.
  2:{ erewrite lift_raise by done. eexists _, _, _.
      by rewrite <- !app_assoc. }
  run_step.
  destruct (get_norm_pnorm_mat lhs elemap) as [NL|ex] eqn:HNL; [done|].
  erewrite lift_raise by done. eexists _, _, _. by rewrite <- !app_assoc.
Qed.

Lemma is_ok_true {A} (r : result A) : is_ok r = true -> exists a, r = Ok a.
Proof. destruct r; [by eexists|done]. Qed.

Lemma instance_not_backend (h : list obj) self b c attrs :
  h !! self = Some (OInstance c attrs) -> h !! b = Some OBackend ->
  self < length h /\ b ≠ self.
Proof.
  intros Hs Hb. split; [by eapply lookup_lt_Some|]. intros ->. congruence.
Qed.

Lemma BaseInternalInterfaces_init_inv h self c attrs b lhs rhs elemap cfg h' :
  h !! self = Some (OInstance c attrs) -> h !! b = Some OBackend ->
  BaseInternalInterfaces_init self (VRef b) lhs rhs elemap cfg h
  = (Ok (), h') ->
  exists e L R ML MR NL,
    next_viewvalues elemap = Ok e /\
    get_view_mats lhs "get_scal_fpts0_for_inter" elemap = Ok L /\
    get_view_mats rhs "get_scal_fpts0_for_inter" elemap = Ok R /\
    get_mag_pnorm_mat lhs elemap = Ok ML /\
    get_mag_pnorm_mat rhs elemap = Ok MR /\
    get_norm_pnorm_mat lhs elemap = Ok NL /\
    h' = store h self c (internal_attrs (VRef b) cfg e (length h) attrs)
           [OView false L (VInt (nvars e)) nopad;
            OView false R (VInt (nvars e)) nopad;
            OConstMatrix ML nopad;
            OConstMatrix MR nopad;
            OConstMatrix NL nopad].
Proof.
  intros Hself Hbe. destruct (instance_not_backend _ _ _ _ _ Hself Hbe)
    as [Hlt Hne].
  rewrite (store_start _ _ _ _ Hself) at 1.
  destruct (is_ok (next_viewvalues elemap)
    && is_ok (get_view_mats lhs "get_scal_fpts0_for_inter" elemap)
    && is_ok (get_view_mats rhs "get_scal_fpts0_for_inter" elemap)
    && is_ok (get_mag_pnorm_mat lhs elemap)
    && is_ok (get_mag_pnorm_mat rhs elemap)
    && is_ok (get_norm_pnorm_mat lhs elemap)) eqn:Hall.
  - apply andb_true_iff in Hall as [Hall HoNL].
    apply andb_true_iff in Hall as [Hall HoMR].
    apply andb_true_iff in Hall as [Hall HoML].
    apply andb_true_iff in Hall as [Hall HoR].
    apply andb_true_iff in Hall as [Hoe HoL].
    destruct (is_ok_true _ Hoe) as [e He].
    destruct (is_ok_true _ HoL) as [L HL].
    destruct (is_ok_true _ HoR) as [R HR].
    destruct (is_ok_true _ HoML) as [ML HML].
    destruct (is_ok_true _ HoMR) as [MR HMR].
    destruct (is_ok_true _ HoNL) as [NL HNL].
    rewrite (BaseInternalInterfaces_init_ok _ _ _ _ _ _ _ _ _ _ e L R ML MR NL)
      by done.
    intros [= <-]. exists e, L, R, ML, MR, NL.
    simpl. by rewrite Nat.add_0_r.
  - destruct (BaseInternalInterfaces_init_raise h self c attrs [] b lhs rhs
                elemap cfg Hlt Hne Hbe Hall) as (ex & a' & n' & ->).
    done.
Qed.

Lemma BaseMPIInterfaces_init_inv h self c attrs b lhs rhsrank elemap cfg h' :
  h !! self = Some (OInstance c attrs) -> h !! b = Some OBackend ->
  BaseMPIInterfaces_init self (VRef b) lhs rhsrank elemap cfg h
  = (Ok (), h') ->
  exists e L ML NL,
    next_viewvalues elemap = Ok e /\
    get_view_mats lhs "get_scal_fpts0_for_inter" elemap = Ok L /\
    get_mag_pnorm_mat lhs elemap = Ok ML /\
    get_norm_pnorm_mat lhs elemap = Ok NL /\
    h' = store h self c (mpi_attrs (VRef b) cfg rhsrank e (length h) attrs)
           [OView true L (VInt (nvars e)) nopad;
            OMPIMatrix (view_extents L).1 (view_extents L).2
                       (VInt (nvars e));
            OConstMatrix ML nopad;
            OConstMatrix NL nopad].
Proof.
  intros Hself Hbe. destruct (instance_not_backend _ _ _ _ _ Hself Hbe)
    as [Hlt Hne].
  rewrite (store_start _ _ _ _ Hself) at 1.
  destruct (is_ok (next_viewvalues elemap)
    && is_ok (get_view_mats lhs "get_scal_fpts0_for_inter" elemap)
    && is_ok (get_mag_pnorm_mat lhs elemap)
    && is_ok (get_norm_pnorm_mat lhs elemap)) eqn:Hall.
  - apply andb_true_iff in Hall as [Hall HoNL].
    apply andb_true_iff in Hall as [Hall HoML].
    apply andb_true_iff in Hall as [Hoe HoL].
    destruct (is_ok_true _ Hoe) as [e He].
    destruct (is_ok_true _ HoL) as [L HL].
    destruct (is_ok_true _ HoML) as [ML HML].
    destruct (is_ok_true _ HoNL) as [NL HNL].
    rewrite (BaseMPIInterfaces_init_ok _ _ _ _ _ _ _ _ _ _ e L ML NL) by done.
    intros [= <-]. exists e, L, ML, NL.
    simpl. by rewrite Nat.add_0_r.
  - destruct (BaseMPIInterfaces_init_raise h self c attrs [] b lhs rhsrank
                elemap cfg Hlt Hne Hbe Hall) as (ex & a' & n' & ->).
    done.
Qed.

(** Reading the final store. *)
Lemma attr_obj_store base self c attrs news name k o :
  self < length base ->
  attrs !! name = Some (VRef (length base + k)) ->
  news !! k = Some o ->
  attr_obj (store base self c attrs news) self name = Some o.
Proof.
  intros Hs Ha Hk. unfold attr_obj, attr_val.
  rewrite store_lookup_self by done.
  rewrite Ha. by rewrite store_lookup_new.
Qed.

Lemma drop_store base self c attrs news :
  drop (length base) (store base self c attrs news) = news.
Proof.
  unfold store. rewrite drop_app_length'; [done|]. by rewrite length_insert.
Qed.

(** ** Internal interface sets *)

(** C4.  A successful [BaseInternalInterfaces.__init__] binds
    [_mag_pnorm_lhs], [_mag_pnorm_rhs] and [_norm_pnorm_lhs] to constant
    matrices holding the normal magnitudes of the lhs sides, those of the
    rhs sides and the unit normals of the lhs sides.  These three are the
    only constant matrices it allocates, and the only names it binds are
    the nine listed: no rhs unit-normal array is built or stored. *)
Theorem C4_only_lhs_unit_normal h self c attrs b lhs rhs elemap cfg h' :
  h !! self = Some (OInstance c attrs) ->
  h !! b = Some OBackend ->
  BaseInternalInterfaces_init self (VRef b) lhs rhs elemap cfg h
  = (Ok (), h') ->
  exists ML MR NL,
    get_mag_pnorm_mat lhs elemap = Ok ML /\
    get_mag_pnorm_mat rhs elemap = Ok MR /\
    get_norm_pnorm_mat lhs elemap = Ok NL /\
    attr_obj h' self "_mag_pnorm_lhs" = Some (OConstMatrix ML nopad) /\
    attr_obj h' self "_mag_pnorm_rhs" = Some (OConstMatrix MR nopad) /\
    attr_obj h' self "_norm_pnorm_lhs" = Some (OConstMatrix NL nopad) /\
    const_matrices (drop (length h) h') = [ML; MR; NL] /\
    attr_names h' self
    = attr_names h self ∪
      {[ "_be"; "_cfg"; "ndims"; "nvars"; "_scal0_lhs"; "_scal0_rhs";
         "_mag_pnorm_lhs"; "_mag_pnorm_rhs"; "_norm_pnorm_lhs" ]} /\
    ("_norm_pnorm_rhs" ∈ attr_names h' self <->
     "_norm_pnorm_rhs" ∈ attr_names h self).
Proof.
  intros Hself Hbe Hrun.
  destruct (instance_not_backend _ _ _ _ _ Hself Hbe) as [Hlt Hne].
  destruct (BaseInternalInterfaces_init_inv _ _ _ _ _ _ _ _ _ _ Hself Hbe Hrun)
    as (e & L & R & ML & MR & NL & He & HL & HR & HML & HMR & HNL & ->).
  exists ML, MR, NL. repeat (split; [done|]).
  assert (attr_names
            (store h self c (internal_attrs (VRef b) cfg e (length h) attrs)
               [OView false L (VInt (nvars e)) nopad;
                OView false R (VInt (nvars e)) nopad;
                OConstMatrix ML nopad; OConstMatrix MR nopad;
                OConstMatrix NL nopad]) self
          = attr_names h self ∪
            {[ "_be"; "_cfg"; "ndims"; "nvars"; "_scal0_lhs"; "_scal0_rhs";
               "_mag_pnorm_lhs"; "_mag_pnorm_rhs"; "_norm_pnorm_lhs" ]})
    as Hnames.
  { unfold attr_names. rewrite store_lookup_self, Hself by done.
    unfold internal_attrs, base_attrs. rewrite !dom_insert_L. set_solver. }
  split; [|split; [|split; [|split; [|split]]]].
  - eapply (attr_obj_store _ _ _ _ _ _ 2); [done|solve_attr|done].
  - eapply (attr_obj_store _ _ _ _ _ _ 3); [done|solve_attr|done].
  - eapply (attr_obj_store _ _ _ _ _ _ 4); [done|solve_attr|done].
  - by rewrite drop_store.
  - done.
  - rewrite Hnames. set_solver.
Qed.

Lemma frag_points_promoted dt (frag : side -> option ndarray) s :
  length (from_option (promoted dt) [] (frag s)) = frag_points frag s.
Proof.
  unfold frag_points. destruct (frag s); simpl; [apply promoted_length|done].
Qed.

Lemma laid_out_points frag sides m :
  laid_out frag sides m ->
  points m = [sum_list (map (frag_points frag) sides)].
Proof.
  intros (a & -> & _ & Ha). unfold points, nd_len. simpl.
  rewrite Ha, length_concat_map. do 2 f_equal. apply map_ext.
  intros s. apply frag_points_promoted.
Qed.

Lemma laid_out_side frag sides m j s :
  laid_out frag sides m -> sides !! j = Some s ->
  exists a, m = [a] /\
    take (frag_points frag s) (drop (offset frag sides j) (nd_items a))
    = from_option (promoted (nd_dtype a)) [] (frag s).
Proof.
  intros (a & -> & _ & Ha) Hj. exists a. split; [done|].
  rewrite Ha, <- (frag_points_promoted (nd_dtype a) frag s).
  unfold offset.
  assert (map (frag_points frag) (take j sides)
          = map (fun y => length (from_option (promoted (nd_dtype a)) []
                                    (frag y))) (take j sides)) as ->
    by (apply map_ext; intros y; symmetry; apply frag_points_promoted).
  exact (concat_map_fragment
           (fun y => from_option (promoted (nd_dtype a)) [] (frag y))
           sides j s Hj).
Qed.

(** Sides with equal point counts one by one start at equal positions,
    in one list or in two. *)
Lemma offset_pairs f g (sides sides' : list side) j :
  Forall2 (fun s s' => frag_points f s = frag_points g s') sides sides' ->
  offset f sides j = offset g sides' j.
Proof.
  intros Hfg. unfold offset. revert j.
  induction Hfg as [|s s' sides sides' Hs _ IH]; intros j.
  - by rewrite !take_nil.
  - destruct j as [|j]; [done|]. simpl. by rewrite Hs, IH.
Qed.

(** C1 (as amended).  After a successful
    [BaseInternalInterfaces.__init__] on side lists [lhs] and [rhs], whose
    view getters return three fragments per side, the three matrices of
    the lhs view, the lhs normal magnitudes and the lhs unit normals are
    each the concatenation, in the order of [lhs], of one fragment per
    side, promoted to the common dtype of the fragments; the three
    matrices of the rhs view and the rhs normal magnitudes are the same
    over [rhs].  So an array exposes the sum of the point counts of its
    sides (not their number), and the points of the [j]-th side start at
    the sum of the counts of the sides before it.  Two arrays, over the
    same list or one over [lhs] and one over [rhs], place every side at
    the same flat position when their fragments have equal counts side by
    side. *)
Theorem C1_arrays_follow_side_order h self c attrs b lhs rhs elemap cfg h' :
  h !! self = Some (OInstance c attrs) ->
  h !! b = Some OBackend ->
  NoDup elemap.*1 ->
  Forall (fun s => length (side_frags elemap "get_scal_fpts0_for_inter" s) = 3)
         (lhs ++ rhs) ->
  BaseInternalInterfaces_init self (VRef b) lhs rhs elemap cfg h
  = (Ok (), h') ->
  (exists l0 l1 l2 r0 r1 r2 ml mr nl vlen,
    attr_obj h' self "_scal0_lhs" = Some (OView false [l0; l1; l2] vlen nopad)
    /\ attr_obj h' self "_scal0_rhs"
       = Some (OView false [r0; r1; r2] vlen nopad)
    /\ attr_obj h' self "_mag_pnorm_lhs" = Some (OConstMatrix ml nopad)
    /\ attr_obj h' self "_mag_pnorm_rhs" = Some (OConstMatrix mr nopad)
    /\ attr_obj h' self "_norm_pnorm_lhs" = Some (OConstMatrix nl nopad)
    /\ laid_out (view_frag elemap "get_scal_fpts0_for_inter" 0) lhs l0
    /\ laid_out (view_frag elemap "get_scal_fpts0_for_inter" 1) lhs l1
    /\ laid_out (view_frag elemap "get_scal_fpts0_for_inter" 2) lhs l2
    /\ laid_out (view_frag elemap "get_scal_fpts0_for_inter" 0) rhs r0
    /\ laid_out (view_frag elemap "get_scal_fpts0_for_inter" 1) rhs r1
    /\ laid_out (view_frag elemap "get_scal_fpts0_for_inter" 2) rhs r2
    /\ laid_out (mag_frag elemap) lhs ml
    /\ laid_out (mag_frag elemap) rhs mr
    /\ laid_out (norm_frag elemap) lhs nl)
  /\ (forall frag sides m, laid_out frag sides m ->
        points m = [sum_list (map (frag_points frag) sides)] /\
        forall j s, sides !! j = Some s ->
          exists a, m = [a] /\
            take (frag_points frag s)
                 (drop (offset frag sides j) (nd_items a))
            = from_option (promoted (nd_dtype a)) [] (frag s))
  /\ (forall f g sides sides' j,
        Forall2 (fun s s' => frag_points f s = frag_points g s')
                sides sides' ->
        offset f sides j = offset g sides' j).
Proof.
  intros Hself Hbe Hnd H3 Hrun.
  destruct (instance_not_backend _ _ _ _ _ Hself Hbe) as [Hlt Hne].
  destruct (BaseInternalInterfaces_init_inv _ _ _ _ _ _ _ _ _ _ Hself Hbe Hrun)
    as (e & L & R & ML & MR & NL & He & HL & HR & HML & HMR & HNL & ->).
  apply Forall_app in H3 as [H3l H3r].
  destruct (get_view_mats_inv _ _ _ _ Hnd H3l HL)
    as (l0 & l1 & l2 & -> & Hl0 & Hl1 & Hl2).
  destruct (get_view_mats_inv _ _ _ _ Hnd H3r HR)
    as (r0 & r1 & r2 & -> & Hr0 & Hr1 & Hr2).
  rewrite get_mag_pnorm_mat_eq in HML, HMR.
  rewrite get_norm_pnorm_mat_eq in HNL.
  apply assemble_normals_inv in HML as [HML _], HMR as [HMR _],
    HNL as [HNL _].
  split; [|split].
  - exists l0, l1, l2, r0, r1, r2, ML, MR, NL, (VInt (nvars e)).
    split; [|split; [|split; [|split; [|split]]]].
    + eapply (attr_obj_store _ _ _ _ _ _ 0); [done| |done].
      rewrite Nat.add_0_r. solve_attr.
    + eapply (attr_obj_store _ _ _ _ _ _ 1); [done|solve_attr|done].
    + eapply (attr_obj_store _ _ _ _ _ _ 2); [done|solve_attr|done].
    + eapply (attr_obj_store _ _ _ _ _ _ 3); [done|solve_attr|done].
    + eapply (attr_obj_store _ _ _ _ _ _ 4); [done|solve_attr|done].
    + done.
  - intros frag sides m Hm. split; [by apply laid_out_points|].
    intros j s Hj. by apply laid_out_side.
  - intros f g sides sides' j Hfg. by apply offset_pairs.
Qed.




(** ** Construction needs an element *)

Lemma BaseInterfaces_init_empty h self c attrs be cfg :
  h !! self = Some (OInstance c attrs) ->
  BaseInterfaces_init self be [] cfg h
  = (Raise StopIteration,
     <[self := OInstance c (<["_cfg" := cfg]> (<["_be" := be]> attrs))]> h).
Proof.
  intros Hself. rewrite (store_start _ _ _ _ Hself) at 1.
  rewrite BaseInterfaces_init_run by (by eapply lookup_lt_Some).
  simpl. unfold store. by rewrite app_nil_r.
Qed.

(** C9.  Every constructor of the module starts with
    [BaseInterfaces.__init__], which takes [ndims] and [nvars] from the
    first entry the element map yields.  On an empty map each of them
    raises [StopIteration] with only [_be] and [_cfg] bound on the
    instance and nothing allocated: the store keeps its length.  A
    constructor call on an empty map raises in every class, leaving at
    most the half-built instance behind, and on a non-empty map the two
    attributes are those of the first entry. *)
Theorem C9_empty_elemap_fails h self c attrs be cfg lhs rhs rhsrank :
  h !! self = Some (OInstance c attrs) ->
  let failed :=
    (@Raise unit StopIteration,
     <[self := OInstance c (<["_cfg" := cfg]> (<["_be" := be]> attrs))]> h) in
  BaseInterfaces_init self be [] cfg h = failed /\
  BaseInternalInterfaces_init self be lhs rhs [] cfg h = failed /\
  BaseMPIInterfaces_init self be lhs rhsrank [] cfg h = failed /\
  NavierStokesInternalInterfaces_init self be lhs rhs [] cfg h = failed /\
  NavierStokesMPIInterfaces_init self be lhs rhsrank [] cfg h = failed /\
  length failed.2 = length h /\
  (forall k a, args_elemap a = [] ->
     exists ex news, instantiate k a h = (Raise ex, h ++ news) /\
                     Forall is_instance news) /\
  (forall t e rest, exists attrs',
     BaseInterfaces_init self be ((t, e) :: rest) cfg h
     = (Ok (), <[self := OInstance c attrs']> h) /\
     attrs' !! "ndims" = Some (VInt (ndims e)) /\
     attrs' !! "nvars" = Some (VInt (nvars e))).
Proof.
  intros Hself failed.
  pose proof (BaseInterfaces_init_empty h self c attrs be cfg Hself) as Hb.
  assert (BaseInternalInterfaces_init self be lhs rhs [] cfg h = failed)
    as Hi by (unfold BaseInternalInterfaces_init; by erewrite bind_raise).
  assert (BaseMPIInterfaces_init self be lhs rhsrank [] cfg h = failed)
    as Hm by (unfold BaseMPIInterfaces_init; by erewrite bind_raise).
  split; [done|]. split; [done|]. split; [done|].
  split; [unfold NavierStokesInternalInterfaces_init; by erewrite bind_raise|].
  split; [unfold NavierStokesMPIInterfaces_init; by erewrite bind_raise|].
  split; [subst failed; simpl; by rewrite length_insert|]. split.
  - intros k a Ha. unfold instantiate.
    assert (forall be' cfg',
      BaseInterfaces_init (length h) be' [] cfg' (h ++ [OInstance k ∅])
      = (Raise StopIteration,
         h ++ [OInstance k (<["_cfg" := cfg']> (<["_be" := be']> ∅))]))
      as Hfresh.
    { intros be' cfg'. rewrite (BaseInterfaces_init_empty _ _ k ∅)
        by (by apply list_lookup_middle).
      f_equal. rewrite insert_app_r_alt by done.
      by rewrite Nat.sub_diag. }
    destruct k, a as [be' em cfg'|be' l r em cfg'|be' l [| | | |rs] em cfg'];
      simpl in Ha; subst em;
      try (exists TypeError, []; by rewrite app_nil_r);
      simpl; unfold init_of; simpl;
      erewrite bind_ok by reflexivity.
    all: try (exists TypeError; eexists [_]; split; [reflexivity|];
              repeat constructor).
    all: exists StopIteration; eexists [_].
    all: split.
    all: try (erewrite bind_raise; [reflexivity|];
              unfold BaseInternalInterfaces_init, BaseMPIInterfaces_init,
                internal_init_not_iterable;
              erewrite bind_raise by apply Hfresh; reflexivity).
    all: repeat constructor.
  - intros t e rest. eexists. rewrite (store_start _ _ _ _ Hself) at 1.
    rewrite BaseInterfaces_init_run by (by eapply lookup_lt_Some).
    simpl. unfold store. rewrite app_nil_r. split; [done|].
    unfold base_attrs. split; [|solve_attr].
    rewrite lookup_insert_ne by done. solve_attr.
Qed.

(** ** Distributed interface sets *)

Lemma store_snoc base self c attrs news o :
  store base self c attrs news ++ [o] = store base self c attrs (news ++ [o]).
Proof. unfold store. by rewrite app_assoc. Qed.

Lemma distributed_class c :
  BaseMPIInterfaces ∈ mro c ->
  class_lookup c "MPI_TAG" = Some (VInt MPI_TAG) /\
  forall m, m ∈ class_methods BaseMPIInterfaces -> m ≠ __init__ ->
            resolve c m = Some BaseMPIInterfaces.
Proof.
  intros Hc. destruct c; simpl in Hc; set_unfold; try naive_solver.
  all: split; [done|].
  all: intros m Hm Hi; simpl in Hm; set_unfold.
  all: destruct Hm as [->|[->|[->|[->| ->]]]]; done.
Qed.

(** C6.  Two distributed interface sets built one after the other on the
    same backend, the second on a store that may hold further objects.
    Each [BaseMPIInterfaces.__init__] asks the backend for one receive
    buffer, for the lhs view it has just built from its own side list: the
    buffer has the extents and vector length of that view, it lies past
    the objects that existed when the constructor started, and so the two
    sets never hold the same buffer. *)
Theorem C6_own_receive_buffer h b
    self1 c1 attrs1 lhs1 rank1 elemap1 cfg1 h1 ext
    self2 c2 attrs2 lhs2 rank2 elemap2 cfg2 h2 :
  h !! self1 = Some (OInstance c1 attrs1) ->
  h !! b = Some OBackend ->
  BaseMPIInterfaces_init self1 (VRef b) lhs1 rank1 elemap1 cfg1 h
  = (Ok (), h1) ->
  (h1 ++ ext) !! self2 = Some (OInstance c2 attrs2) ->
  self2 ≠ self1 ->
  BaseMPIInterfaces_init self2 (VRef b) lhs2 rank2 elemap2 cfg2 (h1 ++ ext)
  = (Ok (), h2) ->
  exists L1 L2 vlen1 vlen2 buf1 buf2,
    get_view_mats lhs1 "get_scal_fpts0_for_inter" elemap1 = Ok L1 /\
    get_view_mats lhs2 "get_scal_fpts0_for_inter" elemap2 = Ok L2 /\
    attr_obj h2 self1 "_scal0_lhs" = Some (OView true L1 vlen1 nopad) /\
    attr_obj h2 self2 "_scal0_lhs" = Some (OView true L2 vlen2 nopad) /\
    attr_val h2 self1 "_scal0_rhs" = Some (VRef buf1) /\
    attr_val h2 self2 "_scal0_rhs" = Some (VRef buf2) /\
    h2 !! buf1
    = Some (OMPIMatrix (view_extents L1).1 (view_extents L1).2 vlen1) /\
    h2 !! buf2
    = Some (OMPIMatrix (view_extents L2).1 (view_extents L2).2 vlen2) /\
    length h <= buf1 /\ length (h1 ++ ext) <= buf2 /\
    buf1 ≠ buf2.
Proof.
  intros Hself1 Hbe Hrun1 Hself2 Hne12 Hrun2.
  destruct (instance_not_backend _ _ _ _ _ Hself1 Hbe) as [Hlt1 Hne1].
  destruct (BaseMPIInterfaces_init_inv _ _ _ _ _ _ _ _ _ _ Hself1 Hbe Hrun1)
    as (e1 & L1 & ML1 & NL1 & He1 & HL1 & _ & _ & ->).
  set (A1 := mpi_attrs (VRef b) cfg1 rank1 e1 (length h) attrs1) in *.
  set (N1 := [OView true L1 (VInt (nvars e1)) nopad;
              OMPIMatrix (view_extents L1).1 (view_extents L1).2
                         (VInt (nvars e1));
              OConstMatrix ML1 nopad; OConstMatrix NL1 nopad]) in *.
  set (H1 := store h self1 c1 A1 N1 ++ ext) in *.
  assert (length h + 4 <= length H1) as Hlen.
  { unfold H1. rewrite length_app, store_length. simpl. lia. }
  assert (forall k o, N1 !! k = Some o -> H1 !! (length h + k) = Some o)
    as Hnew.
  { intros k o Hk. unfold H1. rewrite lookup_app_l.
    - by rewrite store_lookup_new.
    - rewrite store_length. apply lookup_lt_Some in Hk. lia. }
  assert (H1 !! self1 = Some (OInstance c1 A1)) as Hs1.
  { unfold H1. rewrite lookup_app_l by (rewrite store_length; lia).
    by apply store_lookup_self. }
  assert (H1 !! b = Some OBackend) as Hbe1.
  { unfold H1. rewrite lookup_app_l.
    - rewrite store_lookup_base; [done|done|by eapply lookup_lt_Some].
    - rewrite store_length. apply lookup_lt_Some in Hbe. lia. }
  destruct (instance_not_backend _ _ _ _ _ Hself2 Hbe1) as [Hlt2 Hne2].
  destruct (BaseMPIInterfaces_init_inv _ _ _ _ _ _ _ _ _ _ Hself2 Hbe1 Hrun2)
    as (e2 & L2 & ML2 & NL2 & He2 & HL2 & _ & _ & ->).
  set (A2 := mpi_attrs (VRef b) cfg2 rank2 e2 (length H1) attrs2).
  assert (forall k o, N1 !! k = Some o ->
            (forall c' a', o ≠ OInstance c' a') ->
            store H1 self2 c2 A2
              [OView true L2 (VInt (nvars e2)) nopad;
               OMPIMatrix (view_extents L2).1 (view_extents L2).2
                          (VInt (nvars e2));
               OConstMatrix ML2 nopad; OConstMatrix NL2 nopad]
            !! (length h + k) = Some o) as Hold.
  { intros k o Hk Hno. rewrite store_lookup_base.
    - by apply Hnew.
    - intros Heq. rewrite <- Heq in Hself2. rewrite (Hnew _ _ Hk) in Hself2.
      injection Hself2 as ->. by eapply Hno.
    - apply lookup_lt_Some in Hk. simpl in Hk. lia. }
  assert (self1 < length H1) as Hlt1' by lia.
  assert (self1 ≠ self2) as Hne21 by done.
  exists L1, L2, (VInt (nvars e1)), (VInt (nvars e2)),
    (length h + 1), (length H1 + 1).
  split; [done|]. split; [done|].
  split; [|split; [|split; [|split; [|split; [|split; [|split; [|split]]]]]]].
  - unfold attr_obj, attr_val.
    rewrite store_lookup_base, Hs1 by done.
    replace (A1 !! "_scal0_lhs") with (Some (VRef (length h + 0)))
      by (symmetry; unfold A1; rewrite Nat.add_0_r; solve_attr).
    by apply Hold.
  - eapply (attr_obj_store _ _ _ _ _ _ 0); [done| |done].
    unfold A2. rewrite Nat.add_0_r. solve_attr.
  - unfold attr_val. rewrite store_lookup_base, Hs1 by done.
    unfold A1. solve_attr.
  - unfold attr_val. rewrite store_lookup_self by done.
    unfold A2. solve_attr.
  - by apply Hold.
  - by rewrite store_lookup_new.
  - lia.
  - lia.
  - lia.
Qed.

(** ** View assembly and missing getters *)

(** C7 (as amended).  [get_view_mats] raises [AttributeError] exactly when
    some element of the element map, referenced by the side list or not,
    lacks the requested getter: the getter map is built for every entry
    before the sides are read.  When every entry has the getter, the map
    has unique keys, the side list is not empty and over types of the map,
    and the getters return three fragments of agreeing trailing shapes,
    the assembly succeeds. *)
Theorem C7_missing_getter interside mat elemap :
  (get_view_mats interside mat elemap = Raise AttributeError <->
   Exists (fun te => view_getters te.2 mat = None) elemap)
  /\ (NoDup elemap.*1 ->
      Forall (fun te => is_Some (view_getters te.2 mat)) elemap ->
      interside ≠ [] ->
      Forall (fun s => s_type s ∈ elemap.*1) interside ->
      Forall (fun s => length (side_frags elemap mat s) = 3) interside ->
      (forall k, k < 3 ->
         same_tails (fun s => side_frags elemap mat s !! k) interside) ->
      is_ok (get_view_mats interside mat elemap) = true).
Proof.
  split; [split|].
  - unfold get_view_mats.
    destruct (viewmatmap_from mat elemap []) as [vmm|e] eqn:Hv; simpl.
    + destruct (scal_loop vmm interside []) as [scal|e] eqn:Hs; simpl.
      * intros Hc. by pose proof (concat_comp_raise scal [0; 1; 2] _ Hc).
      * intros [= ->]. by apply scal_loop_raise in Hs.
    + intros _. by apply viewmatmap_from_raise in Hv as [_ Hv].
  - intros Hex. unfold get_view_mats.
    by rewrite (viewmatmap_from_exists_none _ _ _ Hex).
  - apply get_view_mats_is_ok.
Qed.

(** ** Kernel getters *)




Lemma reads_ret {A} (a : A) : reads (mret a).
Proof. intros h. by exists (Ok a). Qed.



Lemma reads_bind {A B} (m : M A) (f : A -> M B) :
  reads m -> (forall a, reads (f a)) -> reads (m ≫= f).
Proof.
  intros Hm Hf h. destruct (Hm h) as ([a|e] & H1 & H2).
  - destruct (Hf a h) as (r & H3 & H4). exists r. split.
    + by erewrite bind_ok.
    + intros ext Hext. erewrite bind_ok by (by apply H2). by apply H4.
  - exists (Raise e). split.
    + by erewrite bind_raise.
    + intros ext Hext. by erewrite bind_raise by (by apply H2).
Qed.











Lemma call_instance py_float self m h c attrs :
  h !! self = Some (OInstance c attrs) ->
  call py_float self m h
  = match resolve c m with
    | Some k => method_body py_float k m self h
    | None => (Raise AttributeError, h)
    end.
Proof. intros Hl. unfold call. by rewrite Hl. Qed.




(** ** Reading the store *)

Lemma getattr_ok h self c attrs name v :
  h !! self = Some (OInstance c attrs) -> attrs !! name = Some v ->
  getattr self name h = (Ok v, h).
Proof. intros Hs Hv. unfold getattr. by rewrite Hs, Hv. Qed.

Lemma be_kernel_ok h b name args :
  h !! b = Some OBackend ->
  be_kernel (VRef b) name args h
  = (Ok (VRef (length h)), h ++ [OKernel name args]).
Proof.
  intros Hb. unfold be_kernel.
  erewrite bind_ok by (unfold check_backend; by rewrite Hb).
  by erewrite bind_ok by reflexivity.
Qed.

Lemma cfg_get_ok h cfg get getfloat section option :
  h !! cfg = Some (OConfig get getfloat) ->
  cfg_get (VRef cfg) section option h = (get section option, h).
Proof. intros Hc. unfold cfg_get. by rewrite Hc. Qed.

Lemma cfg_getfloat_ok h cfg get getfloat section option :
  h !! cfg = Some (OConfig get getfloat) ->
  cfg_getfloat (VRef cfg) section option h = (getfloat section option, h).
Proof. intros Hc. unfold cfg_getfloat. by rewrite Hc. Qed.

(** ** The Navier-Stokes kernels *)

Lemma keeps_bind self name {A B} (m : M A) (f : A -> M B) :
  keeps self name m -> (forall a, keeps self name (f a)) ->
  keeps self name (m ≫= f).
Proof.
  intros Hm Hf h. unfold mbind, M_bind. specialize (Hm h).
  destruct (m h) as [[a|e] h1]; simpl in *; [|done].
  by rewrite Hf.
Qed.

Lemma keeps_reads self name {A} (m : M A) :
  (forall h, (m h).2 = h) -> keeps self name m.
Proof. intros Hm h. by rewrite Hm. Qed.

Lemma keeps_getattr self name l n : keeps self name (getattr l n).
Proof.
  apply keeps_reads. intros h. unfold getattr.
  destruct (h !! l) as [[c attrs| | | | | |]|]; try done.
  destruct (attrs !! n); [done|]. by destruct (class_lookup c n).
Qed.

Lemma keeps_setattr self name n v :
  n ≠ name -> keeps self name (setattr self n v).
Proof.
  intros Hn h. unfold setattr, attr_val.
  destruct (h !! self) as [[c attrs| | | | | |]|] eqn:Hs; simpl;
    rewrite ?Hs; try done.
  rewrite list_lookup_insert_eq by (eapply lookup_lt_Some, Hs).
  by rewrite lookup_insert_ne.
Qed.

Lemma keeps_check_backend self name be : keeps self name (check_backend be).
Proof.
  apply keeps_reads. intros h. unfold check_backend.
  destruct be as [| | |l|]; try done. by destruct (h !! l) as [[]|].
Qed.

Lemma keeps_alloc self name o :
  ~ is_instance o -> keeps self name (alloc o).
Proof.
  intros Ho h. unfold alloc, attr_val. simpl.
  destruct (h !! self) as [x|] eqn:Hs.
  - by rewrite (lookup_app_l_Some _ _ _ _ Hs).
  - destruct ((h ++ [o]) !! self) as [x|] eqn:Hs'; [|done].
    apply lookup_app_Some in Hs' as [Hs'|[_ Hs']]; [congruence|].
    apply list_lookup_singleton_Some in Hs' as [_ <-].
    by destruct o.
Qed.

Lemma keeps_be_view self name be mpi mats vlen tags :
  keeps self name (if mpi : bool then be_mpi_view be mats vlen tags
                   else be_view be mats vlen tags).
Proof.
  destruct mpi; unfold be_mpi_view, be_view;
    (apply keeps_bind; [apply keeps_check_backend|intros _]);
    (apply keeps_bind; [apply keeps_alloc; by intros []|intros l]);
    by apply keeps_reads.
Qed.

Lemma keeps_be_const_matrix self name be data tags :
  keeps self name (be_const_matrix be data tags).
Proof.
  unfold be_const_matrix.
  apply keeps_bind; [apply keeps_check_backend|intros _].
  apply keeps_bind; [apply keeps_alloc; by intros []|intros l].
  by apply keeps_reads.
Qed.

Lemma keeps_be_mpi_matrix_for_view self name be view :
  keeps self name (be_mpi_matrix_for_view be view).
Proof.
  unfold be_mpi_matrix_for_view.
  apply keeps_bind; [apply keeps_check_backend|intros _].
  apply keeps_bind.
  - apply keeps_reads. intros h. unfold read_view.
    destruct view as [| | |v|]; try done. by destruct (h !! v) as [[]|].
  - intros mv. apply keeps_bind; [apply keeps_alloc; by intros []|intros l].
    by apply keeps_reads.
Qed.

Ltac keeps_tac :=
  repeat first
    [ apply keeps_getattr
    | apply keeps_setattr; done
    | apply (keeps_be_view _ _ _ false)
    | apply (keeps_be_view _ _ _ true)
    | apply keeps_be_const_matrix
    | apply keeps_be_mpi_matrix_for_view
    | apply keeps_reads; done
    | apply keeps_bind; [|intros] ].

Lemma keeps_BaseInterfaces_init self name be elemap cfg :
  name ∉ ["_be"; "_cfg"; "ndims"; "nvars"] ->
  keeps self name (BaseInterfaces_init self be elemap cfg).
Proof.
  intros Hn. set_unfold. unfold BaseInterfaces_init.
  repeat first
    [ apply keeps_setattr; naive_solver
    | apply keeps_reads; done
    | apply keeps_bind; [|intros] ].
Qed.

(** No constructor of the module binds [_beta]. *)
Lemma keeps_beta self be lhs rhs rhsrank elemap cfg :
  keeps self "_beta"
    (NavierStokesInternalInterfaces_init self be lhs rhs elemap cfg) /\
  keeps self "_beta"
    (NavierStokesMPIInterfaces_init self be lhs rhsrank elemap cfg).
Proof.
  assert (keeps self "_beta" (BaseInterfaces_init self be elemap cfg))
    as Hb by (apply keeps_BaseInterfaces_init; set_unfold; naive_solver).
  split.
  - unfold NavierStokesInternalInterfaces_init, BaseInternalInterfaces_init.
    apply keeps_bind; [|intros; keeps_tac].
    apply keeps_bind; [done|intros; keeps_tac].
  - unfold NavierStokesMPIInterfaces_init, BaseMPIInterfaces_init.
    apply keeps_bind; [|intros; keeps_tac].
    apply keeps_bind; [done|intros; keeps_tac].
Qed.

Lemma getattr_instance h self c attrs name :
  h !! self = Some (OInstance c attrs) ->
  getattr self name h
  = (match attrs !! name with
     | Some v => Ok v
     | None =>
         match class_lookup c name with
         | Some v => Ok v
         | None => Raise AttributeError
         end
     end, h).
Proof.
  intros Hs. unfold getattr. rewrite Hs.
  destruct (attrs !! name); [done|]. by destruct (class_lookup c name).
Qed.

Lemma check_backend_cases be h :
  check_backend be h = (Ok (), h) \/
  check_backend be h = (Raise AttributeError, h).
Proof.
  unfold check_backend. destruct be as [| | |l|]; try by right.
  destruct (h !! l) as [[]|]; by (left + right).
Qed.

Lemma be_kernel_cases be name args h :
  be_kernel be name args h
  = (Ok (VRef (length h)), h ++ [OKernel name args]) \/
  be_kernel be name args h = (Raise AttributeError, h).
Proof.
  unfold be_kernel. destruct (check_backend_cases be h) as [Hc|Hc].
  - left. erewrite bind_ok by done. by erewrite bind_ok by reflexivity.
  - right. by erewrite bind_raise.
Qed.

Lemma bind_getattr_instance {B} h self c attrs name (f : value -> M B) :
  h !! self = Some (OInstance c attrs) ->
  (getattr self name ≫= f) h
  = match attrs !! name with
    | Some v => f v h
    | None =>
        match class_lookup c name with
        | Some v => f v h
        | None => (Raise AttributeError, h)
        end
    end.
Proof.
  intros Hs. unfold mbind, M_bind. rewrite (getattr_instance _ _ _ _ _ Hs).
  destruct (attrs !! name); [done|]. by destruct (class_lookup c name).
Qed.

Lemma class_lookup_other c name :
  name ≠ "MPI_TAG" -> class_lookup c name = None.
Proof.
  intros Hn. assert (forall k, class_dict k !! name = None) as Hd.
  { intros k. destruct k; simpl; try apply lookup_empty.
    by apply lookup_singleton_ne. }
  unfold class_lookup. induction (mro c) as [|k ks IH]; simpl; [done|].
  by rewrite Hd.
Qed.

(** C2 (what the code does).  The constructors of the Navier-Stokes sets
    leave [_beta] as it was, and no class body defines it: on an internal
    set on which it was never bound, [get_conu_fpts_kern] raises
    [AttributeError].  On a distributed set a returned descriptor is
    [conu_mpi] on five attributes of the instance, with no constant among
    its operands.  Neither class defines [get_rsolve_kern], so calling
    either class raises [TypeError]. *)
Theorem C2_conu_has_no_penalty_constant py_float :
  (forall self be lhs rhs rhsrank elemap cfg h,
     attr_val (NavierStokesInternalInterfaces_init self be lhs rhs elemap cfg
                 h).2 self "_beta" = attr_val h self "_beta" /\
     attr_val (NavierStokesMPIInterfaces_init self be lhs rhsrank elemap cfg
                 h).2 self "_beta" = attr_val h self "_beta")
  /\ (forall h self attrs,
        h !! self = Some (OInstance NavierStokesInternalInterfaces attrs) ->
        attrs !! "_beta" = None ->
        call py_float self get_conu_fpts_kern h = (Raise AttributeError, h))
  /\ (forall h self attrs r h',
        h !! self = Some (OInstance NavierStokesMPIInterfaces attrs) ->
        call py_float self get_conu_fpts_kern h = (Ok r, h') ->
        exists a1 a2 a3 a4 a5,
          r = VRef (length h) /\
          h' = h ++ [OKernel "conu_mpi" [a1; a2; a3; a4; a5]] /\
          attrs !! "ndims" = Some a1 /\
          attrs !! "nvars" = Some a2 /\
          attrs !! "_scal0_lhs" = Some a3 /\
          attrs !! "_scal0_rhs" = Some a4 /\
          attrs !! "_scal1_lhs" = Some a5)
  /\ (forall a h,
        instantiate NavierStokesInternalInterfaces a h = (Raise TypeError, h)
        /\ instantiate NavierStokesMPIInterfaces a h = (Raise TypeError, h)).
Proof.
  split; [|split; [|split]].
  - intros self be lhs rhs rhsrank elemap cfg h.
    destruct (keeps_beta self be lhs rhs rhsrank elemap cfg) as [H1 H2].
    split; [apply H1|apply H2].
  - intros h self attrs Hs Hbeta.
    rewrite (call_instance _ _ _ _ _ _ Hs). simpl.
    unfold NavierStokesInternalInterfaces_get_conu_fpts_kern.
    repeat (rewrite (bind_getattr_instance _ _ _ _ _ _ Hs);
            rewrite ?Hbeta, class_lookup_other by done;
            try done;
            match goal with
            | |- context [attrs !! ?n] => destruct (attrs !! n); [|done]
            end).
  - intros h self attrs r h' Hs.
    rewrite (call_instance _ _ _ _ _ _ Hs). simpl.
    unfold NavierStokesMPIInterfaces_get_conu_fpts_kern.
    rewrite (bind_getattr_instance _ _ _ _ _ _ Hs),
      class_lookup_other by done.
    destruct (attrs !! "_be") as [be|]; [|done].
    rewrite (bind_getattr_instance _ _ _ _ _ _ Hs),
      class_lookup_other by done.
    destruct (attrs !! "ndims") as [a1|]; [|done].
    rewrite (bind_getattr_instance _ _ _ _ _ _ Hs),
      class_lookup_other by done.
    destruct (attrs !! "nvars") as [a2|]; [|done].
    rewrite (bind_getattr_instance _ _ _ _ _ _ Hs),
      class_lookup_other by done.
    destruct (attrs !! "_scal0_lhs") as [a3|]; [|done].
    rewrite (bind_getattr_instance _ _ _ _ _ _ Hs),
      class_lookup_other by done.
    destruct (attrs !! "_scal0_rhs") as [a4|]; [|done].
    rewrite (bind_getattr_instance _ _ _ _ _ _ Hs),
      class_lookup_other by done.
    destruct (attrs !! "_scal1_lhs") as [a5|]; [|done].
    destruct (be_kernel_cases be "conu_mpi" [a1; a2; a3; a4; a5] h)
      as [-> | ->]; [|done].
    intros [= <- <-]. by exists a1, a2, a3, a4, a5.
  - intros a h. by split.
Qed.

(** * Sample runs *)

(** C1, runs against the claim as stated: an internal set built from one
    paired side whose views expose two points in each matrix; and one
    built from two paired sides whose lhs matrices expose three points and
    whose rhs matrices expose four. *)
Lemma C1_counterexample :
  (exists self h' m0 m1 m2 vlen,
    instantiate EulerInternalInterfaces
      (ArgsInternal (VRef 0) [Side "quad" 0 1 0] [Side "quad" 1 1 0]
         sample_elemap (VRef 1)) sample_store = (Ok self, h') /\
    length [Side "quad" 0 1 0] = 1 /\
    attr_obj h' self "_scal0_lhs" = Some (OView false [m0; m1; m2] vlen nopad)
    /\ points m0 = [2] /\ points m1 = [2] /\ points m2 = [2]) /\
  (exists self h' l0 l1 l2 r0 r1 r2 vlen,
    instantiate EulerInternalInterfaces
      (ArgsInternal (VRef 0)
         [Side "prism" 0 2 0; Side "prism" 1 1 0]
         [Side "prism" 5 3 0; Side "prism" 6 1 0]
         sample_prism_elemap (VRef 1)) sample_store = (Ok self, h') /\
    attr_obj h' self "_scal0_lhs" = Some (OView false [l0; l1; l2] vlen nopad)
    /\ attr_obj h' self "_scal0_rhs"
       = Some (OView false [r0; r1; r2] vlen nopad)
    /\ points l0 = [3] /\ points r0 = [4]).
Proof.
  split.
  - eexists _, _, _, _, _, _. split; [vm_compute; reflexivity|].
    split; [reflexivity|]. split; [vm_compute; reflexivity|].
    by vm_compute.
  - eexists _, _, _, _, _, _, _, _, _. split; [vm_compute; reflexivity|].
    split; [vm_compute; reflexivity|]. split; [vm_compute; reflexivity|].
    by vm_compute.
Qed.

Lemma sample_assemblable sides :
  sides ≠ [] ->
  forallb (fun s => bool_decide (s_type s = "quad")) sides = true ->
  assemblable sample_elemap "get_scal_fpts0_for_inter" sides.
Proof.
  intros Hne Hq. rewrite forallb_forall in Hq.
  assert (forall s, s ∈ sides -> s_type s = "quad") as Hq'.
  { intros s Hs. apply list_elem_of_In in Hs.
    by eapply bool_decide_eq_true_1, Hq. }
  assert (forall s, s ∈ sides ->
            side_frags sample_elemap "get_scal_fpts0_for_inter" s
            = [sample_frag 2 (s_eidx s) (s_face s);
               sample_frag 2 (s_face s) (s_rtag s);
               sample_frag 2 (s_rtag s) (s_eidx s)]) as Hf.
  { intros s Hs. unfold side_frags. by rewrite (Hq' s Hs). }
  split; [done|]. split; [|split; [|split; [|split]]].
  - apply Forall_forall. intros s Hs. rewrite (Hq' s Hs). set_solver.
  - apply Forall_forall. intros s Hs. by rewrite (Hf s Hs).
  - intros k Hk s s' a a' Hs Hs'. rewrite (Hf s Hs), (Hf s' Hs').
    destruct k as [|[|[|k]]]; [| | |lia]; by intros [= <-] [= <-].
  - intros s s' a a' Hs Hs'. unfold normal_of.
    rewrite (Hq' s Hs), (Hq' s' Hs'). by intros [= <-] [= <-].
  - intros s s' a a' Hs Hs'. unfold normal_of.
    rewrite (Hq' s Hs), (Hq' s' Hs'). by intros [= <-] [= <-].
Qed.

(** C1 on the sample store: two sides of two points each on either side. *)
Lemma C1_witness :
  exists l0 l1 l2 r0 r1 r2 ml mr nl vlen,
    attr_obj sample_internal 2 "_scal0_lhs"
    = Some (OView false [l0; l1; l2] vlen nopad)
    /\ attr_obj sample_internal 2 "_scal0_rhs"
       = Some (OView false [r0; r1; r2] vlen nopad)
    /\ attr_obj sample_internal 2 "_mag_pnorm_lhs"
       = Some (OConstMatrix ml nopad)
    /\ attr_obj sample_internal 2 "_mag_pnorm_rhs"
       = Some (OConstMatrix mr nopad)
    /\ attr_obj sample_internal 2 "_norm_pnorm_lhs"
       = Some (OConstMatrix nl nopad)
    /\ laid_out (view_frag sample_elemap "get_scal_fpts0_for_inter" 0)
         sample_lhs l0
    /\ laid_out (view_frag sample_elemap "get_scal_fpts0_for_inter" 1)
         sample_lhs l1
    /\ laid_out (view_frag sample_elemap "get_scal_fpts0_for_inter" 2)
         sample_lhs l2
    /\ laid_out (view_frag sample_elemap "get_scal_fpts0_for_inter" 0)
         sample_rhs r0
    /\ laid_out (view_frag sample_elemap "get_scal_fpts0_for_inter" 1)
         sample_rhs r1
    /\ laid_out (view_frag sample_elemap "get_scal_fpts0_for_inter" 2)
         sample_rhs r2
    /\ laid_out (mag_frag sample_elemap) sample_lhs ml
    /\ laid_out (mag_frag sample_elemap) sample_rhs mr
    /\ laid_out (norm_frag sample_elemap) sample_lhs nl.
Proof.
  refine (proj1 (C1_arrays_follow_side_order sample_store 2
                   EulerInternalInterfaces ∅ 0 sample_lhs sample_rhs
                   sample_elemap (VRef 1) sample_internal _ _ _ _ _)).
  - reflexivity.
  - reflexivity.
  - apply NoDup_singleton.
  - repeat constructor.
  - vm_compute. reflexivity.
Defined.



(** C4 on the sample store. *)
Lemma C4_witness :
  exists ML MR NL,
    get_mag_pnorm_mat sample_lhs sample_elemap = Ok ML /\
    get_mag_pnorm_mat sample_rhs sample_elemap = Ok MR /\
    get_norm_pnorm_mat sample_lhs sample_elemap = Ok NL /\
    attr_obj sample_internal 2 "_mag_pnorm_lhs"
    = Some (OConstMatrix ML nopad) /\
    attr_obj sample_internal 2 "_mag_pnorm_rhs"
    = Some (OConstMatrix MR nopad) /\
    attr_obj sample_internal 2 "_norm_pnorm_lhs"
    = Some (OConstMatrix NL nopad) /\
    const_matrices (drop (length sample_store) sample_internal)
    = [ML; MR; NL] /\
    attr_names sample_internal 2
    = attr_names sample_store 2 ∪
      {[ "_be"; "_cfg"; "ndims"; "nvars"; "_scal0_lhs"; "_scal0_rhs";
         "_mag_pnorm_lhs"; "_mag_pnorm_rhs"; "_norm_pnorm_lhs" ]} /\
    ("_norm_pnorm_rhs" ∈ attr_names sample_internal 2 <->
     "_norm_pnorm_rhs" ∈ attr_names sample_store 2).
Proof.
  refine (C4_only_lhs_unit_normal sample_store 2 EulerInternalInterfaces ∅ 0
            sample_lhs sample_rhs sample_elemap (VRef 1) sample_internal
            _ _ _).
  - reflexivity.
  - reflexivity.
  - vm_compute. reflexivity.
Defined.

(** C6 on the sample store: the distributed sets at 3 and at 5. *)
Lemma C6_witness :
  exists L1 L2 vlen1 vlen2 buf1 buf2,
    get_view_mats sample_lhs "get_scal_fpts0_for_inter" sample_elemap = Ok L1
    /\ get_view_mats sample_rhs "get_scal_fpts0_for_inter" sample_elemap
       = Ok L2 /\
    attr_obj sample_mpi_second 3 "_scal0_lhs"
    = Some (OView true L1 vlen1 nopad) /\
    attr_obj sample_mpi_second 5 "_scal0_lhs"
    = Some (OView true L2 vlen2 nopad) /\
    attr_val sample_mpi_second 3 "_scal0_rhs" = Some (VRef buf1) /\
    attr_val sample_mpi_second 5 "_scal0_rhs" = Some (VRef buf2) /\
    sample_mpi_second !! buf1
    = Some (OMPIMatrix (view_extents L1).1 (view_extents L1).2 vlen1) /\
    sample_mpi_second !! buf2
    = Some (OMPIMatrix (view_extents L2).1 (view_extents L2).2 vlen2) /\
    length sample_internal <= buf1 /\ length (sample_mpi ++ []) <= buf2 /\
    buf1 ≠ buf2.
Proof.
  refine (C6_own_receive_buffer sample_internal 0
            3 EulerMPIInterfaces ∅ sample_lhs (VInt 7) sample_elemap (VRef 1)
            sample_mpi []
            5 NavierStokesMPIInterfaces ∅ sample_rhs (VInt 8) sample_elemap
            (VRef 1) sample_mpi_second _ _ _ _ _ _).
  - vm_compute. reflexivity.
  - vm_compute. reflexivity.
  - vm_compute. reflexivity.
  - vm_compute. reflexivity.
  - lia.
  - vm_compute. reflexivity.
Defined.

(** C7, runs against the claim as stated: every type the sides refer to
    has the getter, yet the assembly raises, once because another entry of
    the map lacks it and once because the side list is empty. *)
Lemma C7_counterexample :
  Forall (fun s => exists e g,
            dict_get [("quad", sample_quad); ("tri", sample_tri)] (s_type s)
            = Ok e /\
            view_getters e "get_scal_fpts0_for_inter" = Some g) sample_lhs /\
  get_view_mats sample_lhs "get_scal_fpts0_for_inter"
    [("quad", sample_quad); ("tri", sample_tri)] = Raise AttributeError /\
  get_view_mats [] "get_scal_fpts0_for_inter" sample_elemap
  = Raise ValueError.
Proof.
  split; [|by vm_compute].
  repeat constructor; by eexists _, _.
Qed.

(** C7 on the sample element map. *)
Lemma C7_witness :
  (get_view_mats sample_lhs "get_scal_fpts1_for_inter"
     [("quad", sample_quad); ("tri", sample_tri)] = Raise AttributeError) /\
  is_ok (get_view_mats sample_lhs "get_scal_fpts0_for_inter" sample_elemap)
  = true.
Proof.
  split.
  - apply (proj1 (C7_missing_getter sample_lhs "get_scal_fpts1_for_inter"
                    [("quad", sample_quad); ("tri", sample_tri)])).
    apply Exists_cons_tl, Exists_cons_hd. reflexivity.
  - destruct (sample_assemblable sample_lhs) as (H1 & H2 & H3 & H4 & _);
      [done|done|].
    apply (proj2 (C7_missing_getter sample_lhs "get_scal_fpts0_for_inter"
                    sample_elemap)); try done.
    + apply NoDup_singleton.
    + repeat constructor. by eexists.
Defined.

(** C9 on the sample store. *)
Lemma C9_witness :
  BaseInterfaces_init 2 (VRef 0) [] (VRef 1) sample_store
  = (Raise StopIteration,
     <[2 := OInstance EulerInternalInterfaces
              (<["_cfg" := VRef 1]> (<["_be" := VRef 0]> ∅))]> sample_store)
  /\
  BaseInternalInterfaces_init 2 (VRef 0) sample_lhs sample_rhs [] (VRef 1)
    sample_store
  = (Raise StopIteration,
     <[2 := OInstance EulerInternalInterfaces
              (<["_cfg" := VRef 1]> (<["_be" := VRef 0]> ∅))]> sample_store).
Proof.
  pose proof (C9_empty_elemap_fails sample_store 2 EulerInternalInterfaces ∅
                (VRef 0) (VRef 1) sample_lhs sample_rhs (VInt 7)
                eq_refl) as H.
  cbv zeta in H. exact (conj (proj1 H) (proj1 (proj2 H))).
Defined.

(** C2 on the sample store: after the Navier-Stokes constructor the
    instance at 4 has no [_beta], and its getter raises. *)
Lemma C2_witness :
  attrs_of sample_ns 4 !! "_beta" = None /\
  call sample_float 4 get_conu_fpts_kern sample_ns
  = (Raise AttributeError, sample_ns).
Proof.
  assert (attrs_of sample_ns 4 !! "_beta" = None) as Hbeta
    by (vm_compute; reflexivity).
  split; [exact Hbeta|].
  refine (proj1 (proj2 (C2_conu_has_no_penalty_constant sample_float))
            sample_ns 4 (attrs_of sample_ns 4) _ Hbeta).
  vm_compute. reflexivity.
Defined.

(** * Further properties *)

(** ** Errors of the assemblers *)

Lemma dict_get_raise_inv {V} (d : list (string * V)) (k : string) e :
  dict_get d k = Raise e -> e = KeyError /\ k ∉ d.*1.
Proof.
  induction d as [|[k' v'] d IH]; simpl.
  - intros [= <-]. split; [done|]. apply not_elem_of_nil.
  - case_decide as Hk; [done|]. intros H. destruct (IH H) as [-> Hn].
    split; [done|]. by apply not_elem_of_cons.
Qed.

Lemma dict_set_keys {V} (k : string) (v : V) (d : list (string * V)) t :
  t ∈ (dict_set k v d).*1 <-> t = k \/ t ∈ d.*1.
Proof.
  induction d as [|[k' v'] d IH]; simpl.
  - set_solver.
  - case_decide as Hk; simpl; [subst; set_solver|].
    rewrite !elem_of_cons, IH. tauto.
Qed.

(** The getter map has the keys of the element map. *)
Lemma viewmatmap_from_keys mat items acc vmm t :
  viewmatmap_from mat items acc = Ok vmm ->
  t ∈ vmm.*1 <-> t ∈ items.*1 \/ t ∈ acc.*1.
Proof.
  revert acc. induction items as [|[k ele] items IH]; intros acc; simpl.
  - intros [= <-]. set_solver.
  - destruct (getattr_ele ele mat) as [g|]; [|done]. intros Hv.
    rewrite (IH _ Hv), dict_set_keys, elem_of_cons. tauto.
Qed.

Lemma list_comp_raise_inv {A B} (f : A -> result B) (xs : list A) e :
  list_comp f xs = Raise e -> exists x, x ∈ xs /\ f x = Raise e.
Proof.
  induction xs as [|x xs IH]; simpl; [done|].
  destruct (f x) as [b|e'] eqn:Hx.
  - destruct (list_comp f xs); [done|]. intros [= <-].
    destruct IH as (y & Hy & Hfy); [done|]. exists y. split; [by right|done].
  - intros [= <-]. exists x. split; [left|done].
Qed.

Lemma list_comp_is_ok {A B} (f : A -> result B) (xs : list A) :
  (forall x, x ∈ xs -> is_ok (f x) = true) -> is_ok (list_comp f xs) = true.
Proof.
  induction xs as [|x xs IH]; intros Hf; simpl; [done|].
  pose proof (Hf x ltac:(left)) as Hx.
  destruct (f x); [|done].
  assert (is_ok (list_comp f xs) = true) as Hxs
    by (apply IH; intros y Hy; apply Hf; by right).
  by destruct (list_comp f xs).
Qed.

(** A view assembly that returns has found the getter on every entry of
    the element map. *)
Lemma get_view_mats_ok_getters interside mat elemap mats :
  get_view_mats interside mat elemap = Ok mats ->
  Forall (fun te => is_Some (view_getters te.2 mat)) elemap.
Proof.
  unfold get_view_mats.
  destruct (viewmatmap_from mat elemap []) as [vmm|] eqn:Hv; [|done].
  intros _. apply Forall_forall. intros te Hte.
  destruct (view_getters te.2 mat) eqn:Hg; [by eexists|].
  assert (Exists (fun te => view_getters te.2 mat = None) elemap) as Hex
    by (apply Exists_exists; by exists te).
  apply (viewmatmap_from_exists_none mat elemap []) in Hex. congruence.
Qed.

(** X1.  A view assembly that returns has built three operands, each with
    a leading axis of extent one, from a side list that is not empty,
    over an element map in which every entry has the getter and which has
    the type of every side. *)
Theorem X1_view_mats_shape interside mat elemap mats :
  get_view_mats interside mat elemap = Ok mats ->
  length mats = 3 /\
  Forall (fun m => length m = 1) mats /\
  interside ≠ [] /\
  Forall (fun te => is_Some (view_getters te.2 mat)) elemap /\
  Forall (fun s => s_type s ∈ elemap.*1) interside.
Proof.
  unfold get_view_mats.
  destruct (viewmatmap_from mat elemap []) as [vmm|] eqn:Hv; simpl; [|done].
  destruct (scal_loop vmm interside []) as [scal|] eqn:Hs; simpl; [|done].
  destruct (np_concatenate (slice_step 0 3 scal)) as [a0|] eqn:H0; simpl;
    [|done].
  destruct (np_concatenate (slice_step 1 3 scal)) as [a1|] eqn:H1; simpl;
    [|done].
  destruct (np_concatenate (slice_step 2 3 scal)) as [a2|] eqn:H2; simpl;
    [|done].
  intros [= <-]. split; [done|]. split; [by repeat constructor|].
  split; [|split].
  - intros ->. simpl in Hs. injection Hs as <-. done.
  - apply Forall_forall. intros te Hte.
    destruct (view_getters te.2 mat) eqn:Hg; [by eexists|].
    assert (Exists (fun te => view_getters te.2 mat = None) elemap) as Hex
      by (apply Exists_exists; by exists te).
    apply (viewmatmap_from_exists_none mat elemap []) in Hex. congruence.
  - rewrite scal_loop_eq in Hs.
    destruct (list_comp _ interside) as [fs|] eqn:Hc; [|done].
    apply list_comp_inv in Hc. clear Hs.
    induction Hc as [|s f interside fs Hsf _ IH]; [done|].
    constructor; [|done].
    destruct (dict_get vmm (s_type s)) as [g|] eqn:Hg; [|done].
    apply dict_get_ok_elem in Hg.
    assert (s_type s ∈ vmm.*1) as Hin
      by (apply list_elem_of_fmap; by exists (s_type s, g)).
    apply (viewmatmap_from_keys _ _ _ _ _ Hv) in Hin as [Hin|Hin]; [done|].
    by apply elem_of_nil in Hin.
Qed.

(** The three ways a view assembly goes, by what the element map holds. *)
Lemma get_view_mats_cases interside mat elemap :
  (Exists (fun te => view_getters te.2 mat = None) elemap /\
   get_view_mats interside mat elemap = Raise AttributeError) \/
  (Forall (fun te => is_Some (view_getters te.2 mat)) elemap /\
   Exists (fun s => s_type s ∉ elemap.*1) interside /\
   get_view_mats interside mat elemap = Raise KeyError) \/
  (Forall (fun te => is_Some (view_getters te.2 mat)) elemap /\
   Forall (fun s => s_type s ∈ elemap.*1) interside /\
   (get_view_mats interside mat elemap = Raise ValueError \/
    exists mats, get_view_mats interside mat elemap = Ok mats)).
Proof.
  destruct (decide (Forall (fun te => is_Some (view_getters te.2 mat)) elemap))
    as [Hget|Hget].
  2:{ left. apply not_Forall_Exists in Hget; [|apply _].
      assert (Exists (fun te => view_getters te.2 mat = None) elemap) as Hex.
      { eapply Exists_impl; [exact Hget|]. simpl. intros te Hn.
        destruct (view_getters te.2 mat); [|done]. exfalso. by apply Hn. }
      split; [done|]. unfold get_view_mats.
      by rewrite (viewmatmap_from_exists_none mat elemap [] Hex). }
  right. unfold get_view_mats.
  destruct (viewmatmap_from_is_ok mat elemap [] Hget) as [vmm Hv].
  rewrite Hv. simpl.
  assert (forall t, t ∈ vmm.*1 <-> t ∈ elemap.*1) as Hkeys.
  { intros t. rewrite (viewmatmap_from_keys _ _ _ _ t Hv). set_solver. }
  destruct (decide (Forall (fun s => s_type s ∈ elemap.*1) interside))
    as [Hin|Hin].
  - right. split; [done|]. split; [done|].
    rewrite scal_loop_eq.
    assert (is_ok (list_comp (fun s => g ← dict_get vmm (s_type s);
                      Ok (g (s_eidx s) (s_face s) (s_rtag s))) interside)
            = true) as Hok.
    { apply list_comp_is_ok. intros s Hs. rewrite Forall_forall in Hin.
      destruct (dict_get_is_ok vmm (s_type s)) as [g ->]; [|done].
      by apply Hkeys, Hin. }
    destruct (list_comp _ interside) as [fs|]; [|done]. simpl.
    match goal with
    | |- ?X = Raise ValueError \/ _ => destruct X as [mats|e] eqn:Hc
    end; [right; by eexists|].
    left. by pose proof (concat_comp_raise (concat fs) [0; 1; 2] _ Hc) as ->.
  - left. split; [done|].
    apply not_Forall_Exists in Hin; [|apply _]. split; [done|].
    destruct (scal_loop vmm interside []) as [scal|e] eqn:Hs; simpl.
    + exfalso. rewrite scal_loop_eq in Hs.
      destruct (list_comp _ interside) as [fs|] eqn:Hc; [|done].
      apply list_comp_inv in Hc. apply Exists_exists in Hin as (s & Hs' & Hn).
      apply list_elem_of_lookup in Hs' as [i Hi].
      destruct (Forall2_lookup_l _ _ _ _ _ Hc Hi) as (f & _ & Hf).
      destruct (dict_get vmm (s_type s)) as [g|] eqn:Hg; [|done].
      apply dict_get_ok_elem in Hg. apply Hn, Hkeys.
      apply list_elem_of_fmap. by exists (s_type s, g).
    + by pose proof (scal_loop_raise _ _ _ _ Hs) as ->.
Qed.

(** X2.  [get_view_mats] raises nothing but [AttributeError], [KeyError]
    and [ValueError].  It raises [KeyError] exactly when every entry of
    the element map has the getter and the type of some side is not a key
    of the map; when it raises [ValueError], every entry has the getter
    and every side has its type in the map. *)
Theorem X2_view_mats_errors interside mat elemap :
  (get_view_mats interside mat elemap = Raise KeyError <->
   Forall (fun te => is_Some (view_getters te.2 mat)) elemap /\
   Exists (fun s => s_type s ∉ elemap.*1) interside) /\
  (forall e, get_view_mats interside mat elemap = Raise e ->
             e = AttributeError \/ e = KeyError \/ e = ValueError) /\
  (get_view_mats interside mat elemap = Raise ValueError ->
   Forall (fun te => is_Some (view_getters te.2 mat)) elemap /\
   Forall (fun s => s_type s ∈ elemap.*1) interside).
Proof.
  assert (forall l : list side,
            Forall (fun s => s_type s ∈ elemap.*1) l ->
            Exists (fun s => s_type s ∉ elemap.*1) l -> False) as Hexcl.
  { intros l Hall Hex. apply Exists_exists in Hex as (s & Hs & Hn).
    rewrite Forall_forall in Hall. by apply Hn, Hall. }
  destruct (get_view_mats_cases interside mat elemap)
    as [[Hex ->]|[(Hget & Hex & ->)|(Hget & Hin & [->|[mats ->]])]].
  - split; [split; [done|]|split; [intros e [= <-]; auto|done]].
    intros [Hget _]. apply Exists_exists in Hex as (te & Hte & Hn).
    rewrite Forall_forall in Hget. specialize (Hget te Hte).
    rewrite Hn in Hget. by destruct Hget.
  - split; [done|]. split; [intros e [= <-]; auto|done].
  - split; [split; [done|intros [_ Hex]; by destruct (Hexcl _ Hin Hex)]|].
    split; [intros e [= <-]; auto|done].
  - split; [split; [done|intros [_ Hex]; by destruct (Hexcl _ Hin Hex)]|].
    done.
Qed.

(** X3.  An empty side list is never assembled: [get_view_mats] raises
    [ValueError] when every entry of the element map has the getter and
    [AttributeError] otherwise, and the two normal assemblers raise
    [ValueError]. *)
Theorem X3_empty_side_list mat elemap :
  get_view_mats [] mat elemap =
    (if decide (Forall (fun te => is_Some (view_getters te.2 mat)) elemap)
     then Raise ValueError else Raise AttributeError) /\
  get_mag_pnorm_mat [] elemap = Raise ValueError /\
  get_norm_pnorm_mat [] elemap = Raise ValueError.
Proof.
  split; [|done]. unfold get_view_mats. case_decide as Hall.
  - destruct (viewmatmap_from_is_ok mat elemap [] Hall) as [vmm ->]. done.
  - apply not_Forall_Exists in Hall; [|apply _].
    rewrite (viewmatmap_from_exists_none mat elemap []); [done|].
    eapply Exists_impl; [exact Hall|]. simpl. intros te Hn.
    destruct (view_getters te.2 mat); [|done]. exfalso. by apply Hn.
Qed.

Lemma assemble_normals_raise getter interside elemap e :
  assemble_normals getter interside elemap = Raise e ->
  e = KeyError /\ Exists (fun s => s_type s ∉ elemap.*1) interside \/
  e = ValueError /\ Forall (fun s => s_type s ∈ elemap.*1) interside.
Proof.
  unfold assemble_normals.
  destruct (list_comp _ interside) as [arrs|e'] eqn:Hc; simpl.
  - destruct (np_concatenate arrs) as [a|e'] eqn:Ha; simpl; [done|].
    intros [= <-]. right. split; [by apply np_concatenate_raise in Ha|].
    apply list_comp_inv in Hc. clear Ha.
    induction Hc as [|s b interside arrs Hs _ IH]; [done|].
    constructor; [|done].
    destruct (dict_get elemap (s_type s)) as [ele|] eqn:Hele; [|done].
    apply dict_get_ok_elem in Hele.
    apply list_elem_of_fmap. by exists (s_type s, ele).
  - intros [= <-]. left.
    apply list_comp_raise_inv in Hc as (s & Hin & Hf).
    destruct (dict_get elemap (s_type s)) as [ele|e''] eqn:Hele; [done|].
    simpl in Hf. injection Hf as ->.
    apply dict_get_raise_inv in Hele as [-> Hn]. split; [done|].
    apply Exists_exists. by exists s.
Qed.

Lemma assemble_normals_key_error getter interside elemap :
  assemble_normals getter interside elemap = Raise KeyError <->
  Exists (fun s => s_type s ∉ elemap.*1) interside.
Proof.
  split.
  - intros H. by apply assemble_normals_raise in H as [[_ H]|[? _]].
  - intros Hex.
    destruct (assemble_normals getter interside elemap) as [m|e] eqn:Hm.
    + apply assemble_normals_inv in Hm as (_ & _ & Hall).
      apply Exists_exists in Hex as (s & Hs & Hn).
      rewrite Forall_forall in Hall. by destruct (Hn (Hall s Hs)).
    + apply assemble_normals_raise in Hm as [[-> _]|[_ Hall]]; [done|].
      apply Exists_exists in Hex as (s & Hs & Hn).
      rewrite Forall_forall in Hall. by destruct (Hn (Hall s Hs)).
Qed.

(** X4.  Each normal assembler raises [KeyError] exactly when the type of
    some side is not a key of the element map, whatever view getters the
    elements have; the only other exception it raises is [ValueError], and
    the two assemblers raise [KeyError] on the same inputs. *)
Theorem X4_normals_key_error interside elemap :
  (get_mag_pnorm_mat interside elemap = Raise KeyError <->
   Exists (fun s => s_type s ∉ elemap.*1) interside) /\
  (get_norm_pnorm_mat interside elemap = Raise KeyError <->
   Exists (fun s => s_type s ∉ elemap.*1) interside) /\
  (forall e, get_mag_pnorm_mat interside elemap = Raise e \/
             get_norm_pnorm_mat interside elemap = Raise e ->
             e = KeyError \/ e = ValueError).
Proof.
  rewrite get_mag_pnorm_mat_eq, get_norm_pnorm_mat_eq.
  split; [apply assemble_normals_key_error|].
  split; [apply assemble_normals_key_error|].
  intros e [H|H]; apply assemble_normals_raise in H as [[-> _]|[-> _]]; auto.
Qed.

(** ** Splitting a side list *)

Lemma list_comp_app {A B} (f : A -> result B) (xs ys : list A) :
  list_comp f (xs ++ ys) =
  (bs ← list_comp f xs; cs ← list_comp f ys; Ok (bs ++ cs)).
Proof.
  induction xs as [|x xs IH]; simpl.
  - by destruct (list_comp f ys).
  - destruct (f x) as [b|]; simpl; [|done]. rewrite IH.
    destruct (list_comp f xs) as [bs|]; simpl; [|done].
    by destruct (list_comp f ys).
Qed.

Lemma list_comp_length {A B} (f : A -> result B) (xs : list A) bs :
  list_comp f xs = Ok bs -> length bs = length xs.
Proof.
  intros H. apply list_comp_inv in H. symmetry. by eapply Forall2_length.
Qed.

Lemma mapM_app_option {A B} (f : A -> option B) (xs ys : list A) :
  mapM f (xs ++ ys)
  = match mapM f xs, mapM f ys with
    | Some bs, Some cs => Some (bs ++ cs)
    | _, _ => None
    end.
Proof.
  induction xs as [|x xs IH]; simpl.
  - by destruct (mapM f ys).
  - destruct (f x) as [b|]; simpl; [|done]. rewrite IH.
    destruct (mapM f xs) as [bs|]; simpl; [|done].
    by destruct (mapM f ys).
Qed.

(** Converting after joining, or before. *)
Lemma float_rows_join (t : list nat) (arrs : list ndarray) :
  float_rows (NDArray t (join_entries arrs)) = concat (map float_rows arrs).
Proof.
  unfold join_entries, float_rows at 1. simpl.
  destruct (mapM int_rows arrs) as [rows|] eqn:Hm; [|done].
  apply mapM_Some in Hm.
  induction Hm as [|a r arrs rows Har _ IH]; [done|]. simpl.
  rewrite map_app, IH. f_equal.
  unfold float_rows, int_rows in *. destruct (nd_entries a); [|done].
  by injection Har as ->.
Qed.

(** Joining at once, or each part first. *)
Lemma join_entries_app (t1 t2 : list nat) (xs ys : list ndarray) :
  join_entries (xs ++ ys)
  = join_entries [NDArray t1 (join_entries xs); NDArray t2 (join_entries ys)].
Proof.
  unfold join_entries at 1 2.
  rewrite mapM_app_option.
  assert (forall t l,
            int_rows (NDArray t (join_entries l))
            = match mapM int_rows l with
              | Some rows => Some (concat rows)
              | None => None
              end) as Hint.
  { intros t l. unfold join_entries.
    by destruct (mapM int_rows l). }
  simpl. rewrite !Hint, !float_rows_join, map_app, concat_app, app_nil_r.
  destruct (mapM int_rows xs) as [r1|]; simpl; [|done].
  destruct (mapM int_rows ys) as [r2|]; simpl; [|done].
  by rewrite concat_app, app_nil_r.
Qed.

(** Concatenating two non-empty sequences at once, or each one first. *)
Lemma np_concatenate_app (xs ys : list ndarray) (a : ndarray) :
  xs ≠ [] -> ys ≠ [] ->
  np_concatenate (xs ++ ys) = Ok a <->
  exists a1 a2, np_concatenate xs = Ok a1 /\ np_concatenate ys = Ok a2 /\
                nd_tail a2 = nd_tail a1 /\ a = nd_append a1 a2.
Proof.
  destruct xs as [|x xs]; [done|]. destruct ys as [|y ys]; [done|].
  intros _ _.
  assert (np_concatenate ((x :: xs) ++ y :: ys)
          = if bool_decide (Forall (fun b => nd_tail b = nd_tail x)
                              (xs ++ y :: ys))
            then Ok (nd_append (NDArray (nd_tail x) (join_entries (x :: xs)))
                               (NDArray (nd_tail y) (join_entries (y :: ys))))
            else Raise ValueError) as ->.
  { simpl. case_bool_decide; [|done]. unfold nd_append. simpl.
    by rewrite <- (join_entries_app _ _ (x :: xs) (y :: ys)). }
  simpl. split.
  - case_bool_decide as Hall; [|done]. intros [= <-].
    apply Forall_app in Hall as [Hx Hy]. apply Forall_cons in Hy as [Hy Hys].
    rewrite bool_decide_eq_true_2 by done.
    rewrite bool_decide_eq_true_2
      by (eapply Forall_impl; [exact Hys|]; simpl; congruence).
    by eexists _, _.
  - intros (a1 & a2 & H1 & H2 & Ht & ->).
    case_bool_decide as Hx; [|done]. case_bool_decide as Hy; [|done].
    injection H1 as <-. injection H2 as <-. simpl in Ht.
    rewrite bool_decide_eq_true_2; [done|].
    apply Forall_app. split; [done|]. constructor; [done|].
    eapply Forall_impl; [exact Hx|]. simpl. congruence.
Qed.

Lemma assemble_normals_app getter l1 l2 elemap m :
  l1 ≠ [] -> l2 ≠ [] ->
  assemble_normals getter (l1 ++ l2) elemap = Ok m <->
  exists a1 a2, assemble_normals getter l1 elemap = Ok [a1] /\
                assemble_normals getter l2 elemap = Ok [a2] /\
                nd_tail a2 = nd_tail a1 /\ m = [nd_append a1 a2].
Proof.
  intros Hn1 Hn2. unfold assemble_normals. rewrite list_comp_app.
  destruct (list_comp _ l1) as [bs|] eqn:H1; simpl;
    [|split; [done|by intros (? & ? & ? & _)]].
  destruct (list_comp _ l2) as [cs|] eqn:H2; simpl;
    [|split; [done|by intros (? & ? & _ & ? & _)]].
  assert (bs ≠ []) as Hb
    by (apply list_comp_length in H1; destruct bs, l1; done).
  assert (cs ≠ []) as Hc
    by (apply list_comp_length in H2; destruct cs, l2; done).
  split.
  - destruct (np_concatenate (bs ++ cs)) as [a|] eqn:Ha; simpl; [|done].
    intros [= <-].
    apply np_concatenate_app in Ha as (a1 & a2 & -> & -> & Ht & ->);
      [|done|done].
    by exists a1, a2.
  - intros (a1 & a2 & Ha1 & Ha2 & Ht & ->).
    destruct (np_concatenate bs) as [b|] eqn:Hbs; simpl in Ha1; [|done].
    destruct (np_concatenate cs) as [c|] eqn:Hcs; simpl in Ha2; [|done].
    unfold newaxis in *. injection Ha1 as ->. injection Ha2 as ->.
    assert (np_concatenate (bs ++ cs) = Ok (nd_append a1 a2)) as ->; [|done].
    apply np_concatenate_app; [done|done|]. by exists a1, a2.
Qed.

(** X5.  A normal assembler succeeds on two non-empty side lists put end
    to end exactly when it succeeds on each and the two arrays have the
    same trailing shape; the array of the whole is then what
    [np.concatenate] makes of the array of the first list and the array
    of the second: the first followed by the second, both in doubles when
    either is. *)
Theorem X5_normals_split l1 l2 elemap m :
  l1 ≠ [] -> l2 ≠ [] ->
  (get_mag_pnorm_mat (l1 ++ l2) elemap = Ok m <->
   exists a1 a2, get_mag_pnorm_mat l1 elemap = Ok [a1] /\
                 get_mag_pnorm_mat l2 elemap = Ok [a2] /\
                 nd_tail a2 = nd_tail a1 /\ m = [nd_append a1 a2]) /\
  (get_norm_pnorm_mat (l1 ++ l2) elemap = Ok m <->
   exists a1 a2, get_norm_pnorm_mat l1 elemap = Ok [a1] /\
                 get_norm_pnorm_mat l2 elemap = Ok [a2] /\
                 nd_tail a2 = nd_tail a1 /\ m = [nd_append a1 a2]).
Proof.
  intros Hn1 Hn2. rewrite !get_mag_pnorm_mat_eq, !get_norm_pnorm_mat_eq.
  split; by apply assemble_normals_app.
Qed.

(** With unique keys and three fragments per side, the [k]-th operand is
    the concatenation of the [k]-th fragments of the sides. *)
Lemma get_view_mats_columns interside mat elemap :
  NoDup elemap.*1 ->
  Forall (fun te => is_Some (view_getters te.2 mat)) elemap ->
  Forall (fun s => length (side_frags elemap mat s) = 3) interside ->
  get_view_mats interside mat elemap =
  list_comp (fun k =>
      a ← np_concatenate (omap (fun f : list ndarray => f !! k)
                               (map (side_frags elemap mat) interside));
      Ok (newaxis a)) [0; 1; 2].
Proof.
  intros Hnd Hget H3. unfold get_view_mats.
  destruct (viewmatmap_from_is_ok mat elemap [] Hget) as [vmm Hv].
  rewrite Hv. simpl. rewrite scal_loop_eq.
  rewrite (side_frags_comp _ _ _ _ Hnd Hv).
  - simpl. by rewrite !slice_step_triples by (by apply Forall_fmap || lia).
  - eapply Forall_impl; [exact H3|]. simpl. intros s Hs.
    unfold side_frags in Hs.
    destruct (dict_get elemap (s_type s)) as [ele|] eqn:Hele; [|done].
    apply dict_get_ok_elem in Hele.
    apply list_elem_of_fmap. by exists (s_type s, ele).
Qed.

Lemma column_ne {A} (fs : list (list A)) (k : nat) :
  fs ≠ [] -> Forall (fun f => length f = 3) fs -> k < 3 ->
  omap (fun f : list A => f !! k) fs ≠ [].
Proof.
  destruct fs as [|f fs]; [done|]. intros _ Hf Hk.
  apply Forall_cons in Hf as [Hf _]. simpl.
  destruct (lookup_lt_is_Some_2 f k) as [a ->]; [lia|done].
Qed.

(** X6.  Over an element map with unique keys and view getters returning
    three fragments, [get_view_mats] succeeds on two non-empty side lists
    put end to end exactly when it succeeds on each and the operands have
    the same trailing shapes; each operand of the whole is then what
    [np.concatenate] makes of the operand of the first list and the
    operand of the second: the first followed by the second, both in
    doubles when either is. *)
Theorem X6_views_split l1 l2 mat elemap mats :
  NoDup elemap.*1 ->
  Forall (fun s => length (side_frags elemap mat s) = 3) (l1 ++ l2) ->
  l1 ≠ [] -> l2 ≠ [] ->
  get_view_mats (l1 ++ l2) mat elemap = Ok mats <->
  exists a0 a1 a2 b0 b1 b2,
    get_view_mats l1 mat elemap = Ok [[a0]; [a1]; [a2]] /\
    get_view_mats l2 mat elemap = Ok [[b0]; [b1]; [b2]] /\
    nd_tail b0 = nd_tail a0 /\ nd_tail b1 = nd_tail a1 /\
    nd_tail b2 = nd_tail a2 /\
    mats = [[nd_append a0 b0]; [nd_append a1 b1]; [nd_append a2 b2]].
Proof.
  intros Hnd H3 Hn1 Hn2.
  pose proof H3 as H3'. apply Forall_app in H3' as [H31 H32].
  assert (forall k, k < 3 ->
    omap (fun f : list ndarray => f !! k) (map (side_frags elemap mat) l1)
      ≠ []) as Hc1.
  { intros k Hk. apply column_ne; [by destruct l1|by apply Forall_fmap|done]. }
  assert (forall k, k < 3 ->
    omap (fun f : list ndarray => f !! k) (map (side_frags elemap mat) l2)
      ≠ []) as Hc2.
  { intros k Hk. apply column_ne; [by destruct l2|by apply Forall_fmap|done]. }
  assert (forall k a, k < 3 ->
    np_concatenate (omap (fun f : list ndarray => f !! k)
                      (map (side_frags elemap mat) (l1 ++ l2))) = Ok a <->
    exists a1 a2,
      np_concatenate (omap (fun f : list ndarray => f !! k)
                        (map (side_frags elemap mat) l1)) = Ok a1 /\
      np_concatenate (omap (fun f : list ndarray => f !! k)
                        (map (side_frags elemap mat) l2)) = Ok a2 /\
      nd_tail a2 = nd_tail a1 /\ a = nd_append a1 a2) as Hcol.
  { intros k a Hk. rewrite map_app, omap_app.
    apply np_concatenate_app; auto. }
  split.
  - intros Hm.
    pose proof (get_view_mats_ok_getters _ _ _ _ Hm) as Hget.
    rewrite get_view_mats_columns in Hm by done.
    rewrite !get_view_mats_columns by done.
    simpl in *.
    destruct (np_concatenate (omap (fun f : list ndarray => f !! 0)
                (map _ (l1 ++ l2)))) as [c0|] eqn:E0; simpl in Hm; [|done].
    destruct (np_concatenate (omap (fun f : list ndarray => f !! 1)
                (map _ (l1 ++ l2)))) as [c1|] eqn:E1; simpl in Hm; [|done].
    destruct (np_concatenate (omap (fun f : list ndarray => f !! 2)
                (map _ (l1 ++ l2)))) as [c2|] eqn:E2; simpl in Hm; [|done].
    injection Hm as <-.
    apply Hcol in E0 as (a0 & b0 & -> & -> & T0 & ->); [|lia].
    apply Hcol in E1 as (a1 & b1 & -> & -> & T1 & ->); [|lia].
    apply Hcol in E2 as (a2 & b2 & -> & -> & T2 & ->); [|lia].
    by exists a0, a1, a2, b0, b1, b2.
  - intros (a0 & a1 & a2 & b0 & b1 & b2 & Ha & Hb & T0 & T1 & T2 & ->).
    pose proof (get_view_mats_ok_getters _ _ _ _ Ha) as Hget.
    rewrite get_view_mats_columns in Ha, Hb by done.
    rewrite get_view_mats_columns by done.
    simpl in *.
    destruct (np_concatenate (omap (fun f : list ndarray => f !! 0)
                (map _ l1))) as [x0|] eqn:A0; simpl in Ha; [|done].
    destruct (np_concatenate (omap (fun f : list ndarray => f !! 1)
                (map _ l1))) as [x1|] eqn:A1; simpl in Ha; [|done].
    destruct (np_concatenate (omap (fun f : list ndarray => f !! 2)
                (map _ l1))) as [x2|] eqn:A2; simpl in Ha; [|done].
    destruct (np_concatenate (omap (fun f : list ndarray => f !! 0)
                (map _ l2))) as [y0|] eqn:B0; simpl in Hb; [|done].
    destruct (np_concatenate (omap (fun f : list ndarray => f !! 1)
                (map _ l2))) as [y1|] eqn:B1; simpl in Hb; [|done].
    destruct (np_concatenate (omap (fun f : list ndarray => f !! 2)
                (map _ l2))) as [y2|] eqn:B2; simpl in Hb; [|done].
    unfold newaxis in *. simplify_eq.
    assert (np_concatenate (omap (fun f : list ndarray => f !! 0)
              (map (side_frags elemap mat) (l1 ++ l2)))
            = Ok (nd_append a0 b0)) as ->
      by (apply Hcol; [lia|]; by exists a0, b0).
    assert (np_concatenate (omap (fun f : list ndarray => f !! 1)
              (map (side_frags elemap mat) (l1 ++ l2)))
            = Ok (nd_append a1 b1)) as ->
      by (apply Hcol; [lia|]; by exists a1, b1).
    assert (np_concatenate (omap (fun f : list ndarray => f !! 2)
              (map (side_frags elemap mat) (l1 ++ l2)))
            = Ok (nd_append a2 b2)) as ->
      by (apply Hcol; [lia|]; by exists a2, b2).
    done.
Qed.

(** ** The Navier-Stokes constructors *)

(** The outcome of [NavierStokesInternalInterfaces.__init__] when every
    assembler call succeeds. *)
Lemma NavierStokesInternalInterfaces_init_ok base self c attrs news b lhs rhs
    elemap cfg e L R ML MR NL L1 R1 :
  self < length base -> b ≠ self -> base !! b = Some OBackend ->
  next_viewvalues elemap = Ok e ->
  get_view_mats lhs "get_scal_fpts0_for_inter" elemap = Ok L ->
  get_view_mats rhs "get_scal_fpts0_for_inter" elemap = Ok R ->
  get_mag_pnorm_mat lhs elemap = Ok ML ->
  get_mag_pnorm_mat rhs elemap = Ok MR ->
  get_norm_pnorm_mat lhs elemap = Ok NL ->
  get_view_mats lhs "get_scal_fpts1_for_inter" elemap = Ok L1 ->
  get_view_mats rhs "get_scal_fpts1_for_inter" elemap = Ok R1 ->
  NavierStokesInternalInterfaces_init self (VRef b) lhs rhs elemap cfg
    (store base self c attrs news)
  = (Ok (),
     store base self c
       (ns_internal_attrs (VRef b) cfg e (length base + length news) attrs)
       (news ++ [OView false L (VInt (nvars e)) nopad;
                 OView false R (VInt (nvars e)) nopad;
                 OConstMatrix ML nopad;
                 OConstMatrix MR nopad;
                 OConstMatrix NL nopad;
                 OView false L1 (VInt (nvars e)) nopad;
                 OView false R1 (VInt (nvars e)) nopad])).
Proof.
  intros Hs Hb Hbe He HL HR HML HMR HNL HL1 HR1.
  unfold NavierStokesInternalInterfaces_init.
  erewrite bind_ok by (by eapply BaseInternalInterfaces_init_ok).
  repeat run_step.
  rewrite ?setattr_store by done.
  rewrite <- ?app_assoc, ?length_app. simpl.
  unfold ns_internal_attrs. rewrite ?Nat.add_assoc. reflexivity.
Qed.

(** When the primary assembly succeeds and an auxiliary one raises, the
    constructor raises with the five primary objects allocated. *)
Lemma NavierStokesInternalInterfaces_init_late base self c attrs news b lhs
    rhs elemap cfg e L R ML MR NL :
  self < length base -> b ≠ self -> base !! b = Some OBackend ->
  next_viewvalues elemap = Ok e ->
  get_view_mats lhs "get_scal_fpts0_for_inter" elemap = Ok L ->
  get_view_mats rhs "get_scal_fpts0_for_inter" elemap = Ok R ->
  get_mag_pnorm_mat lhs elemap = Ok ML ->
  get_mag_pnorm_mat rhs elemap = Ok MR ->
  get_norm_pnorm_mat lhs elemap = Ok NL ->
  is_ok (get_view_mats lhs "get_scal_fpts1_for_inter" elemap)
  && is_ok (get_view_mats rhs "get_scal_fpts1_for_inter" elemap) = false ->
  exists ex,
    (get_view_mats lhs "get_scal_fpts1_for_inter" elemap = Raise ex \/
     get_view_mats rhs "get_scal_fpts1_for_inter" elemap = Raise ex) /\
    NavierStokesInternalInterfaces_init self (VRef b) lhs rhs elemap cfg
      (store base self c attrs news)
    = (Raise ex,
       store base self c
         (internal_attrs (VRef b) cfg e (length base + length news) attrs)
         (news ++ [OView false L (VInt (nvars e)) nopad;
                   OView false R (VInt (nvars e)) nopad;
                   OConstMatrix ML nopad;
                   OConstMatrix MR nopad;
                   OConstMatrix NL nopad])).
Proof.
  intros Hs Hb Hbe He HL HR HML HMR HNL Hno.
  unfold NavierStokesInternalInterfaces_init.
  erewrite bind_ok by (by eapply BaseInternalInterfaces_init_ok).
  destruct (get_view_mats lhs "get_scal_fpts1_for_inter" elemap)
    as [L1|ex] eqn:HL1.
  - destruct (get_view_mats rhs "get_scal_fpts1_for_inter" elemap)
      as [R1|ex] eqn:HR1; [done|].
    exists ex. split; [by right|]. by rewrite lift_ok with (a := L1).
  - exists ex. split; [by left|done].
Qed.

(** The outcome of [NavierStokesMPIInterfaces.__init__] when every
    assembler call succeeds. *)
Lemma NavierStokesMPIInterfaces_init_ok base self c attrs news b lhs rhsrank
    elemap cfg e L ML NL L1 :
  self < length base -> b ≠ self -> base !! b = Some OBackend ->
  next_viewvalues elemap = Ok e ->
  get_view_mats lhs "get_scal_fpts0_for_inter" elemap = Ok L ->
  get_mag_pnorm_mat lhs elemap = Ok ML ->
  get_norm_pnorm_mat lhs elemap = Ok NL ->
  get_view_mats lhs "get_scal_fpts1_for_inter" elemap = Ok L1 ->
  NavierStokesMPIInterfaces_init self (VRef b) lhs rhsrank elemap cfg
    (store base self c attrs news)
  = (Ok (),
     store base self c
       (ns_mpi_attrs (VRef b) cfg rhsrank e (length base + length news) attrs)
       (news ++ [OView true L (VInt (nvars e)) nopad;
                 OMPIMatrix (view_extents L).1 (view_extents L).2
                            (VInt (nvars e));
                 OConstMatrix ML nopad;
                 OConstMatrix NL nopad;
                 OView true L1 (VInt (nvars e)) nopad])).
Proof.
  intros Hs Hb Hbe He HL HML HNL HL1.
  unfold NavierStokesMPIInterfaces_init.
  erewrite bind_ok by (by eapply BaseMPIInterfaces_init_ok).
  repeat run_step.
  rewrite ?setattr_store by done.
  rewrite <- ?app_assoc, ?length_app. simpl.
  unfold ns_mpi_attrs. rewrite ?Nat.add_assoc. reflexivity.
Qed.

Lemma NavierStokesInternalInterfaces_init_inv h self c attrs b lhs rhs elemap
    cfg h' :
  h !! self = Some (OInstance c attrs) -> h !! b = Some OBackend ->
  NavierStokesInternalInterfaces_init self (VRef b) lhs rhs elemap cfg h
  = (Ok (), h') ->
  exists e L R ML MR NL L1 R1,
    next_viewvalues elemap = Ok e /\
    get_view_mats lhs "get_scal_fpts0_for_inter" elemap = Ok L /\
    get_view_mats rhs "get_scal_fpts0_for_inter" elemap = Ok R /\
    get_mag_pnorm_mat lhs elemap = Ok ML /\
    get_mag_pnorm_mat rhs elemap = Ok MR /\
    get_norm_pnorm_mat lhs elemap = Ok NL /\
    get_view_mats lhs "get_scal_fpts1_for_inter" elemap = Ok L1 /\
    get_view_mats rhs "get_scal_fpts1_for_inter" elemap = Ok R1 /\
    h' = store h self c (ns_internal_attrs (VRef b) cfg e (length h) attrs)
           [OView false L (VInt (nvars e)) nopad;
            OView false R (VInt (nvars e)) nopad;
            OConstMatrix ML nopad;
            OConstMatrix MR nopad;
            OConstMatrix NL nopad;
            OView false L1 (VInt (nvars e)) nopad;
            OView false R1 (VInt (nvars e)) nopad].
Proof.
  intros Hself Hbe. destruct (instance_not_backend _ _ _ _ _ Hself Hbe)
    as [Hlt Hne].
  destruct (BaseInternalInterfaces_init self (VRef b) lhs rhs elemap cfg h)
    as [[[]|ex] h0] eqn:Hbase.
  2:{ unfold NavierStokesInternalInterfaces_init.
      by erewrite bind_raise by exact Hbase. }
  destruct (BaseInternalInterfaces_init_inv _ _ _ _ _ _ _ _ _ _ Hself Hbe Hbase)
    as (e & L & R & ML & MR & NL & He & HL & HR & HML & HMR & HNL & _).
  clear Hbase h0. rewrite (store_start _ _ _ _ Hself) at 1.
  destruct (is_ok (get_view_mats lhs "get_scal_fpts1_for_inter" elemap)
    && is_ok (get_view_mats rhs "get_scal_fpts1_for_inter" elemap)) eqn:Hall.
  - apply andb_true_iff in Hall as [Ho1 Ho2].
    destruct (is_ok_true _ Ho1) as [L1 HL1].
    destruct (is_ok_true _ Ho2) as [R1 HR1].
    rewrite (NavierStokesInternalInterfaces_init_ok _ _ _ _ _ _ _ _ _ _
               e L R ML MR NL L1 R1) by done.
    intros [= <-]. exists e, L, R, ML, MR, NL, L1, R1.
    simpl. by rewrite Nat.add_0_r.
  - destruct (NavierStokesInternalInterfaces_init_late h self c attrs [] b lhs
                rhs elemap cfg e L R ML MR NL Hlt Hne Hbe He HL HR HML HMR HNL
                Hall) as (ex & _ & ->).
    done.
Qed.

Lemma NavierStokesMPIInterfaces_init_inv h self c attrs b lhs rhsrank elemap
    cfg h' :
  h !! self = Some (OInstance c attrs) -> h !! b = Some OBackend ->
  NavierStokesMPIInterfaces_init self (VRef b) lhs rhsrank elemap cfg h
  = (Ok (), h') ->
  exists e L ML NL L1,
    next_viewvalues elemap = Ok e /\
    get_view_mats lhs "get_scal_fpts0_for_inter" elemap = Ok L /\
    get_mag_pnorm_mat lhs elemap = Ok ML /\
    get_norm_pnorm_mat lhs elemap = Ok NL /\
    get_view_mats lhs "get_scal_fpts1_for_inter" elemap = Ok L1 /\
    h' = store h self c
           (ns_mpi_attrs (VRef b) cfg rhsrank e (length h) attrs)
           [OView true L (VInt (nvars e)) nopad;
            OMPIMatrix (view_extents L).1 (view_extents L).2
                       (VInt (nvars e));
            OConstMatrix ML nopad;
            OConstMatrix NL nopad;
            OView true L1 (VInt (nvars e)) nopad].
Proof.
  intros Hself Hbe. destruct (instance_not_backend _ _ _ _ _ Hself Hbe)
    as [Hlt Hne].
  destruct (BaseMPIInterfaces_init self (VRef b) lhs rhsrank elemap cfg h)
    as [[[]|ex] h0] eqn:Hbase.
  2:{ unfold NavierStokesMPIInterfaces_init.
      by erewrite bind_raise by exact Hbase. }
  destruct (BaseMPIInterfaces_init_inv _ _ _ _ _ _ _ _ _ _ Hself Hbe Hbase)
    as (e & L & ML & NL & He & HL & HML & HNL & _).
  clear Hbase h0. rewrite (store_start _ _ _ _ Hself) at 1.
  destruct (get_view_mats lhs "get_scal_fpts1_for_inter" elemap)
    as [L1|ex] eqn:HL1.
  - rewrite (NavierStokesMPIInterfaces_init_ok _ _ _ _ _ _ _ _ _ _
               e L ML NL L1) by done.
    intros [= <-]. exists e, L, ML, NL, L1.
    simpl. by rewrite Nat.add_0_r.
  - unfold NavierStokesMPIInterfaces_init.
    erewrite bind_ok by (by eapply BaseMPIInterfaces_init_ok).
    by erewrite lift_raise by done.
Qed.

Ltac solve_ns_attr :=
  unfold ns_internal_attrs, ns_mpi_attrs; solve_attr.

(** X7.  A successful [NavierStokesInternalInterfaces.__init__] has run
    the eight assembler calls with success, the two auxiliary ones on the
    getter [get_scal_fpts1_for_inter] over the same side lists; it has
    allocated seven objects, the five of the base constructor and then the
    two auxiliary views, bound to [_scal1_lhs] and [_scal1_rhs], with
    [nvars] of the first element as vector length; the names it binds are
    the eleven listed, and every other object is as before. *)
Theorem X7_navier_stokes_internal_init h self c attrs b lhs rhs elemap cfg
    h' :
  h !! self = Some (OInstance c attrs) ->
  h !! b = Some OBackend ->
  NavierStokesInternalInterfaces_init self (VRef b) lhs rhs elemap cfg h
  = (Ok (), h') ->
  exists e L R ML MR NL L1 R1,
    next_viewvalues elemap = Ok e /\
    get_view_mats lhs "get_scal_fpts0_for_inter" elemap = Ok L /\
    get_view_mats rhs "get_scal_fpts0_for_inter" elemap = Ok R /\
    get_mag_pnorm_mat lhs elemap = Ok ML /\
    get_mag_pnorm_mat rhs elemap = Ok MR /\
    get_norm_pnorm_mat lhs elemap = Ok NL /\
    get_view_mats lhs "get_scal_fpts1_for_inter" elemap = Ok L1 /\
    get_view_mats rhs "get_scal_fpts1_for_inter" elemap = Ok R1 /\
    drop (length h) h'
    = [OView false L (VInt (nvars e)) nopad;
       OView false R (VInt (nvars e)) nopad;
       OConstMatrix ML nopad; OConstMatrix MR nopad; OConstMatrix NL nopad;
       OView false L1 (VInt (nvars e)) nopad;
       OView false R1 (VInt (nvars e)) nopad] /\
    attr_obj h' self "_scal1_lhs"
    = Some (OView false L1 (VInt (nvars e)) nopad) /\
    attr_obj h' self "_scal1_rhs"
    = Some (OView false R1 (VInt (nvars e)) nopad) /\
    attr_names h' self
    = attr_names h self ∪
      {[ "_be"; "_cfg"; "ndims"; "nvars"; "_scal0_lhs"; "_scal0_rhs";
         "_mag_pnorm_lhs"; "_mag_pnorm_rhs"; "_norm_pnorm_lhs";
         "_scal1_lhs"; "_scal1_rhs" ]} /\
    (forall l, l ≠ self -> l < length h -> h' !! l = h !! l).
Proof.
  intros Hself Hbe Hrun.
  destruct (instance_not_backend _ _ _ _ _ Hself Hbe) as [Hlt Hne].
  destruct (NavierStokesInternalInterfaces_init_inv _ _ _ _ _ _ _ _ _ _
              Hself Hbe Hrun)
    as (e & L & R & ML & MR & NL & L1 & R1 & He & HL & HR & HML & HMR & HNL
        & HL1 & HR1 & ->).
  exists e, L, R, ML, MR, NL, L1, R1. repeat (split; [done|]).
  split; [by rewrite drop_store|].
  split; [eapply (attr_obj_store _ _ _ _ _ _ 5); [done|solve_ns_attr|done]|].
  split; [eapply (attr_obj_store _ _ _ _ _ _ 6); [done|solve_ns_attr|done]|].
  split.
  - unfold attr_names. rewrite store_lookup_self, Hself by done.
    unfold ns_internal_attrs, internal_attrs, base_attrs.
    rewrite !dom_insert_L. set_solver.
  - intros l Hl Hlt'. by apply store_lookup_base.
Qed.

(** X8.  When the base constructor succeeds and an auxiliary view
    assembly raises, [NavierStokesInternalInterfaces.__init__] raises that
    exception and leaves the store as the base constructor made it: the
    instance carries its nine base attributes and the five backend objects
    stay allocated.  This is what happens, with [AttributeError], when an
    element type of the map lacks [get_scal_fpts1_for_inter]. *)
Theorem X8_navier_stokes_internal_late_failure h self c attrs b lhs rhs elemap
    cfg h0 :
  h !! self = Some (OInstance c attrs) ->
  h !! b = Some OBackend ->
  BaseInternalInterfaces_init self (VRef b) lhs rhs elemap cfg h
  = (Ok (), h0) ->
  is_ok (get_view_mats lhs "get_scal_fpts1_for_inter" elemap)
  && is_ok (get_view_mats rhs "get_scal_fpts1_for_inter" elemap) = false ->
  exists ex,
    (get_view_mats lhs "get_scal_fpts1_for_inter" elemap = Raise ex \/
     get_view_mats rhs "get_scal_fpts1_for_inter" elemap = Raise ex) /\
    NavierStokesInternalInterfaces_init self (VRef b) lhs rhs elemap cfg h
    = (Raise ex, h0) /\
    length h0 = length h + 5 /\
    attr_names h0 self
    = attr_names h self ∪
      {[ "_be"; "_cfg"; "ndims"; "nvars"; "_scal0_lhs"; "_scal0_rhs";
         "_mag_pnorm_lhs"; "_mag_pnorm_rhs"; "_norm_pnorm_lhs" ]} /\
    (Exists (fun te => view_getters te.2 "get_scal_fpts1_for_inter" = None)
       elemap -> ex = AttributeError).
Proof.
  intros Hself Hbe Hbase Hno.
  destruct (instance_not_backend _ _ _ _ _ Hself Hbe) as [Hlt Hne].
  destruct (BaseInternalInterfaces_init_inv _ _ _ _ _ _ _ _ _ _ Hself Hbe Hbase)
    as (e & L & R & ML & MR & NL & He & HL & HR & HML & HMR & HNL & ->).
  destruct (NavierStokesInternalInterfaces_init_late h self c attrs [] b lhs
              rhs elemap cfg e L R ML MR NL Hlt Hne Hbe He HL HR HML HMR HNL
              Hno) as (ex & Hex & Hrun).
  exists ex. split; [done|]. split; [|split; [|split]].
  - rewrite (store_start _ _ _ _ Hself) at 1. rewrite Hrun.
    simpl. by rewrite Nat.add_0_r.
  - by rewrite store_length.
  - unfold attr_names. rewrite store_lookup_self, Hself by done.
    unfold internal_attrs, base_attrs. rewrite !dom_insert_L. set_solver.
  - intros Hnone.
    assert (forall l, get_view_mats l "get_scal_fpts1_for_inter" elemap
                      = Raise AttributeError) as Hg.
    { intros l. unfold get_view_mats.
      by rewrite (viewmatmap_from_exists_none _ _ _ Hnone). }
    rewrite !Hg in Hex. by destruct Hex as [[= <-]|[= <-]].
Qed.

(** X9.  A successful [NavierStokesMPIInterfaces.__init__] on an instance
    of that class has allocated five objects: the distributed lhs view,
    its receive buffer, the two constant matrices and one auxiliary
    distributed view on [get_scal_fpts1_for_inter], bound to
    [_scal1_lhs].  The auxiliary view gets no receive buffer of its own.
    [get_conu_fpts_kern] then returns [conu_mpi] on [ndims], [nvars], the
    lhs view, the receive buffer and the auxiliary view. *)
Theorem X9_navier_stokes_mpi_init py_float h self attrs b lhs rhsrank elemap
    cfg h' :
  h !! self = Some (OInstance NavierStokesMPIInterfaces attrs) ->
  h !! b = Some OBackend ->
  NavierStokesMPIInterfaces_init self (VRef b) lhs rhsrank elemap cfg h
  = (Ok (), h') ->
  exists e L ML NL L1,
    next_viewvalues elemap = Ok e /\
    get_view_mats lhs "get_scal_fpts0_for_inter" elemap = Ok L /\
    get_mag_pnorm_mat lhs elemap = Ok ML /\
    get_norm_pnorm_mat lhs elemap = Ok NL /\
    get_view_mats lhs "get_scal_fpts1_for_inter" elemap = Ok L1 /\
    drop (length h) h'
    = [OView true L (VInt (nvars e)) nopad;
       OMPIMatrix (view_extents L).1 (view_extents L).2 (VInt (nvars e));
       OConstMatrix ML nopad; OConstMatrix NL nopad;
       OView true L1 (VInt (nvars e)) nopad] /\
    receive_buffers (drop (length h) h') = [view_extents L] /\
    attr_val h' self "_scal1_lhs" = Some (VRef (length h + 4)) /\
    attr_val h' self "_scal1_rhs" = attr_val h self "_scal1_rhs" /\
    call py_float self get_conu_fpts_kern h'
    = (Ok (VRef (length h')),
       h' ++ [OKernel "conu_mpi"
                [VInt (ndims e); VInt (nvars e); VRef (length h);
                 VRef (length h + 1); VRef (length h + 4)]]).
Proof.
  intros Hself Hbe Hrun.
  destruct (instance_not_backend _ _ _ _ _ Hself Hbe) as [Hlt Hne].
  destruct (NavierStokesMPIInterfaces_init_inv _ _ _ _ _ _ _ _ _ _
              Hself Hbe Hrun)
    as (e & L & ML & NL & L1 & He & HL & HML & HNL & HL1 & ->).
  exists e, L, ML, NL, L1. repeat (split; [done|]).
  split; [by rewrite drop_store|].
  split; [rewrite drop_store; simpl; by destruct (view_extents L)|].
  split; [|split].
  - unfold attr_val. rewrite store_lookup_self by done. solve_ns_attr.
  - unfold attr_val. rewrite store_lookup_self, Hself by done.
    unfold ns_mpi_attrs, mpi_attrs, base_attrs.
    by repeat (rewrite lookup_insert_ne by done).
  - erewrite call_instance by (by apply store_lookup_self). simpl.
    unfold NavierStokesMPIInterfaces_get_conu_fpts_kern.
    do 6 (erewrite bind_ok by (apply getattr_store; [done|solve_ns_attr])).
    rewrite be_kernel_store by done.
    by rewrite store_length, store_snoc.
Qed.

(** X10.  A successful [BaseMPIInterfaces.__init__] has allocated four
    objects: the distributed lhs view, a receive buffer with its extents,
    and constant matrices for the normal magnitudes and the unit normals
    of the lhs sides.  It binds the nine names listed, [_rhsrank] to the
    rank it was given; no array is built for the paired rank's sides. *)
Theorem X10_mpi_init_objects h self c attrs b lhs rhsrank elemap cfg h' :
  h !! self = Some (OInstance c attrs) ->
  h !! b = Some OBackend ->
  BaseMPIInterfaces_init self (VRef b) lhs rhsrank elemap cfg h
  = (Ok (), h') ->
  exists e L ML NL,
    next_viewvalues elemap = Ok e /\
    get_view_mats lhs "get_scal_fpts0_for_inter" elemap = Ok L /\
    get_mag_pnorm_mat lhs elemap = Ok ML /\
    get_norm_pnorm_mat lhs elemap = Ok NL /\
    drop (length h) h'
    = [OView true L (VInt (nvars e)) nopad;
       OMPIMatrix (view_extents L).1 (view_extents L).2 (VInt (nvars e));
       OConstMatrix ML nopad; OConstMatrix NL nopad] /\
    const_matrices (drop (length h) h') = [ML; NL] /\
    attr_val h' self "_rhsrank" = Some rhsrank /\
    attr_val h' self "ndims" = Some (VInt (ndims e)) /\
    attr_val h' self "nvars" = Some (VInt (nvars e)) /\
    attr_names h' self
    = attr_names h self ∪
      {[ "_be"; "_cfg"; "ndims"; "nvars"; "_rhsrank"; "_scal0_lhs";
         "_scal0_rhs"; "_mag_pnorm_lhs"; "_norm_pnorm_lhs" ]} /\
    (forall l, l ≠ self -> l < length h -> h' !! l = h !! l).
Proof.
  intros Hself Hbe Hrun.
  destruct (instance_not_backend _ _ _ _ _ Hself Hbe) as [Hlt Hne].
  destruct (BaseMPIInterfaces_init_inv _ _ _ _ _ _ _ _ _ _ Hself Hbe Hrun)
    as (e & L & ML & NL & He & HL & HML & HNL & ->).
  exists e, L, ML, NL. repeat (split; [done|]).
  split; [by rewrite drop_store|].
  split; [by rewrite drop_store|].
  split; [unfold attr_val; rewrite store_lookup_self by done; solve_attr|].
  split; [unfold attr_val; rewrite store_lookup_self by done; solve_attr|].
  split; [unfold attr_val; rewrite store_lookup_self by done; solve_attr|].
  split.
  - unfold attr_names. rewrite store_lookup_self, Hself by done.
    unfold mpi_attrs, base_attrs. rewrite !dom_insert_L. set_solver.
  - intros l Hl Hlt'. by apply store_lookup_base.
Qed.

(** ** Instantiation and the Euler kernels *)

Lemma store_fresh h o c attrs news :
  store (h ++ [o]) (length h) c attrs news = h ++ OInstance c attrs :: news.
Proof.
  unfold store. rewrite insert_app_r_alt by done.
  rewrite Nat.sub_diag. simpl. by rewrite <- app_assoc.
Qed.

(** X11.  Only the two Euler classes can be instantiated: every other
    class of the module is left with the abstract [get_rsolve_kern], so
    calling it raises [TypeError] before anything is allocated, whatever
    the arguments. *)
Theorem X11_instantiable_classes c :
  abstractmethods c = (if decide (is_euler c) then []
                       else [get_rsolve_kern]) /\
  (forall a h, ~ is_euler c -> instantiate c a h = (Raise TypeError, h)).
Proof.
  unfold is_euler. split.
  - destruct c; case_decide as H; try done; naive_solver.
  - intros a h Hc. destruct c; try done; naive_solver.
Qed.

(** [get_rsolve_kern] of an internal Euler set, on any store. *)
Lemma EulerInternalInterfaces_get_rsolve_kern_run py_float h self attrs b cfg
    get getfloat gamma a1 a2 a3 a4 a5 a6 a7 :
  h !! self = Some (OInstance EulerInternalInterfaces attrs) ->
  attrs !! "_cfg" = Some (VRef cfg) ->
  h !! cfg = Some (OConfig get getfloat) ->
  getfloat "constants" "gamma" = Ok gamma ->
  attrs !! "_be" = Some (VRef b) -> h !! b = Some OBackend ->
  attrs !! "ndims" = Some a1 -> attrs !! "nvars" = Some a2 ->
  attrs !! "_scal0_lhs" = Some a3 -> attrs !! "_scal0_rhs" = Some a4 ->
  attrs !! "_mag_pnorm_lhs" = Some a5 -> attrs !! "_mag_pnorm_rhs" = Some a6 ->
  attrs !! "_norm_pnorm_lhs" = Some a7 ->
  call py_float self get_rsolve_kern h
  = (Ok (VRef (length h)),
     h ++ [OKernel "rsolve_rus_inv_int"
             [a1; a2; a3; a4; a5; a6; a7; VFloat gamma]]).
Proof.
  intros Hs Hcfg Hc Hp Hbe Hb H1 H2 H3 H4 H5 H6 H7.
  rewrite (call_instance _ _ _ _ _ _ Hs). simpl.
  unfold EulerInternalInterfaces_get_rsolve_kern.
  erewrite bind_ok by (by eapply getattr_ok).
  erewrite bind_ok by (erewrite cfg_getfloat_ok by done; by rewrite Hp).
  do 8 (erewrite bind_ok by (by eapply getattr_ok)).
  by apply be_kernel_ok.
Qed.

(** [get_rsolve_kern] of a distributed Euler set, on any store. *)
Lemma EulerMPIInterfaces_get_rsolve_kern_run py_float h self attrs b cfg
    get getfloat s gamma a1 a2 a3 a4 a5 a6 :
  h !! self = Some (OInstance EulerMPIInterfaces attrs) ->
  attrs !! "_cfg" = Some (VRef cfg) ->
  h !! cfg = Some (OConfig get getfloat) ->
  get "constants" "gamma" = Ok s ->
  py_float s = Ok gamma ->
  attrs !! "_be" = Some (VRef b) -> h !! b = Some OBackend ->
  attrs !! "ndims" = Some a1 -> attrs !! "nvars" = Some a2 ->
  attrs !! "_scal0_lhs" = Some a3 -> attrs !! "_scal0_rhs" = Some a4 ->
  attrs !! "_mag_pnorm_lhs" = Some a5 ->
  attrs !! "_norm_pnorm_lhs" = Some a6 ->
  call py_float self get_rsolve_kern h
  = (Ok (VRef (length h)),
     h ++ [OKernel "rsolve_rus_inv_mpi"
             [a1; a2; a3; a4; a5; a6; VFloat gamma]]).
Proof.
  intros Hs Hcfg Hc Hg Hp Hbe Hb H1 H2 H3 H4 H5 H6.
  rewrite (call_instance _ _ _ _ _ _ Hs). simpl.
  unfold EulerMPIInterfaces_get_rsolve_kern.
  erewrite bind_ok by (by eapply getattr_ok).
  erewrite bind_ok by (erewrite cfg_get_ok by done; by rewrite Hg).
  erewrite lift_ok by exact Hp.
  do 7 (erewrite bind_ok by (by eapply getattr_ok)).
  by apply be_kernel_ok.
Qed.

(** Calling an Euler class: the instance is allocated first, then
    initialised. *)
Lemma instantiate_internal_eq be lhs rhs elemap cfg h :
  instantiate EulerInternalInterfaces (ArgsInternal be lhs rhs elemap cfg) h
  = (BaseInternalInterfaces_init (length h) be lhs rhs elemap cfg;;
     mret (length h)) (h ++ [OInstance EulerInternalInterfaces ∅]).
Proof. reflexivity. Qed.

Lemma instantiate_mpi_eq be lhs rhsrank elemap cfg h :
  instantiate EulerMPIInterfaces (ArgsMPI be lhs rhsrank elemap cfg) h
  = (BaseMPIInterfaces_init (length h) be lhs rhsrank elemap cfg;;
     mret (length h)) (h ++ [OInstance EulerMPIInterfaces ∅]).
Proof. reflexivity. Qed.

Lemma seq_ret_inv {A} (m : M unit) (a : A) h r h' :
  (m;; mret a) h = (Ok r, h') -> m h = (Ok (), h') /\ r = a.
Proof.
  unfold mbind, M_bind, mret, M_ret.
  destruct (m h) as [[[]|e] h1]; [|done]. by intros [= <- <-].
Qed.

(** X12.  Calling [EulerInternalInterfaces] on a backend, two side lists,
    an element map and any configuration value: when the call returns,
    the new instance is the first new object, followed by the lhs view,
    the rhs view and the three constant matrices, and nothing that existed
    is changed.  If the [getfloat] of the configuration then returns a
    [gamma], [get_rsolve_kern] returns [rsolve_rus_inv_int] on [ndims] and
    [nvars] of the first element of the map, these five objects in this
    order, and that constant. *)
Theorem X12_euler_internal_end_to_end py_float h b lhs rhs elemap cfgv self
    h1 :
  h !! b = Some OBackend ->
  instantiate EulerInternalInterfaces
    (ArgsInternal (VRef b) lhs rhs elemap cfgv) h = (Ok self, h1) ->
  exists e L R ML MR NL,
    next_viewvalues elemap = Ok e /\
    get_view_mats lhs "get_scal_fpts0_for_inter" elemap = Ok L /\
    get_view_mats rhs "get_scal_fpts0_for_inter" elemap = Ok R /\
    get_mag_pnorm_mat lhs elemap = Ok ML /\
    get_mag_pnorm_mat rhs elemap = Ok MR /\
    get_norm_pnorm_mat lhs elemap = Ok NL /\
    self = length h /\
    h1 = h ++ [OInstance EulerInternalInterfaces
                 (internal_attrs (VRef b) cfgv e (length h + 1) ∅);
               OView false L (VInt (nvars e)) nopad;
               OView false R (VInt (nvars e)) nopad;
               OConstMatrix ML nopad;
               OConstMatrix MR nopad;
               OConstMatrix NL nopad] /\
    forall cfg get getfloat gamma,
      cfgv = VRef cfg ->
      h !! cfg = Some (OConfig get getfloat) ->
      getfloat "constants" "gamma" = Ok gamma ->
      call py_float self get_rsolve_kern h1
      = (Ok (VRef (length h + 6)),
         h1 ++ [OKernel "rsolve_rus_inv_int"
                  [VInt (ndims e); VInt (nvars e);
                   VRef (length h + 1); VRef (length h + 2);
                   VRef (length h + 3); VRef (length h + 4);
                   VRef (length h + 5); VFloat gamma]]).
Proof.
  intros Hbe. rewrite instantiate_internal_eq. intros Hrun.
  apply seq_ret_inv in Hrun as [Hrun ->].
  set (h0 := h ++ [OInstance EulerInternalInterfaces ∅]) in *.
  assert (h0 !! length h = Some (OInstance EulerInternalInterfaces ∅))
    as Hself by (by apply list_lookup_middle).
  assert (h0 !! b = Some OBackend) as Hbe0 by (by apply lookup_app_l_Some).
  destruct (BaseInternalInterfaces_init_inv _ _ _ _ _ _ _ _ _ _ Hself Hbe0
              Hrun)
    as (e & L & R & ML & MR & NL & He & HL & HR & HML & HMR & HNL & ->).
  exists e, L, R, ML, MR, NL. repeat (split; [done|]).
  assert (length h0 = length h + 1) as Hlen
    by (unfold h0; rewrite length_app; done).
  rewrite Hlen. split; [apply store_fresh|].
  intros cfg get getfloat gamma -> Hcfg Hp.
  assert (cfg < length h) as Hclt by (by eapply lookup_lt_Some).
  assert (b < length h) as Hblt by (by eapply lookup_lt_Some).
  erewrite (EulerInternalInterfaces_get_rsolve_kern_run py_float _ (length h)
              _ b cfg get getfloat gamma); cycle 1.
  - apply store_lookup_self. lia.
  - solve_attr.
  - rewrite store_lookup_base by lia. by apply lookup_app_l_Some.
  - done.
  - solve_attr.
  - rewrite store_lookup_base by lia. done.
  - solve_attr.
  - solve_attr.
  - solve_attr.
  - solve_attr.
  - solve_attr.
  - solve_attr.
  - solve_attr.
  - rewrite store_length, Hlen. simpl.
    rewrite <- ?Nat.add_assoc. simpl. reflexivity.
Qed.

(** X13.  Calling [EulerMPIInterfaces] on a backend, a side list, a rank,
    an element map and any configuration value: when the call returns,
    the new instance is the first new object, followed by the
    distributed lhs view, the receive buffer and the two constant
    matrices, and nothing that existed is changed.  If the [get] of the
    configuration then returns a text for [gamma] that [float] converts,
    [get_rsolve_kern] returns [rsolve_rus_inv_mpi] on [ndims] and [nvars]
    of the first element of the map, these four objects in this order,
    and the converted constant: the receive buffer stands where the
    internal kernel has the rhs view, and there is no rhs magnitude. *)
Theorem X13_euler_mpi_end_to_end py_float h b lhs rhsrank elemap cfgv self
    h1 :
  h !! b = Some OBackend ->
  instantiate EulerMPIInterfaces
    (ArgsMPI (VRef b) lhs rhsrank elemap cfgv) h = (Ok self, h1) ->
  exists e L ML NL,
    next_viewvalues elemap = Ok e /\
    get_view_mats lhs "get_scal_fpts0_for_inter" elemap = Ok L /\
    get_mag_pnorm_mat lhs elemap = Ok ML /\
    get_norm_pnorm_mat lhs elemap = Ok NL /\
    self = length h /\
    h1 = h ++ [OInstance EulerMPIInterfaces
                 (mpi_attrs (VRef b) cfgv rhsrank e (length h + 1) ∅);
               OView true L (VInt (nvars e)) nopad;
               OMPIMatrix (view_extents L).1 (view_extents L).2
                          (VInt (nvars e));
               OConstMatrix ML nopad;
               OConstMatrix NL nopad] /\
    forall cfg get getfloat s gamma,
      cfgv = VRef cfg ->
      h !! cfg = Some (OConfig get getfloat) ->
      get "constants" "gamma" = Ok s ->
      py_float s = Ok gamma ->
      call py_float self get_rsolve_kern h1
      = (Ok (VRef (length h + 5)),
         h1 ++ [OKernel "rsolve_rus_inv_mpi"
                  [VInt (ndims e); VInt (nvars e);
                   VRef (length h + 1); VRef (length h + 2);
                   VRef (length h + 3); VRef (length h + 4);
                   VFloat gamma]]).
Proof.
  intros Hbe. rewrite instantiate_mpi_eq. intros Hrun.
  apply seq_ret_inv in Hrun as [Hrun ->].
  set (h0 := h ++ [OInstance EulerMPIInterfaces ∅]) in *.
  assert (h0 !! length h = Some (OInstance EulerMPIInterfaces ∅))
    as Hself by (by apply list_lookup_middle).
  assert (h0 !! b = Some OBackend) as Hbe0 by (by apply lookup_app_l_Some).
  destruct (BaseMPIInterfaces_init_inv _ _ _ _ _ _ _ _ _ _ Hself Hbe0 Hrun)
    as (e & L & ML & NL & He & HL & HML & HNL & ->).
  exists e, L, ML, NL. repeat (split; [done|]).
  assert (length h0 = length h + 1) as Hlen
    by (unfold h0; rewrite length_app; done).
  rewrite Hlen. split; [apply store_fresh|].
  intros cfg get getfloat s gamma -> Hcfg Hg Hp.
  assert (cfg < length h) as Hclt by (by eapply lookup_lt_Some).
  assert (b < length h) as Hblt by (by eapply lookup_lt_Some).
  erewrite (EulerMPIInterfaces_get_rsolve_kern_run py_float _ (length h)
              _ b cfg get getfloat s gamma); cycle 1.
  - apply store_lookup_self. lia.
  - solve_attr.
  - rewrite store_lookup_base by lia. by apply lookup_app_l_Some.
  - done.
  - done.
  - solve_attr.
  - rewrite store_lookup_base by lia. done.
  - solve_attr.
  - solve_attr.
  - solve_attr.
  - solve_attr.
  - solve_attr.
  - solve_attr.
  - rewrite store_length, Hlen. simpl.
    rewrite <- ?Nat.add_assoc. simpl. reflexivity.
Qed.

(** X14.  [get_rsolve_kern] of either Euler class reads [gamma] before
    anything else: when its way of reading it raises (the [getfloat] of
    the configuration for the internal class; its [get], or [float] on the
    text, for the distributed one), the getter raises the same exception,
    no kernel is asked of the backend and the store is unchanged, whatever
    else the instance holds or lacks. *)
Theorem X14_gamma_failure py_float h self c attrs cfg get getfloat e :
  h !! self = Some (OInstance c attrs) -> is_euler c ->
  attrs !! "_cfg" = Some (VRef cfg) ->
  h !! cfg = Some (OConfig get getfloat) ->
  gamma_route py_float c get getfloat = Raise e ->
  call py_float self get_rsolve_kern h = (Raise e, h).
Proof.
  intros Hs Hc Hattr Hcfg Hg.
  rewrite (call_instance _ _ _ _ _ _ Hs).
  destruct Hc as [-> | ->]; simpl in *.
  - unfold EulerInternalInterfaces_get_rsolve_kern.
    erewrite bind_ok by (by eapply getattr_ok).
    by erewrite bind_raise by (erewrite cfg_getfloat_ok by done;
                               by rewrite Hg).
  - unfold EulerMPIInterfaces_get_rsolve_kern.
    erewrite bind_ok by (by eapply getattr_ok).
    destruct (get "constants" "gamma") as [s|e'] eqn:Hget; simpl in Hg.
    + erewrite bind_ok by (erewrite cfg_get_ok by done; by rewrite Hget).
      by erewrite lift_raise.
    + injection Hg as ->.
      by erewrite bind_raise by (erewrite cfg_get_ok by done;
                                 by rewrite Hget).
Qed.

(** [get_rsolve_kern] of either Euler class, on any store. *)
Lemma rsolve_run py_float h self c attrs b cfg get getfloat gamma args :
  is_euler c ->
  h !! self = Some (OInstance c attrs) ->
  attrs !! "_cfg" = Some (VRef cfg) ->
  h !! cfg = Some (OConfig get getfloat) ->
  gamma_route py_float c get getfloat = Ok gamma ->
  attrs !! "_be" = Some (VRef b) -> h !! b = Some OBackend ->
  Forall2 (fun n v => attrs !! n = Some v) (rsolve_operands c) args ->
  call py_float self get_rsolve_kern h
  = (Ok (VRef (length h)),
     h ++ [OKernel (rsolve_name c) (args ++ [VFloat gamma])]).
Proof.
  intros Hc Hs Hattr Hcfg Hg Hbe Hb Hargs.
  destruct Hc as [-> | ->]; simpl in Hargs, Hg;
    repeat (apply Forall2_cons_inv_l in Hargs as (? & ? & ? & Hargs & ->));
    apply Forall2_nil_inv_l in Hargs as ->; simpl.
  - by eapply EulerInternalInterfaces_get_rsolve_kern_run.
  - destruct (get "constants" "gamma") as [s|] eqn:Hget; [|done].
    by eapply EulerMPIInterfaces_get_rsolve_kern_run.
Qed.

(** X15.  [get_rsolve_kern] of either Euler class reads [gamma] at each
    call: a first call passes the constant the configuration gives; once
    the content of the configuration object has been replaced, a second
    call passes the new constant, after the same operands. *)
Theorem X15_gamma_read_at_each_call py_float h self c attrs b cfg get getfloat
    gamma get' getfloat' gamma' args :
  is_euler c ->
  h !! self = Some (OInstance c attrs) ->
  attrs !! "_cfg" = Some (VRef cfg) ->
  attrs !! "_be" = Some (VRef b) -> h !! b = Some OBackend ->
  Forall2 (fun n v => attrs !! n = Some v) (rsolve_operands c) args ->
  h !! cfg = Some (OConfig get getfloat) ->
  gamma_route py_float c get getfloat = Ok gamma ->
  gamma_route py_float c get' getfloat' = Ok gamma' ->
  exists h1 h2,
    call py_float self get_rsolve_kern h = (Ok (VRef (length h)), h1) /\
    h1 = h ++ [OKernel (rsolve_name c) (args ++ [VFloat gamma])] /\
    h2 = <[cfg := OConfig get' getfloat']> h1 /\
    call py_float self get_rsolve_kern h2
    = (Ok (VRef (length h + 1)),
       h2 ++ [OKernel (rsolve_name c) (args ++ [VFloat gamma'])]).
Proof.
  intros Hc Hs Hattr Hbe Hb Hargs Hcfg Hg Hg'.
  eexists _, _. split; [by eapply rsolve_run|]. split; [done|].
  split; [done|].
  assert (cfg ≠ self) as Hne1 by (intros ->; congruence).
  assert (cfg ≠ b) as Hne2 by (intros ->; congruence).
  assert (cfg < length h) as Hlt by (by eapply lookup_lt_Some).
  erewrite (rsolve_run py_float _ self c attrs b cfg get' getfloat'
              gamma' args); try done.
  - by rewrite length_insert, length_app.
  - rewrite list_lookup_insert_ne by done. by apply lookup_app_l_Some.
  - apply list_lookup_insert_eq. rewrite length_app. lia.
  - rewrite list_lookup_insert_ne by done. by apply lookup_app_l_Some.
Qed.

(** ** The exchange kernels *)

(** The four exchange getters of a distributed set, on any store. *)
Lemma exchange_run py_float h self c attrs b view buf rank :
  h !! self = Some (OInstance c attrs) ->
  BaseMPIInterfaces ∈ mro c ->
  attrs !! "MPI_TAG" = None ->
  attrs !! "_be" = Some (VRef b) -> h !! b = Some OBackend ->
  attrs !! "_scal0_lhs" = Some view -> attrs !! "_scal0_rhs" = Some buf ->
  attrs !! "_rhsrank" = Some rank ->
  call py_float self get_scal_fpts0_pack_kern h
  = (Ok (VRef (length h)), h ++ [OKernel "pack" [view]]) /\
  call py_float self get_scal_fpts0_send_pack_kern h
  = (Ok (VRef (length h)),
     h ++ [OKernel "send_pack" [view; rank; VInt MPI_TAG]]) /\
  call py_float self get_scal_fpts0_recv_pack_kern h
  = (Ok (VRef (length h)),
     h ++ [OKernel "recv_pack" [buf; rank; VInt MPI_TAG]]) /\
  call py_float self get_scal_fpts0_unpack_kern h
  = (Ok (VRef (length h)), h ++ [OKernel "unpack" [buf]]).
Proof.
  intros Hs Hc Htag Hbe Hb Hv Hbuf Hr.
  destruct (distributed_class c Hc) as [Hcls Hres].
  assert (getattr self "MPI_TAG" h = (Ok (VInt MPI_TAG), h)) as Hgt
    by (by rewrite (getattr_instance _ _ _ _ _ Hs), Htag, Hcls).
  rewrite !(call_instance _ _ _ _ _ _ Hs).
  rewrite !Hres by (simpl; set_unfold; naive_solver). simpl.
  unfold BaseMPIInterfaces_get_scal_fpts0_pack_kern,
    BaseMPIInterfaces_get_scal_fpts0_send_pack_kern,
    BaseMPIInterfaces_get_scal_fpts0_recv_pack_kern,
    BaseMPIInterfaces_get_scal_fpts0_unpack_kern.
  repeat split.
  all: repeat first
         [ erewrite bind_ok by (by eapply getattr_ok)
         | erewrite bind_ok by exact Hgt ].
  all: by apply be_kernel_ok.
Qed.

(** X16.  After [BaseMPIInterfaces.__init__] on an instance of a
    distributed class, asking for the four exchange kernels in turn
    returns four new descriptors: [pack] on the lhs view, [send_pack] on
    the same view with the paired rank and the tag, [recv_pack] on the
    receive buffer with the same rank and tag, [unpack] on the same
    buffer.  Nothing else is added to the store. *)
Theorem X16_exchange_protocol py_float h self c attrs b lhs rhsrank elemap
    cfg h' :
  h !! self = Some (OInstance c attrs) ->
  h !! b = Some OBackend ->
  BaseMPIInterfaces ∈ mro c ->
  attrs !! "MPI_TAG" = None ->
  BaseMPIInterfaces_init self (VRef b) lhs rhsrank elemap cfg h
  = (Ok (), h') ->
  exists L vlen view buf,
    h' !! view = Some (OView true L vlen nopad) /\
    h' !! buf
    = Some (OMPIMatrix (view_extents L).1 (view_extents L).2 vlen) /\
    (k1 ← call py_float self get_scal_fpts0_pack_kern;
     k2 ← call py_float self get_scal_fpts0_send_pack_kern;
     k3 ← call py_float self get_scal_fpts0_recv_pack_kern;
     k4 ← call py_float self get_scal_fpts0_unpack_kern;
     mret [k1; k2; k3; k4]) h'
    = (Ok [VRef (length h'); VRef (length h' + 1); VRef (length h' + 2);
           VRef (length h' + 3)],
       h' ++ [OKernel "pack" [VRef view];
              OKernel "send_pack" [VRef view; rhsrank; VInt MPI_TAG];
              OKernel "recv_pack" [VRef buf; rhsrank; VInt MPI_TAG];
              OKernel "unpack" [VRef buf]]).
Proof.
  intros Hself Hbe Hc Htag Hrun.
  destruct (instance_not_backend _ _ _ _ _ Hself Hbe) as [Hlt Hne].
  destruct (BaseMPIInterfaces_init_inv _ _ _ _ _ _ _ _ _ _ Hself Hbe Hrun)
    as (e & L & ML & NL & He & HL & HML & HNL & ->).
  set (attrs' := mpi_attrs (VRef b) cfg rhsrank e (length h) attrs).
  set (h' := store h self c attrs' _).
  exists L, (VInt (nvars e)), (length h), (length h + 1).
  split; [by rewrite <- (Nat.add_0_r (length h)) at 1;
          unfold h'; rewrite store_lookup_new|].
  split; [by unfold h'; rewrite store_lookup_new|].
  assert (forall ext,
    call py_float self get_scal_fpts0_pack_kern (h' ++ ext)
    = (Ok (VRef (length (h' ++ ext))),
       (h' ++ ext) ++ [OKernel "pack" [VRef (length h)]]) /\
    call py_float self get_scal_fpts0_send_pack_kern (h' ++ ext)
    = (Ok (VRef (length (h' ++ ext))),
       (h' ++ ext) ++ [OKernel "send_pack"
                         [VRef (length h); rhsrank; VInt MPI_TAG]]) /\
    call py_float self get_scal_fpts0_recv_pack_kern (h' ++ ext)
    = (Ok (VRef (length (h' ++ ext))),
       (h' ++ ext) ++ [OKernel "recv_pack"
                         [VRef (length h + 1); rhsrank; VInt MPI_TAG]]) /\
    call py_float self get_scal_fpts0_unpack_kern (h' ++ ext)
    = (Ok (VRef (length (h' ++ ext))),
       (h' ++ ext) ++ [OKernel "unpack" [VRef (length h + 1)]]))
    as Hcalls.
  { intros ext.
    apply (exchange_run py_float _ self c attrs' b).
    - apply lookup_app_l_Some. by apply store_lookup_self.
    - done.
    - unfold attrs', mpi_attrs, base_attrs.
      by repeat (rewrite lookup_insert_ne by done).
    - unfold attrs'. solve_attr.
    - apply lookup_app_l_Some. unfold h'.
      rewrite store_lookup_base; [done|done|by eapply lookup_lt_Some].
    - unfold attrs'. solve_attr.
    - unfold attrs'. solve_attr.
    - unfold attrs'. solve_attr. }
  destruct (Hcalls []) as (H1 & _). rewrite app_nil_r in H1.
  erewrite bind_ok by exact H1.
  destruct (Hcalls [OKernel "pack" [VRef (length h)]]) as (_ & H2 & _).
  erewrite bind_ok by exact H2.
  rewrite <- app_assoc. simpl.
  destruct (Hcalls [OKernel "pack" [VRef (length h)];
                    OKernel "send_pack"
                      [VRef (length h); rhsrank; VInt MPI_TAG]])
    as (_ & _ & H3 & _).
  erewrite bind_ok by exact H3.
  rewrite <- app_assoc. simpl.
  destruct (Hcalls [OKernel "pack" [VRef (length h)];
                    OKernel "send_pack"
                      [VRef (length h); rhsrank; VInt MPI_TAG];
                    OKernel "recv_pack"
                      [VRef (length h + 1); rhsrank; VInt MPI_TAG]])
    as (_ & _ & _ & H4).
  erewrite bind_ok by exact H4.
  rewrite <- app_assoc. simpl.
  unfold mret, M_ret. rewrite !length_app. simpl. reflexivity.
Qed.

(** X17.  What is not there: on an instance of a class that does not
    derive from [BaseMPIInterfaces] the four exchange getters raise
    [AttributeError]; [get_conu_fpts_kern] raises [AttributeError] on
    every instance of a class other than the two Navier-Stokes ones; and
    on an instance of a class that does not override it,
    [get_rsolve_kern] is the abstract method, whose body returns [None].
    None of these calls changes the store. *)
Theorem X17_missing_methods py_float h self c attrs :
  h !! self = Some (OInstance c attrs) ->
  (BaseMPIInterfaces ∉ mro c ->
   forall m, m ∈ exchange_getters ->
             call py_float self m h = (Raise AttributeError, h)) /\
  (c ≠ NavierStokesInternalInterfaces -> c ≠ NavierStokesMPIInterfaces ->
   call py_float self get_conu_fpts_kern h = (Raise AttributeError, h)) /\
  (~ is_euler c -> call py_float self get_rsolve_kern h = (Ok VNone, h)).
Proof.
  intros Hs. unfold is_euler, exchange_getters.
  split; [|split].
  - intros Hc m Hm. rewrite (call_instance _ _ _ _ _ _ Hs).
    rewrite !elem_of_cons, elem_of_nil in Hm.
    destruct Hm as [->|[->|[->|[->|[]]]]];
      destruct c; try done; exfalso; apply Hc; simpl; set_solver.
  - intros H1 H2. rewrite (call_instance _ _ _ _ _ _ Hs).
    by destruct c.
  - intros Hc. rewrite (call_instance _ _ _ _ _ _ Hs).
    destruct c; try done; naive_solver.
Qed.

(** ** Which exception a constructor raises *)

Lemma BaseInternalInterfaces_init_outcome base self c attrs news b lhs rhs
    elemap cfg :
  self < length base -> b ≠ self -> base !! b = Some OBackend ->
  (BaseInternalInterfaces_init self (VRef b) lhs rhs elemap cfg
     (store base self c attrs news)).1
  = internal_steps lhs rhs elemap.
Proof.
  intros Hs Hb Hbe. unfold BaseInternalInterfaces_init, internal_steps.
  destruct (next_viewvalues elemap) as [e|ex] eqn:He.
  2:{ by erewrite bind_raise by (rewrite BaseInterfaces_init_run, He; done). }
  erewrite bind_ok by (rewrite BaseInterfaces_init_run, He; done).
  destruct (get_view_mats lhs _ elemap) as [L|ex] eqn:HL.
  2:{ by erewrite lift_raise by done. }
  run_step.
  destruct (get_view_mats rhs _ elemap) as [R|ex] eqn:HR.
  2:{ by erewrite lift_raise by done. }
  repeat run_step.
  destruct (get_mag_pnorm_mat lhs elemap) as [ML|ex] eqn:HML.
  2:{ by erewrite lift_raise by done. }
  run_step.
  destruct (get_mag_pnorm_mat rhs elemap) as [MR|ex] eqn:HMR.
  2:{ by erewrite lift_raise by done. }
  repeat run_step.
  destruct (get_norm_pnorm_mat lhs elemap) as [NL|ex] eqn:HNL.
  2:{ by erewrite lift_raise by done. }
  repeat run_step. by rewrite setattr_store.
Qed.

Lemma BaseMPIInterfaces_init_outcome base self c attrs news b lhs rhsrank
    elemap cfg :
  self < length base -> b ≠ self -> base !! b = Some OBackend ->
  (BaseMPIInterfaces_init self (VRef b) lhs rhsrank elemap cfg
     (store base self c attrs news)).1
  = mpi_steps lhs elemap.
Proof.
  intros Hs Hb Hbe. unfold BaseMPIInterfaces_init, mpi_steps.
  destruct (next_viewvalues elemap) as [e|ex] eqn:He.
  2:{ by erewrite bind_raise by (rewrite BaseInterfaces_init_run, He; done). }
  erewrite bind_ok by (rewrite BaseInterfaces_init_run, He; done).
  run_step.
  destruct (get_view_mats lhs _ elemap) as [L|ex] eqn:HL.
  2:{ by erewrite lift_raise by done. }
  repeat run_step.
  erewrite bind_ok
    by (eapply be_mpi_matrix_for_view_store;
        [done|done|by apply list_lookup_middle]).
  run_step.
  destruct (get_mag_pnorm_mat lhs elemap) as [ML|ex] eqn:HML.
  2:{ by erewrite lift_raise by done. }
  run_step.
  destruct (get_norm_pnorm_mat lhs elemap) as [NL|ex] eqn:HNL.
  2:{ by erewrite lift_raise by done. }
  repeat run_step. by rewrite setattr_store.
Qed.

Lemma internal_steps_ok lhs rhs elemap :
  internal_steps lhs rhs elemap = Ok () ->
  exists e L R ML MR NL,
    next_viewvalues elemap = Ok e /\
    get_view_mats lhs "get_scal_fpts0_for_inter" elemap = Ok L /\
    get_view_mats rhs "get_scal_fpts0_for_inter" elemap = Ok R /\
    get_mag_pnorm_mat lhs elemap = Ok ML /\
    get_mag_pnorm_mat rhs elemap = Ok MR /\
    get_norm_pnorm_mat lhs elemap = Ok NL.
Proof.
  unfold internal_steps.
  destruct (next_viewvalues elemap) as [e|]; [|done].
  destruct (get_view_mats lhs _ elemap) as [L|]; [|done].
  destruct (get_view_mats rhs _ elemap) as [R|]; [|done].
  destruct (get_mag_pnorm_mat lhs elemap) as [ML|]; [|done].
  destruct (get_mag_pnorm_mat rhs elemap) as [MR|]; [|done].
  destruct (get_norm_pnorm_mat lhs elemap) as [NL|]; [|done].
  intros _. by exists e, L, R, ML, MR, NL.
Qed.

Lemma mpi_steps_ok lhs elemap :
  mpi_steps lhs elemap = Ok () ->
  exists e L ML NL,
    next_viewvalues elemap = Ok e /\
    get_view_mats lhs "get_scal_fpts0_for_inter" elemap = Ok L /\
    get_mag_pnorm_mat lhs elemap = Ok ML /\
    get_norm_pnorm_mat lhs elemap = Ok NL.
Proof.
  unfold mpi_steps.
  destruct (next_viewvalues elemap) as [e|]; [|done].
  destruct (get_view_mats lhs _ elemap) as [L|]; [|done].
  destruct (get_mag_pnorm_mat lhs elemap) as [ML|]; [|done].
  destruct (get_norm_pnorm_mat lhs elemap) as [NL|]; [|done].
  intros _. by exists e, L, ML, NL.
Qed.

(** X18.  On an instance and a backend, each constructor ends as its
    assembler calls do when made in the order of the source: it succeeds
    when all of them do, and otherwise raises the exception of the first
    one that fails.  For an internal set the order is: the first element
    of the map, the lhs view, the rhs view, the lhs magnitudes, the rhs
    magnitudes, the lhs unit normals and then, in the Navier-Stokes
    constructor, the auxiliary lhs and rhs views.  For a distributed set
    it is: the first element of the map, the lhs view, the lhs magnitudes,
    the lhs unit normals and then the auxiliary lhs view. *)
Theorem X18_constructor_outcome h selfI cI attrsI selfM cM attrsM b lhs rhs
    rhsrank elemap cfg :
  h !! selfI = Some (OInstance cI attrsI) ->
  h !! selfM = Some (OInstance cM attrsM) ->
  h !! b = Some OBackend ->
  (BaseInternalInterfaces_init selfI (VRef b) lhs rhs elemap cfg h).1
  = internal_steps lhs rhs elemap /\
  (NavierStokesInternalInterfaces_init selfI (VRef b) lhs rhs elemap cfg h).1
  = (internal_steps lhs rhs elemap;;
     get_view_mats lhs "get_scal_fpts1_for_inter" elemap;;
     get_view_mats rhs "get_scal_fpts1_for_inter" elemap;;
     Ok ()) /\
  (BaseMPIInterfaces_init selfM (VRef b) lhs rhsrank elemap cfg h).1
  = mpi_steps lhs elemap /\
  (NavierStokesMPIInterfaces_init selfM (VRef b) lhs rhsrank elemap cfg h).1
  = (mpi_steps lhs elemap;;
     get_view_mats lhs "get_scal_fpts1_for_inter" elemap;;
     Ok ()).
Proof.
  intros HselfI HselfM Hbe.
  destruct (instance_not_backend _ _ _ _ _ HselfI Hbe) as [HltI HneI].
  destruct (instance_not_backend _ _ _ _ _ HselfM Hbe) as [HltM HneM].
  pose proof (BaseInternalInterfaces_init_outcome h selfI cI attrsI [] b lhs
                rhs elemap cfg HltI HneI Hbe) as Hi.
  pose proof (BaseMPIInterfaces_init_outcome h selfM cM attrsM [] b lhs
                rhsrank elemap cfg HltM HneM Hbe) as Hm.
  rewrite <- (store_start _ _ _ _ HselfI) in Hi.
  rewrite <- (store_start _ _ _ _ HselfM) in Hm.
  split; [done|]. split; [|split; [done|]].
  - destruct (BaseInternalInterfaces_init selfI (VRef b) lhs rhs elemap cfg h)
      as [[[]|ex] h0] eqn:Hbase; simpl in Hi; rewrite <- Hi.
    2:{ unfold NavierStokesInternalInterfaces_init.
        by erewrite bind_raise by exact Hbase. }
    symmetry in Hi.
    destruct (internal_steps_ok _ _ _ Hi)
      as (e & L & R & ML & MR & NL & He & HL & HR & HML & HMR & HNL).
    clear Hbase. rewrite (store_start _ _ _ _ HselfI) at 1.
    destruct (get_view_mats lhs "get_scal_fpts1_for_inter" elemap)
      as [L1|ex] eqn:HL1.
    + destruct (get_view_mats rhs "get_scal_fpts1_for_inter" elemap)
        as [R1|ex] eqn:HR1.
      * by erewrite NavierStokesInternalInterfaces_init_ok.
      * unfold NavierStokesInternalInterfaces_init.
        erewrite bind_ok by (by eapply BaseInternalInterfaces_init_ok).
        rewrite HL1. erewrite lift_ok by reflexivity.
        rewrite HR1. by erewrite lift_raise.
    + unfold NavierStokesInternalInterfaces_init.
      erewrite bind_ok by (by eapply BaseInternalInterfaces_init_ok).
      rewrite HL1. by erewrite lift_raise.
  - destruct (BaseMPIInterfaces_init selfM (VRef b) lhs rhsrank elemap cfg h)
      as [[[]|ex] h0] eqn:Hbase; simpl in Hm; rewrite <- Hm.
    2:{ unfold NavierStokesMPIInterfaces_init.
        by erewrite bind_raise by exact Hbase. }
    symmetry in Hm.
    destruct (mpi_steps_ok _ _ Hm)
      as (e & L & ML & NL & He & HL & HML & HNL).
    clear Hbase. rewrite (store_start _ _ _ _ HselfM) at 1.
    destruct (get_view_mats lhs "get_scal_fpts1_for_inter" elemap)
      as [L1|ex] eqn:HL1.
    + by erewrite NavierStokesMPIInterfaces_init_ok.
    + unfold NavierStokesMPIInterfaces_init.
      erewrite bind_ok by (by eapply BaseMPIInterfaces_init_ok).
      rewrite HL1. by erewrite lift_raise.
Qed.

(** ** Layout of the auxiliary views *)

(** X19.  After a successful [NavierStokesInternalInterfaces.__init__]
    over an element map with unique keys whose auxiliary getter returns
    three fragments per side, [_scal1_lhs] and [_scal1_rhs] are views of
    three matrices each, every matrix being the concatenation, in the
    order of the side list, of one fragment per side, promoted to the
    common dtype of the fragments.  Where the auxiliary and the primary
    fragments of every lhs side have the same number of points, the points
    of a side start at the same flat position in the auxiliary and in the
    primary matrix. *)
Theorem X19_auxiliary_views_layout h self c attrs b lhs rhs elemap cfg h' :
  h !! self = Some (OInstance c attrs) ->
  h !! b = Some OBackend ->
  NoDup elemap.*1 ->
  Forall (fun s => length (side_frags elemap "get_scal_fpts1_for_inter" s) = 3)
    (lhs ++ rhs) ->
  NavierStokesInternalInterfaces_init self (VRef b) lhs rhs elemap cfg h
  = (Ok (), h') ->
  exists l0 l1 l2 r0 r1 r2 vlen,
    attr_obj h' self "_scal1_lhs"
    = Some (OView false [l0; l1; l2] vlen nopad) /\
    attr_obj h' self "_scal1_rhs"
    = Some (OView false [r0; r1; r2] vlen nopad) /\
    laid_out (view_frag elemap "get_scal_fpts1_for_inter" 0) lhs l0 /\
    laid_out (view_frag elemap "get_scal_fpts1_for_inter" 1) lhs l1 /\
    laid_out (view_frag elemap "get_scal_fpts1_for_inter" 2) lhs l2 /\
    laid_out (view_frag elemap "get_scal_fpts1_for_inter" 0) rhs r0 /\
    laid_out (view_frag elemap "get_scal_fpts1_for_inter" 1) rhs r1 /\
    laid_out (view_frag elemap "get_scal_fpts1_for_inter" 2) rhs r2 /\
    (forall k k',
       Forall (fun s =>
                 frag_points (view_frag elemap "get_scal_fpts1_for_inter" k) s
                 = frag_points
                     (view_frag elemap "get_scal_fpts0_for_inter" k') s)
              lhs ->
       forall j,
         offset (view_frag elemap "get_scal_fpts1_for_inter" k) lhs j
         = offset (view_frag elemap "get_scal_fpts0_for_inter" k') lhs j).
Proof.
  intros Hself Hbe Hnd H3 Hrun.
  destruct (instance_not_backend _ _ _ _ _ Hself Hbe) as [Hlt Hne].
  apply Forall_app in H3 as [H3l H3r].
  destruct (NavierStokesInternalInterfaces_init_inv _ _ _ _ _ _ _ _ _ _
              Hself Hbe Hrun)
    as (e & L & R & ML & MR & NL & L1 & R1 & He & HL & HR & HML & HMR & HNL
        & HL1 & HR1 & ->).
  destruct (get_view_mats_inv _ _ _ _ Hnd H3l HL1)
    as (l0 & l1 & l2 & -> & Hl0 & Hl1 & Hl2).
  destruct (get_view_mats_inv _ _ _ _ Hnd H3r HR1)
    as (r0 & r1 & r2 & -> & Hr0 & Hr1 & Hr2).
  exists l0, l1, l2, r0, r1, r2, (VInt (nvars e)).
  split; [eapply (attr_obj_store _ _ _ _ _ _ 5); [done|solve_ns_attr|done]|].
  split; [eapply (attr_obj_store _ _ _ _ _ _ 6); [done|solve_ns_attr|done]|].
  repeat (split; [done|]).
  intros k k' Hlen j. apply offset_pairs. by apply Forall_Forall2_diag.
Qed.

(** * Further sample runs *)

(** X1 on the two sample lhs sides. *)
Lemma X1_witness :
  exists mats,
    get_view_mats sample_lhs "get_scal_fpts0_for_inter" sample_elemap
    = Ok mats /\
    length mats = 3 /\
    Forall (fun m => length m = 1) mats /\
    sample_lhs ≠ [] /\
    Forall (fun te => is_Some (view_getters te.2 "get_scal_fpts0_for_inter"))
      sample_elemap /\
    Forall (fun s => s_type s ∈ sample_elemap.*1) sample_lhs.
Proof.
  eexists. split; [vm_compute; reflexivity|].
  apply X1_view_mats_shape. vm_compute. reflexivity.
Defined.

(** X5 on the two sample lhs sides, taken one by one. *)
Lemma X5_witness :
  exists m,
    get_mag_pnorm_mat ([Side "quad" 0 1 0] ++ [Side "quad" 1 3 0])
      sample_elemap = Ok m /\
    (get_mag_pnorm_mat ([Side "quad" 0 1 0] ++ [Side "quad" 1 3 0])
       sample_elemap = Ok m <->
     exists a1 a2,
       get_mag_pnorm_mat [Side "quad" 0 1 0] sample_elemap = Ok [a1] /\
       get_mag_pnorm_mat [Side "quad" 1 3 0] sample_elemap = Ok [a2] /\
       nd_tail a2 = nd_tail a1 /\ m = [nd_append a1 a2]) /\
    (get_norm_pnorm_mat ([Side "quad" 0 1 0] ++ [Side "quad" 1 3 0])
       sample_elemap = Ok m <->
     exists a1 a2,
       get_norm_pnorm_mat [Side "quad" 0 1 0] sample_elemap = Ok [a1] /\
       get_norm_pnorm_mat [Side "quad" 1 3 0] sample_elemap = Ok [a2] /\
       nd_tail a2 = nd_tail a1 /\ m = [nd_append a1 a2]).
Proof.
  eexists. split; [vm_compute; reflexivity|].
  apply X5_normals_split; done.
Defined.

(** X6 on the two sample lhs sides, taken one by one. *)
Lemma X6_witness :
  exists mats,
    get_view_mats ([Side "quad" 0 1 0] ++ [Side "quad" 1 3 0])
      "get_scal_fpts0_for_inter" sample_elemap = Ok mats /\
    (get_view_mats ([Side "quad" 0 1 0] ++ [Side "quad" 1 3 0])
       "get_scal_fpts0_for_inter" sample_elemap = Ok mats <->
     exists a0 a1 a2 b0 b1 b2,
       get_view_mats [Side "quad" 0 1 0] "get_scal_fpts0_for_inter"
         sample_elemap = Ok [[a0]; [a1]; [a2]] /\
       get_view_mats [Side "quad" 1 3 0] "get_scal_fpts0_for_inter"
         sample_elemap = Ok [[b0]; [b1]; [b2]] /\
       nd_tail b0 = nd_tail a0 /\ nd_tail b1 = nd_tail a1 /\
       nd_tail b2 = nd_tail a2 /\
       mats = [[nd_append a0 b0]; [nd_append a1 b1]; [nd_append a2 b2]]).
Proof.
  eexists. split; [vm_compute; reflexivity|].
  apply X6_views_split.
  - apply NoDup_singleton.
  - repeat constructor.
  - done.
  - done.
Defined.

(** X7 on the sample store: the Navier-Stokes internal set at 4. *)
Lemma X7_witness :
  exists e L R ML MR NL L1 R1,
    next_viewvalues sample_elemap = Ok e /\
    get_view_mats sample_lhs "get_scal_fpts0_for_inter" sample_elemap = Ok L /\
    get_view_mats sample_rhs "get_scal_fpts0_for_inter" sample_elemap = Ok R /\
    get_mag_pnorm_mat sample_lhs sample_elemap = Ok ML /\
    get_mag_pnorm_mat sample_rhs sample_elemap = Ok MR /\
    get_norm_pnorm_mat sample_lhs sample_elemap = Ok NL /\
    get_view_mats sample_lhs "get_scal_fpts1_for_inter" sample_elemap
    = Ok L1 /\
    get_view_mats sample_rhs "get_scal_fpts1_for_inter" sample_elemap
    = Ok R1 /\
    drop (length sample_store) sample_ns
    = [OView false L (VInt (nvars e)) nopad;
       OView false R (VInt (nvars e)) nopad;
       OConstMatrix ML nopad; OConstMatrix MR nopad; OConstMatrix NL nopad;
       OView false L1 (VInt (nvars e)) nopad;
       OView false R1 (VInt (nvars e)) nopad] /\
    attr_obj sample_ns 4 "_scal1_lhs"
    = Some (OView false L1 (VInt (nvars e)) nopad) /\
    attr_obj sample_ns 4 "_scal1_rhs"
    = Some (OView false R1 (VInt (nvars e)) nopad) /\
    attr_names sample_ns 4
    = attr_names sample_store 4 ∪
      {[ "_be"; "_cfg"; "ndims"; "nvars"; "_scal0_lhs"; "_scal0_rhs";
         "_mag_pnorm_lhs"; "_mag_pnorm_rhs"; "_norm_pnorm_lhs";
         "_scal1_lhs"; "_scal1_rhs" ]} /\
    (forall l, l ≠ 4 -> l < length sample_store ->
               sample_ns !! l = sample_store !! l).
Proof.
  refine (X7_navier_stokes_internal_init sample_store 4
            NavierStokesInternalInterfaces ∅ 0 sample_lhs sample_rhs
            sample_elemap (VRef 1) sample_ns _ _ _).
  - reflexivity.
  - reflexivity.
  - vm_compute. reflexivity.
Defined.

(** X8 on the sample store, over an element type without the auxiliary
    getter. *)
Lemma X8_witness :
  exists ex,
    (get_view_mats sample_lhs "get_scal_fpts1_for_inter"
       sample_inviscid_elemap = Raise ex \/
     get_view_mats sample_rhs "get_scal_fpts1_for_inter"
       sample_inviscid_elemap = Raise ex) /\
    NavierStokesInternalInterfaces_init 4 (VRef 0) sample_lhs sample_rhs
      sample_inviscid_elemap (VRef 1) sample_store
    = (Raise ex, sample_inviscid_base) /\
    length sample_inviscid_base = length sample_store + 5 /\
    attr_names sample_inviscid_base 4
    = attr_names sample_store 4 ∪
      {[ "_be"; "_cfg"; "ndims"; "nvars"; "_scal0_lhs"; "_scal0_rhs";
         "_mag_pnorm_lhs"; "_mag_pnorm_rhs"; "_norm_pnorm_lhs" ]} /\
    (Exists (fun te => view_getters te.2 "get_scal_fpts1_for_inter" = None)
       sample_inviscid_elemap -> ex = AttributeError).
Proof.
  refine (X8_navier_stokes_internal_late_failure sample_store 4
            NavierStokesInternalInterfaces ∅ 0 sample_lhs sample_rhs
            sample_inviscid_elemap (VRef 1) sample_inviscid_base _ _ _ _).
  - reflexivity.
  - reflexivity.
  - vm_compute. reflexivity.
  - vm_compute. reflexivity.
Defined.

(** X9 on the sample store: the Navier-Stokes distributed set at 5. *)
Lemma X9_witness :
  exists e L ML NL L1,
    next_viewvalues sample_elemap = Ok e /\
    get_view_mats sample_lhs "get_scal_fpts0_for_inter" sample_elemap = Ok L /\
    get_mag_pnorm_mat sample_lhs sample_elemap = Ok ML /\
    get_norm_pnorm_mat sample_lhs sample_elemap = Ok NL /\
    get_view_mats sample_lhs "get_scal_fpts1_for_inter" sample_elemap
    = Ok L1 /\
    drop (length sample_store) sample_ns_mpi
    = [OView true L (VInt (nvars e)) nopad;
       OMPIMatrix (view_extents L).1 (view_extents L).2 (VInt (nvars e));
       OConstMatrix ML nopad; OConstMatrix NL nopad;
       OView true L1 (VInt (nvars e)) nopad] /\
    receive_buffers (drop (length sample_store) sample_ns_mpi)
    = [view_extents L] /\
    attr_val sample_ns_mpi 5 "_scal1_lhs"
    = Some (VRef (length sample_store + 4)) /\
    attr_val sample_ns_mpi 5 "_scal1_rhs"
    = attr_val sample_store 5 "_scal1_rhs" /\
    call sample_float 5 get_conu_fpts_kern sample_ns_mpi
    = (Ok (VRef (length sample_ns_mpi)),
       sample_ns_mpi ++
       [OKernel "conu_mpi"
          [VInt (ndims e); VInt (nvars e); VRef (length sample_store);
           VRef (length sample_store + 1); VRef (length sample_store + 4)]]).
Proof.
  refine (X9_navier_stokes_mpi_init sample_float sample_store 5 ∅ 0
            sample_lhs (VInt 7) sample_elemap (VRef 1) sample_ns_mpi _ _ _).
  - reflexivity.
  - reflexivity.
  - vm_compute. reflexivity.
Defined.

(** X10 on the sample store: the distributed set at 3, paired with rank
    7. *)
Lemma X10_witness :
  exists e L ML NL,
    next_viewvalues sample_elemap = Ok e /\
    get_view_mats sample_lhs "get_scal_fpts0_for_inter" sample_elemap = Ok L /\
    get_mag_pnorm_mat sample_lhs sample_elemap = Ok ML /\
    get_norm_pnorm_mat sample_lhs sample_elemap = Ok NL /\
    drop (length sample_internal) sample_mpi
    = [OView true L (VInt (nvars e)) nopad;
       OMPIMatrix (view_extents L).1 (view_extents L).2 (VInt (nvars e));
       OConstMatrix ML nopad; OConstMatrix NL nopad] /\
    const_matrices (drop (length sample_internal) sample_mpi) = [ML; NL] /\
    attr_val sample_mpi 3 "_rhsrank" = Some (VInt 7) /\
    attr_val sample_mpi 3 "ndims" = Some (VInt (ndims e)) /\
    attr_val sample_mpi 3 "nvars" = Some (VInt (nvars e)) /\
    attr_names sample_mpi 3
    = attr_names sample_internal 3 ∪
      {[ "_be"; "_cfg"; "ndims"; "nvars"; "_rhsrank"; "_scal0_lhs";
         "_scal0_rhs"; "_mag_pnorm_lhs"; "_norm_pnorm_lhs" ]} /\
    (forall l, l ≠ 3 -> l < length sample_internal ->
               sample_mpi !! l = sample_internal !! l).
Proof.
  refine (X10_mpi_init_objects sample_internal 3 EulerMPIInterfaces ∅ 0
            sample_lhs (VInt 7) sample_elemap (VRef 1) sample_mpi _ _ _).
  - vm_compute. reflexivity.
  - vm_compute. reflexivity.
  - vm_compute. reflexivity.
Defined.

(** X12 on the sample store: the new internal set is at 6. *)
Lemma X12_witness :
  exists e L R ML MR NL,
    next_viewvalues sample_elemap = Ok e /\
    get_view_mats sample_lhs "get_scal_fpts0_for_inter" sample_elemap = Ok L /\
    get_view_mats sample_rhs "get_scal_fpts0_for_inter" sample_elemap = Ok R /\
    get_mag_pnorm_mat sample_lhs sample_elemap = Ok ML /\
    get_mag_pnorm_mat sample_rhs sample_elemap = Ok MR /\
    get_norm_pnorm_mat sample_lhs sample_elemap = Ok NL /\
    6 = length sample_store /\
    sample_euler_internal
    = sample_store ++
      [OInstance EulerInternalInterfaces
         (internal_attrs (VRef 0) (VRef 1) e (length sample_store + 1) ∅);
       OView false L (VInt (nvars e)) nopad;
       OView false R (VInt (nvars e)) nopad;
       OConstMatrix ML nopad;
       OConstMatrix MR nopad;
       OConstMatrix NL nopad] /\
    forall cfg get getfloat gamma,
      VRef 1 = VRef cfg ->
      sample_store !! cfg = Some (OConfig get getfloat) ->
      getfloat "constants" "gamma" = Ok gamma ->
      call sample_float 6 get_rsolve_kern sample_euler_internal
      = (Ok (VRef (length sample_store + 6)),
         sample_euler_internal ++
         [OKernel "rsolve_rus_inv_int"
            [VInt (ndims e); VInt (nvars e);
             VRef (length sample_store + 1); VRef (length sample_store + 2);
             VRef (length sample_store + 3); VRef (length sample_store + 4);
             VRef (length sample_store + 5); VFloat gamma]]).
Proof.
  refine (X12_euler_internal_end_to_end sample_float sample_store 0
            sample_lhs sample_rhs sample_elemap (VRef 1) 6
            sample_euler_internal _ _).
  - reflexivity.
  - vm_compute. reflexivity.
Defined.

(** X13 on the sample store: the new distributed set is at 6. *)
Lemma X13_witness :
  exists e L ML NL,
    next_viewvalues sample_elemap = Ok e /\
    get_view_mats sample_lhs "get_scal_fpts0_for_inter" sample_elemap = Ok L /\
    get_mag_pnorm_mat sample_lhs sample_elemap = Ok ML /\
    get_norm_pnorm_mat sample_lhs sample_elemap = Ok NL /\
    6 = length sample_store /\
    sample_euler_mpi
    = sample_store ++
      [OInstance EulerMPIInterfaces
         (mpi_attrs (VRef 0) (VRef 1) (VInt 7) e (length sample_store + 1) ∅);
       OView true L (VInt (nvars e)) nopad;
       OMPIMatrix (view_extents L).1 (view_extents L).2 (VInt (nvars e));
       OConstMatrix ML nopad;
       OConstMatrix NL nopad] /\
    forall cfg get getfloat s gamma,
      VRef 1 = VRef cfg ->
      sample_store !! cfg = Some (OConfig get getfloat) ->
      get "constants" "gamma" = Ok s ->
      sample_float s = Ok gamma ->
      call sample_float 6 get_rsolve_kern sample_euler_mpi
      = (Ok (VRef (length sample_store + 5)),
         sample_euler_mpi ++
         [OKernel "rsolve_rus_inv_mpi"
            [VInt (ndims e); VInt (nvars e);
             VRef (length sample_store + 1); VRef (length sample_store + 2);
             VRef (length sample_store + 3); VRef (length sample_store + 4);
             VFloat gamma]]).
Proof.
  refine (X13_euler_mpi_end_to_end sample_float sample_store 0
            sample_lhs (VInt 7) sample_elemap (VRef 1) 6
            sample_euler_mpi _ _).
  - reflexivity.
  - vm_compute. reflexivity.
Defined.

(** X14 on a configuration whose [gamma] does not parse. *)
Lemma X14_witness :
  call sample_float 2 get_rsolve_kern sample_unparsed
  = (Raise ValueError, sample_unparsed).
Proof.
  refine (X14_gamma_failure sample_float sample_unparsed 2
            EulerInternalInterfaces {[ "_cfg" := VRef 1 ]} 1
            (sample_get "abc") (sample_getfloat sample_float "abc")
            ValueError _ _ _ _ _).
  - reflexivity.
  - by left.
  - vm_compute. reflexivity.
  - reflexivity.
  - vm_compute. reflexivity.
Defined.

(** X15 on the sample internal set: [gamma] goes from 1.5 to 1.25. *)
Lemma X15_witness :
  exists h1 h2,
    call sample_float 2 get_rsolve_kern sample_internal
    = (Ok (VRef (length sample_internal)), h1) /\
    h1 = sample_internal ++
         [OKernel (rsolve_name EulerInternalInterfaces)
            ([VInt 2; VInt 4; VRef 6; VRef 7; VRef 8; VRef 9; VRef 10]
             ++ [VFloat 1.5])] /\
    h2 = <[1 := OConfig (sample_get "1.25")
                        (sample_getfloat sample_float2 "1.25")]> h1 /\
    call sample_float 2 get_rsolve_kern h2
    = (Ok (VRef (length sample_internal + 1)),
       h2 ++ [OKernel (rsolve_name EulerInternalInterfaces)
                ([VInt 2; VInt 4; VRef 6; VRef 7; VRef 8; VRef 9; VRef 10]
                 ++ [VFloat 1.25])]).
Proof.
  refine (X15_gamma_read_at_each_call sample_float sample_internal 2
            EulerInternalInterfaces (attrs_of sample_internal 2) 0 1
            (sample_get "1.5") (sample_getfloat sample_float "1.5")
            1.5%float
            (sample_get "1.25") (sample_getfloat sample_float2 "1.25")
            1.25%float
            [VInt 2; VInt 4; VRef 6; VRef 7; VRef 8; VRef 9; VRef 10]
            _ _ _ _ _ _ _ _ _).
  - by left.
  - vm_compute. reflexivity.
  - vm_compute. reflexivity.
  - vm_compute. reflexivity.
  - vm_compute. reflexivity.
  - repeat constructor; vm_compute; reflexivity.
  - vm_compute. reflexivity.
  - vm_compute. reflexivity.
  - vm_compute. reflexivity.
Defined.

(** X16 on the sample store: the distributed set at 3, paired with rank
    7. *)
Lemma X16_witness :
  exists L vlen view buf,
    sample_mpi !! view = Some (OView true L vlen nopad) /\
    sample_mpi !! buf
    = Some (OMPIMatrix (view_extents L).1 (view_extents L).2 vlen) /\
    (k1 ← call sample_float 3 get_scal_fpts0_pack_kern;
     k2 ← call sample_float 3 get_scal_fpts0_send_pack_kern;
     k3 ← call sample_float 3 get_scal_fpts0_recv_pack_kern;
     k4 ← call sample_float 3 get_scal_fpts0_unpack_kern;
     mret [k1; k2; k3; k4]) sample_mpi
    = (Ok [VRef (length sample_mpi); VRef (length sample_mpi + 1);
           VRef (length sample_mpi + 2); VRef (length sample_mpi + 3)],
       sample_mpi ++
       [OKernel "pack" [VRef view];
        OKernel "send_pack" [VRef view; VInt 7; VInt MPI_TAG];
        OKernel "recv_pack" [VRef buf; VInt 7; VInt MPI_TAG];
        OKernel "unpack" [VRef buf]]).
Proof.
  refine (X16_exchange_protocol sample_float sample_internal 3
            EulerMPIInterfaces ∅ 0 sample_lhs (VInt 7) sample_elemap (VRef 1)
            sample_mpi _ _ _ _ _).
  - vm_compute. reflexivity.
  - vm_compute. reflexivity.
  - simpl. set_solver.
  - apply lookup_empty.
  - vm_compute. reflexivity.
Defined.

(** X17 on the sample store: the internal Euler instance at 2. *)
Lemma X17_witness :
  (BaseMPIInterfaces ∉ mro EulerInternalInterfaces ->
   forall m, m ∈ exchange_getters ->
             call sample_float 2 m sample_store
             = (Raise AttributeError, sample_store)) /\
  (EulerInternalInterfaces ≠ NavierStokesInternalInterfaces ->
   EulerInternalInterfaces ≠ NavierStokesMPIInterfaces ->
   call sample_float 2 get_conu_fpts_kern sample_store
   = (Raise AttributeError, sample_store)) /\
  (~ is_euler EulerInternalInterfaces ->
   call sample_float 2 get_rsolve_kern sample_store
   = (Ok VNone, sample_store)).
Proof.
  refine (X17_missing_methods sample_float sample_store 2
            EulerInternalInterfaces ∅ _).
  reflexivity.
Defined.

(** X18 on the sample store: the Navier-Stokes instances at 4 and at 5;
    every assembler call succeeds. *)
Lemma X18_witness :
  (BaseInternalInterfaces_init 4 (VRef 0) sample_lhs sample_rhs sample_elemap
     (VRef 1) sample_store).1
  = internal_steps sample_lhs sample_rhs sample_elemap /\
  (NavierStokesInternalInterfaces_init 4 (VRef 0) sample_lhs sample_rhs
     sample_elemap (VRef 1) sample_store).1
  = (internal_steps sample_lhs sample_rhs sample_elemap;;
     get_view_mats sample_lhs "get_scal_fpts1_for_inter" sample_elemap;;
     get_view_mats sample_rhs "get_scal_fpts1_for_inter" sample_elemap;;
     Ok ()) /\
  (BaseMPIInterfaces_init 5 (VRef 0) sample_lhs (VInt 7) sample_elemap
     (VRef 1) sample_store).1
  = mpi_steps sample_lhs sample_elemap /\
  (NavierStokesMPIInterfaces_init 5 (VRef 0) sample_lhs (VInt 7)
     sample_elemap (VRef 1) sample_store).1
  = (mpi_steps sample_lhs sample_elemap;;
     get_view_mats sample_lhs "get_scal_fpts1_for_inter" sample_elemap;;
     Ok ()).
Proof.
  refine (X18_constructor_outcome sample_store
            4 NavierStokesInternalInterfaces ∅
            5 NavierStokesMPIInterfaces ∅ 0
            sample_lhs sample_rhs (VInt 7) sample_elemap (VRef 1) _ _ _).
  - reflexivity.
  - reflexivity.
  - reflexivity.
Defined.

(** X19 on the sample store: the Navier-Stokes internal set at 4. *)
Lemma X19_witness :
  exists l0 l1 l2 r0 r1 r2 vlen,
    attr_obj sample_ns 4 "_scal1_lhs"
    = Some (OView false [l0; l1; l2] vlen nopad) /\
    attr_obj sample_ns 4 "_scal1_rhs"
    = Some (OView false [r0; r1; r2] vlen nopad) /\
    laid_out (view_frag sample_elemap "get_scal_fpts1_for_inter" 0)
      sample_lhs l0 /\
    laid_out (view_frag sample_elemap "get_scal_fpts1_for_inter" 1)
      sample_lhs l1 /\
    laid_out (view_frag sample_elemap "get_scal_fpts1_for_inter" 2)
      sample_lhs l2 /\
    laid_out (view_frag sample_elemap "get_scal_fpts1_for_inter" 0)
      sample_rhs r0 /\
    laid_out (view_frag sample_elemap "get_scal_fpts1_for_inter" 1)
      sample_rhs r1 /\
    laid_out (view_frag sample_elemap "get_scal_fpts1_for_inter" 2)
      sample_rhs r2 /\
    (forall k k',
       Forall (fun s =>
                 frag_points
                   (view_frag sample_elemap "get_scal_fpts1_for_inter" k) s
                 = frag_points
                     (view_frag sample_elemap "get_scal_fpts0_for_inter" k')
                     s)
              sample_lhs ->
       forall j,
         offset (view_frag sample_elemap "get_scal_fpts1_for_inter" k)
           sample_lhs j
         = offset (view_frag sample_elemap "get_scal_fpts0_for_inter" k')
             sample_lhs j).
Proof.
  refine (X19_auxiliary_views_layout sample_store 4
            NavierStokesInternalInterfaces ∅ 0 sample_lhs sample_rhs
            sample_elemap (VRef 1) sample_ns _ _ _ _ _).
  - reflexivity.
  - reflexivity.
  - apply NoDup_singleton.
  - repeat constructor.
  - vm_compute. reflexivity.
Defined.
